(** * Verification of [bot.py]: the daily quiz dispatcher

    A shallow embedding of [parse_mcqs] and [main] of [bot.py], together
    with the fragment of Python's [str], [int] and [re] that they use.

    Conventions of the embedding.
    - A Python [str] is a list of Unicode code points ([N]).
    - [re] patterns are values of a small pattern type interpreted by a
      backtracking matcher with Python's priorities (leftmost, greedy).
    - Effects (files, log records, calls of the Telegram API) are threaded
      through a state-and-exception monad [M]; every Python operation that
      can raise returns in that monad.
    - The messaging service is an environment: the k-th API call of a run
      either succeeds or raises an [Exception], as an arbitrary function
      of k decides. *)

From Stdlib Require Import ZArith NArith List Bool Lia String Ascii.
From Stdlib Require Import DecimalZ.
From stdpp Require Import base list gmap.
Import ListNotations.

Local Open Scope N_scope.

(** ** Python strings *)

Abbreviation char := N (only parsing).
Abbreviation str := (list N) (only parsing).

(** A source literal, as the code points of its (ASCII) characters. *)
Definition lit (s : string) : str :=
  List.map N_of_ascii (list_ascii_of_string s).

Definition LF : char := 10.

(** [str.isspace] on one character, which is also what [str.strip()] removes
    and what [\s] matches in a [str] pattern. *)
Definition isspace (c : char) : bool :=
  ((0x09 <=? c) && (c <=? 0x0D)) || ((0x1C <=? c) && (c <=? 0x20))
  || (c =? 0x85) || (c =? 0xA0) || (c =? 0x1680)
  || ((0x2000 <=? c) && (c <=? 0x200A))
  || (c =? 0x2028) || (c =? 0x2029) || (c =? 0x202F) || (c =? 0x205F)
  || (c =? 0x3000).

Fixpoint lstrip (s : str) : str :=
  match s with
  | c :: t => if isspace c then lstrip t else s
  | [] => []
  end.

Definition rstrip (s : str) : str := rev (lstrip (rev s)).

(** [s.strip()] *)
Definition strip (s : str) : str := rstrip (lstrip s).

(** Truth value of a string: [if s:] *)
Definition truthy (s : str) : bool :=
  match s with [] => false | _ :: _ => true end.

Definition cons_head {A} (c : A) (ps : list (list A)) : list (list A) :=
  match ps with
  | p :: ps' => (c :: p) :: ps'
  | [] => [[c]]
  end.

(** [s.split(sep)] for a one-character separator. *)
Fixpoint str_split (sep : char) (s : str) : list str :=
  match s with
  | [] => [[]]
  | c :: t =>
      if c =? sep then [] :: str_split sep t
      else cons_head c (str_split sep t)
  end.

(** [repl.join(pieces)] *)
Fixpoint str_join (repl : str) (pieces : list str) : str :=
  match pieces with
  | [] => []
  | [p] => p
  | p :: ps => p ++ repl ++ str_join repl ps
  end.

Definition ascii_lower (c : char) : char :=
  if (0x41 <=? c) && (c <=? 0x5A) then c + 32 else c.

(** [s.lower()]. The program lower-cases only what group 1 of the answer
    pattern captured, a letter of [a-dA-D] ([AnswerFacts.search_answer_first]
    below); on ASCII [str.lower] is this map, and other code points are
    kept. *)
Definition str_lower (s : str) : str := List.map ascii_lower s.

(** ** The fragment of [re] used by the program *)

Module Re.

(** One-character sets: a literal, [\s], a range [[lo-hi]]. *)
Inductive cset :=
| Chr (c : char)
| Space
| Range (lo hi : char).

(** Pattern items: a set, a greedy starred set, a capturing group around
    a set, and the anchor [^]. A pattern is a sequence of items. *)
Inductive item :=
| One (cs : cset)
| Star (cs : cset)
| Group (cs : cset)
| Bol.

Definition pattern := list item.

(** Characters that match the ASCII pattern character [p] under
    [re.IGNORECASE]: those with the same ASCII lower case, and the
    non-ASCII characters whose Unicode case folding meets an ASCII
    letter (dotted and dotless I for [i], the Kelvin sign for [k], the
    long s for [s]). *)
Definition fold_extra (p c : char) : bool :=
  let l := ascii_lower p in
  ((l =? 0x69) && ((c =? 0x130) || (c =? 0x131)))
  || ((l =? 0x6B) && (c =? 0x212A))
  || ((l =? 0x73) && (c =? 0x17F)).

Definition chr_eq (ignorecase : bool) (p c : char) : bool :=
  if ignorecase
  then ((c <? 0x80) && (ascii_lower c =? ascii_lower p)) || fold_extra p c
  else c =? p.

(** The characters [lo .. lo+n-1]. *)
Fixpoint chars_from (lo : char) (n : nat) : list char :=
  match n with
  | O => []
  | S k => lo :: chars_from (lo + 1) k
  end.

Definition cset_in (ignorecase : bool) (cs : cset) (c : char) : bool :=
  match cs with
  | Chr p => chr_eq ignorecase p c
  | Space => isspace c
  | Range lo hi =>
      existsb (fun p => chr_eq ignorecase p c)
              (chars_from lo (N.to_nat (hi + 1 - lo)))
  end.

(** A match: the number of characters it spans and what group 1 holds. *)
Definition mtch : Type := nat * option str.

Definition advance (g : option str) (m : option mtch) : option mtch :=
  match m with
  | Some (n, g') => Some (S n, match g' with Some _ => g' | None => g end)
  | None => None
  end.

(** Match [r] at the head of [s]; [bol] says whether [s] starts at the
    beginning of the subject. A starred set first tries to take one more
    character and falls back to the rest of the pattern. *)
Fixpoint match_here (ignorecase : bool) (r : pattern) (bol : bool)
         (s : str) {struct r} : option mtch :=
  match r with
  | [] => Some (O, None)
  | Bol :: r' => if bol then match_here ignorecase r' bol s else None
  | One cs :: r' =>
      match s with
      | c :: t =>
          if cset_in ignorecase cs c
          then advance None (match_here ignorecase r' false t)
          else None
      | [] => None
      end
  | Group cs :: r' =>
      match s with
      | c :: t =>
          if cset_in ignorecase cs c
          then advance (Some [c]) (match_here ignorecase r' false t)
          else None
      | [] => None
      end
  | Star cs :: r' =>
      (fix star (bol : bool) (s : str) {struct s} : option mtch :=
         match s with
         | c :: t =>
             if cset_in ignorecase cs c
             then match advance None (star false t) with
                  | Some m => Some m
                  | None => match_here ignorecase r' bol s
                  end
             else match_here ignorecase r' bol s
         | [] => match_here ignorecase r' bol []
         end) bol s
  end.

(** [re.search]: the first position where the pattern matches, as
    (start, match). *)
Fixpoint search_from (ignorecase : bool) (r : pattern) (bol : bool)
         (pos : nat) (s : str) : option (nat * mtch) :=
  match match_here ignorecase r bol s with
  | Some m => Some (pos, m)
  | None =>
      match s with
      | _ :: t => search_from ignorecase r false (S pos) t
      | [] => None
      end
  end.

Definition search (ignorecase : bool) (r : pattern) (s : str)
  : option (nat * mtch) :=
  search_from ignorecase r true O s.

(** The pieces of [s] between successive non-overlapping matches, from
    the left; [skip] counts the characters of the current match still to
    pass. Both patterns it is used with start by consuming a character
    ([LabelFacts.match_here_positive]), so a match of length zero, which
    [re] treats specially, does not occur. *)
Fixpoint pieces (ignorecase : bool) (r : pattern) (bol : bool)
         (skip : nat) (s : str) : list str :=
  match s with
  | [] => [[]]
  | c :: t =>
      match skip with
      | S k => pieces ignorecase r false k t
      | O =>
          match match_here ignorecase r bol s with
          | Some (S n, _) => [] :: pieces ignorecase r false n t
          | _ => cons_head c (pieces ignorecase r false O t)
          end
      end
  end.

(** [re.split(r, s)] for a pattern without groups. *)
Definition split (r : pattern) (s : str) : list str :=
  pieces false r true O s.

(** [re.sub(r, repl, s)] for a replacement without back-references. *)
Definition sub (r : pattern) (repl : str) (s : str) : str :=
  str_join repl (pieces false r true O s).

End Re.

(** The three patterns of [parse_mcqs]. *)

(** [r'\n\s*\n'] *)
Definition BLOCK_SEP : Re.pattern :=
  [Re.One (Re.Chr LF); Re.Star Re.Space; Re.One (Re.Chr LF)].

(** [r'Answer:\s*([a-d])'], compiled with [re.IGNORECASE] *)
Definition ANSWER : Re.pattern :=
  List.map (fun c => Re.One (Re.Chr c)) (lit "Answer:")
  ++ [Re.Star Re.Space; Re.Group (Re.Range 0x61 0x64)].

(** [r'^[a-d]\)\s*'] *)
Definition LABEL : Re.pattern :=
  [Re.Bol; Re.One (Re.Range 0x61 0x64); Re.One (Re.Chr 0x29);
   Re.Star Re.Space].

(** ** [int(s)] and [str(n)] *)

(** Starts of the runs of ten Unicode decimal digits (category Nd) and the
    number of consecutive runs at each start: the table behind
    [Py_UNICODE_TODECIMAL] (Unicode 14). *)
Definition DECIMAL_RUNS : list (N * N) :=
  [(0x30, 1); (0x660, 1); (0x6F0, 1); (0x7C0, 1); (0x966, 1); (0x9E6, 1);
   (0xA66, 1); (0xAE6, 1); (0xB66, 1); (0xBE6, 1); (0xC66, 1); (0xCE6, 1);
   (0xD66, 1); (0xDE6, 1); (0xE50, 1); (0xED0, 1); (0xF20, 1); (0x1040, 1);
   (0x1090, 1); (0x17E0, 1); (0x1810, 1); (0x1946, 1); (0x19D0, 1);
   (0x1A80, 1); (0x1A90, 1); (0x1B50, 1); (0x1BB0, 1); (0x1C40, 1);
   (0x1C50, 1); (0xA620, 1); (0xA8D0, 1); (0xA900, 1); (0xA9D0, 1);
   (0xA9F0, 1); (0xAA50, 1); (0xABF0, 1); (0xFF10, 1); (0x104A0, 1);
   (0x10D30, 1); (0x11066, 1); (0x110F0, 1); (0x11136, 1); (0x111D0, 1);
   (0x112F0, 1); (0x11450, 1); (0x114D0, 1); (0x11650, 1); (0x116C0, 1);
   (0x11730, 1); (0x118E0, 1); (0x11950, 1); (0x11C50, 1); (0x11D50, 1);
   (0x11DA0, 1); (0x16A60, 1); (0x16AC0, 1); (0x16B50, 1); (0x1D7CE, 5);
   (0x1E140, 1); (0x1E2F0, 1); (0x1E950, 1); (0x1FBF0, 1)].

(** The decimal value of a digit character, if it is one. *)
Definition todecimal (c : char) : option N :=
  match List.find (fun '(lo, k) => (lo <=? c) && (c <? lo + 10 * k))
                  DECIMAL_RUNS with
  | Some (lo, _) => Some ((c - lo) mod 10)
  | None => None
  end.

(** What [int] does to each character before it scans the text: ASCII is
    kept, white space becomes a blank, a decimal digit its ASCII digit, and
    anything else a character no numeral contains. *)
Definition to_ascii_decimal (c : char) : char :=
  if c <? 127 then c
  else if isspace c then 0x20
  else match todecimal c with
       | Some d => 0x30 + d
       | None => 0x3F
       end.

(** White space of the scanner of [int] (C locale). *)
Definition c_isspace (c : char) : bool :=
  ((0x09 <=? c) && (c <=? 0x0D)) || (c =? 0x20).

Fixpoint skip_spaces (s : str) : str :=
  match s with
  | c :: t => if c_isspace c then skip_spaces t else s
  | [] => []
  end.

Definition digit_of_char (c : char) : option (Decimal.uint -> Decimal.uint) :=
  if c =? 0x30 then Some Decimal.D0 else if c =? 0x31 then Some Decimal.D1
  else if c =? 0x32 then Some Decimal.D2 else if c =? 0x33 then Some Decimal.D3
  else if c =? 0x34 then Some Decimal.D4 else if c =? 0x35 then Some Decimal.D5
  else if c =? 0x36 then Some Decimal.D6 else if c =? 0x37 then Some Decimal.D7
  else if c =? 0x38 then Some Decimal.D8 else if c =? 0x39 then Some Decimal.D9
  else None.

(** The digits of a numeral, with single underscores allowed between
    digits; [prev] is the character before [s] (0 at the start). Returns
    the digits and the rest of the text, or fails on a doubled or trailing
    underscore. *)
Fixpoint scan_digits (prev : char) (s : str) : option (Decimal.uint * str) :=
  match s with
  | c :: t =>
      if c =? 0x5F then
        if prev =? 0x5F then None else scan_digits c t
      else
        match digit_of_char c with
        | Some d =>
            match scan_digits c t with
            | Some (ds, rest) => Some (d ds, rest)
            | None => None
            end
        | None => if prev =? 0x5F then None else Some (Decimal.Nil, s)
        end
  | [] => if prev =? 0x5F then None else Some (Decimal.Nil, [])
  end.

(** The most digits that [int] converts: [sys.get_int_max_str_digits()],
    4300 by default since CPython 3.11. Leading zeros count; the sign,
    underscores and white space do not. *)
Definition INT_MAX_STR_DIGITS : N := 4300.

(** [int(s)]: [None] stands for [ValueError], which [int] raises for a
    text that is not a numeral and for a numeral of more than
    [INT_MAX_STR_DIGITS] digits. *)
Definition py_int (s : str) : option Z :=
  let b := skip_spaces (List.map to_ascii_decimal s) in
  let '(negative, b) :=
    match b with
    | c :: t => if c =? 0x2B then (false, t)
                else if c =? 0x2D then (true, t) else (false, b)
    | [] => (false, b)
    end in
  match b with
  | c :: _ =>
      if c =? 0x5F then None
      else
        match scan_digits 0 b with
        | Some (Decimal.Nil, _) => None
        | Some (ds, rest) =>
            if INT_MAX_STR_DIGITS <? N.of_nat (Decimal.nb_digits ds) then None
            else
              match skip_spaces rest with
              | [] =>
                  Some (if negative then (- Z.of_uint ds)%Z else Z.of_uint ds)
              | _ :: _ => None
              end
        | None => None
        end
  | [] => None
  end.

Fixpoint chars_of_uint (d : Decimal.uint) : str :=
  match d with
  | Decimal.Nil => []
  | Decimal.D0 d' => 0x30 :: chars_of_uint d'
  | Decimal.D1 d' => 0x31 :: chars_of_uint d'
  | Decimal.D2 d' => 0x32 :: chars_of_uint d'
  | Decimal.D3 d' => 0x33 :: chars_of_uint d'
  | Decimal.D4 d' => 0x34 :: chars_of_uint d'
  | Decimal.D5 d' => 0x35 :: chars_of_uint d'
  | Decimal.D6 d' => 0x36 :: chars_of_uint d'
  | Decimal.D7 d' => 0x37 :: chars_of_uint d'
  | Decimal.D8 d' => 0x38 :: chars_of_uint d'
  | Decimal.D9 d' => 0x39 :: chars_of_uint d'
  end.

(** [str(n)] for an [int]: its decimal numeral. CPython formats an integer
    of at most [INT_MAX_STR_DIGITS] digits and raises [ValueError] beyond;
    [py_str] gives the numeral of every integer. The program formats the
    cursor, which [int] has read, and positions in the list of questions;
    a property that needs a numeral to be one of CPython's states the
    bound on the number. *)
Definition py_str (n : Z) : str :=
  match Z.to_int n with
  | Decimal.Pos d => chars_of_uint d
  | Decimal.Neg d => 0x2D :: chars_of_uint d
  end.

Local Close Scope N_scope.
Local Open Scope Z_scope.

(** ** Sequences *)

Definition len {A} (l : list A) : Z := Z.of_nat (length l).

(** A slice bound [i] of a sequence of length [n], as Python normalises it. *)
Definition slice_bound (n i : Z) : Z :=
  if i <? 0 then Z.max 0 (i + n) else Z.min i n.

(** [l[i:j]] *)
Definition py_slice {A} (l : list A) (i j : Z) : list A :=
  let a := slice_bound (len l) i in
  let b := slice_bound (len l) j in
  firstn (Z.to_nat (b - a)) (skipn (Z.to_nat a) l).

(** [enumerate(l)], counting from [i]. *)
Fixpoint enumerate_from {A} (i : Z) (l : list A) : list (Z * A) :=
  match l with
  | [] => []
  | x :: t => (i, x) :: enumerate_from (i + 1) t
  end.

Definition enumerate {A} (l : list A) : list (Z * A) := enumerate_from 0 l.

(** ** Effects: files, log, API calls, exceptions *)

(** The exceptions the program can meet. [ApiError] stands for whatever
    [Exception] a call of the messaging client raises; it carries the
    text that [str(e)] gives for it. *)
Inductive exn :=
| FileNotFoundError
| ValueError
| IndexError
| AttributeError
| TypeError
| ApiError (msg : str).

Inductive level := INFO | WARNING | ERROR.

(** What a run does to the outside, in order. *)
Inductive event :=
| Log (lvl : level) (msg : str)
| FileRead (path : str)
| FileWrite (path : str) (data : str)
| SendMessage (chat_id : str) (text : str)
| SendPoll (chat_id : str) (question : str) (options : list str)
           (correct_option_id : Z).

Record world := World {
  files : gmap str str;     (* path -> content of the files that exist *)
  events : list event;      (* oldest first *)
  api_calls : nat           (* number of API calls made so far *)
}.

Inductive result (A : Type) :=
| Ok (a : A)
| Raise (e : exn).
Arguments Ok {A} a.
Arguments Raise {A} e.

Definition M (A : Type) : Type := world -> result A * world.

Definition ret {A} (a : A) : M A := fun w => (Ok a, w).

Definition raise {A} (e : exn) : M A := fun w => (Raise e, w).

Definition bind {A B} (m : M A) (k : A -> M B) : M B :=
  fun w =>
    match m w with
    | (Ok a, w') => k a w'
    | (Raise e, w') => (Raise e, w')
    end.

Notation "'let*' x ':=' m 'in' k" := (bind m (fun x => k))
  (at level 10, x name, m at level 100, k at level 200).
Notation "m ;; k" := (bind m (fun _ => k))
  (at level 100, k at level 200, right associativity).

(** [try: body except ...:] where [handler e] is the clause that catches
    [e], if there is one. What [body] did before it raised stays done. *)
Definition try_except {A} (body : M A) (handler : exn -> option (M A)) : M A :=
  fun w =>
    match body w with
    | (Ok a, w') => (Ok a, w')
    | (Raise e, w') =>
        match handler e with
        | Some h => h w'
        | None => (Raise e, w')
        end
    end.

Definition emit (e : event) : M unit :=
  fun w => (Ok tt, World (files w) (events w ++ [e]) (api_calls w)).

(** [logger.info / warning / error] *)
Definition log (lvl : level) (msg : str) : M unit := emit (Log lvl msg).

(** [with open(path, 'r') as f: f.read()]. A path that [files] does not
    hold is a missing file; [files] holds, for a file that exists, the text
    that [f.read()] returns. The other ways in which [open] and [read] can
    fail (a directory, missing permissions, bytes that do not decode) are
    outside the model, and no property here is about them. *)
Definition read_file (path : str) : M str :=
  emit (FileRead path);;
  fun w =>
    match files w !! path with
    | Some content => (Ok content, w)
    | None => (Raise FileNotFoundError, w)
    end.

(** [with open(path, 'w') as f: f.write(data)] *)
Definition write_file (path : str) (data : str) : M unit :=
  fun w =>
    (Ok tt, World (<[path := data]> (files w))
                  (events w ++ [FileWrite path data]) (api_calls w)).

(** [for x in l: body(x)] *)
Fixpoint for_each {A} (l : list A) (body : A -> M unit) : M unit :=
  match l with
  | [] => ret tt
  | x :: t => body x;; for_each t body
  end.

(** A loop that updates one local variable. *)
Fixpoint for_fold {A B} (l : list A) (acc : B) (body : B -> A -> M B) : M B :=
  match l with
  | [] => ret acc
  | x :: t => let* acc' := body acc x in for_fold t acc' body
  end.

(** [l[i]] *)
Definition py_index {A} (l : list A) (i : Z) : M A :=
  let j := if i <? 0 then i + len l else i in
  if (j <? 0) || (len l <=? j) then raise IndexError
  else match nth_error l (Z.to_nat j) with
       | Some x => ret x
       | None => raise IndexError
       end.

(** [ord(s)] *)
Definition ord (s : str) : M Z :=
  match s with
  | [c] => ret (Z.of_N c)
  | _ => raise TypeError
  end.

(** [int(s)] *)
Definition int (s : str) : M Z :=
  match py_int s with
  | Some n => ret n
  | None => raise ValueError
  end.

(** [match.group(1).lower()] on the result of [re.search]: [group(1)] is
    [None] when the group took no part in the match. *)
Definition group1_lower (m : nat * Re.mtch) : M str :=
  match snd (snd m) with
  | Some g => ret (str_lower g)
  | None => raise AttributeError
  end.

(** ** Configuration *)

Definition CHAT_IDS : list str := [lit "7695772994"; lit "8070930921"].
Definition QUESTIONS_FILE : str := lit "post_independence_india.txt".
Definition PROGRESS_FILE : str := lit "progress.txt".
Definition QUESTIONS_PER_DAY : Z := 20.

(** ** [parse_mcqs] *)

Record question_record := Question {
  question : str;
  options : list str;
  correct_index : Z
}.

(** [[line.strip() for line in block.strip().split('\n') if line.strip()]] *)
Definition block_lines (block : str) : list str :=
  List.map strip
    (List.filter (fun line => truthy (strip line))
                 (str_split LF (strip block))).

(** The body of the loop over the blocks; a [continue] returns
    [parsed_questions] as it is. *)
Definition parse_block (parsed_questions : list question_record)
           (block : str) : M (list question_record) :=
  if negb (truthy (strip block)) then ret parsed_questions
  else
    let lines := block_lines block in
    if len lines <? 4 then
      log WARNING (lit "Skipping invalid block: " ++ block);;
      ret parsed_questions
    else
      let* question := py_index lines 0 in
      let* answer_line := py_index lines (-1) in
      match Re.search true ANSWER answer_line with
      | None =>
          log WARNING (lit "Could not find answer in block: " ++ block);;
          ret parsed_questions
      | Some match_ =>
          let* correct_option_char := group1_lower match_ in
          let options :=
            List.map (fun line => Re.sub LABEL [] line)
                     (py_slice lines 1 (-1)) in
          if negb (len options =? 4) then
            log WARNING (lit "Block does not have 4 options: " ++ block);;
            ret parsed_questions
          else
            let* o := ord correct_option_char in
            let* a := ord (lit "a") in
            let correct_option_index := o - a in
            ret (parsed_questions
                 ++ [Question question options correct_option_index])
      end.

Definition parse_mcqs (file_path : str) : M (list question_record) :=
  log INFO (lit "Parsing questions from " ++ file_path);;
  let* content := read_file file_path in
  let question_blocks := Re.split BLOCK_SEP (strip content) in
  let* parsed_questions := for_fold question_blocks [] parse_block in
  log INFO (lit "Successfully parsed " ++ py_str (len parsed_questions)
            ++ lit " questions.");;
  ret parsed_questions.

(** ** [main] *)

Section Main.

(** The messaging service: [api k] is [None] when the k-th API call of
    the run succeeds and [Some msg] when it raises an exception [e] with
    [str(e) = msg]. *)
Variable api : nat -> option str.

Definition api_call (e : event) : M unit :=
  fun w =>
    let w' := World (files w) (events w ++ [e]) (S (api_calls w)) in
    match api (api_calls w) with
    | None => (Ok tt, w')
    | Some msg => (Raise (ApiError msg), w')
    end.

(** [str(e)] in the handlers; only [ApiError] reaches them. *)
Definition exn_str (e : exn) : str :=
  match e with
  | ApiError msg => msg
  | FileNotFoundError => lit "FileNotFoundError"
  | ValueError => lit "ValueError"
  | IndexError => lit "IndexError"
  | AttributeError => lit "AttributeError"
  | TypeError => lit "TypeError"
  end.

Definition COMPLETION_TEXT : str :=
  lit "No more questions, we are done! Congratulations!".

(** Step 1 of [main]: the value of [start_index] after the [try]. *)
Definition read_progress : M Z :=
  try_except
    (let* content := read_file PROGRESS_FILE in
     let content := strip content in
     let* start_index := (if truthy content then int content else ret 0) in
     log INFO (lit "Read progress: starting from question index "
               ++ py_str start_index);;
     ret start_index)
    (fun e =>
       match e with
       | FileNotFoundError =>
           Some (log INFO
                   (lit "Progress file not found. Starting from the beginning.");;
                 ret 0)
       | ValueError | IndexError =>
           Some (log WARNING
                   (lit "Could not read progress file. Starting from the beginning.");;
                 ret 0)
       | _ => None
       end).

Definition send_completion (chat_id : str) : M unit :=
  try_except
    (api_call (SendMessage chat_id COMPLETION_TEXT))
    (fun e =>
       Some (log ERROR (lit "Failed to send completion message to "
                        ++ chat_id ++ lit ": " ++ exn_str e))).

Definition send_quiz (start_index total_questions : Z) (chat_id : str)
           (iq : Z * question_record) : M unit :=
  let '(i, q_data) := iq in
  try_except
    (api_call
       (SendPoll chat_id
          (lit "(" ++ py_str (start_index + i + 1) ++ lit "/"
           ++ py_str total_questions ++ lit ") " ++ question q_data)
          (options q_data)
          (correct_index q_data)))
    (fun e =>
       Some (log ERROR (lit "Failed to send poll to " ++ chat_id ++ lit ": "
                        ++ question q_data ++ lit ". Error: " ++ exn_str e))).

(** [BOT_TOKEN] is [os.environ.get("TELEGRAM_BOT_TOKEN")]: [None] when
    the variable is not set. Building the client object
    ([telegram.Bot(token=BOT_TOKEN)]) makes no request. *)
Definition main (BOT_TOKEN : option str) : M unit :=
  if negb (match BOT_TOKEN with Some t => truthy t | None => false end) then
    log ERROR (lit "TELEGRAM_BOT_TOKEN environment variable not set!")
  else
    log INFO (lit "Bot initialized.");;
    let* all_questions := parse_mcqs QUESTIONS_FILE in
    let total_questions := len all_questions in
    let* start_index := read_progress in
    if total_questions <=? start_index then
      log INFO (lit "All questions have been sent.");;
      for_each CHAT_IDS send_completion
    else
      let end_index :=
        Z.min (start_index + QUESTIONS_PER_DAY) total_questions in
      let questions_to_send := py_slice all_questions start_index end_index in
      log INFO (lit "Sending questions from index " ++ py_str start_index
                ++ lit " to " ++ py_str (end_index - 1) ++ lit ".");;
      for_each CHAT_IDS (fun chat_id =>
        log INFO (lit "Sending " ++ py_str (len questions_to_send)
                  ++ lit " polls to chat ID: " ++ chat_id);;
        for_each (enumerate questions_to_send)
                 (send_quiz start_index total_questions chat_id));;
      log INFO (lit "Updating progress file to index " ++ py_str end_index);;
      write_file PROGRESS_FILE (py_str end_index);;
      log INFO (lit "Daily task finished successfully.").

End Main.

(** * Functions and predicates used to state the properties *)

(** The length of the run of white space at the head of [s]. *)
Fixpoint ws_len (s : str) : nat :=
  match s with
  | c :: t => if isspace c then S (ws_len t) else O
  | [] => O
  end.

Module ReAux.
Import Re.

(** The letters group 1 of [ANSWER] can hold. *)
Definition letter (c : char) : bool := cset_in true (Range 0x61 0x64) c.

(** What [\s*([a-d])] matches at the head of [s]: the run of white
    space, then a character of the set. *)
Definition tail_match (ic : bool) (cs : cset) (s : str) : option mtch :=
  match lstrip s with
  | c :: _ => if cset_in ic cs c then Some (S (ws_len s), Some [c]) else None
  | [] => None
  end.

(** The rest of [s] after a prefix that matches the literals [ps]. *)
Fixpoint lits_prefix (ic : bool) (ps : list char) (s : str) : option str :=
  match ps with
  | [] => Some s
  | p :: ps' =>
      match s with
      | c :: t => if chr_eq ic p c then lits_prefix ic ps' t else None
      | [] => None
      end
  end.

Fixpoint advance_by (n : nat) (m : option mtch) : option mtch :=
  match n with
  | O => m
  | S k => advance None (advance_by k m)
  end.

(** [ANSWER] at the head of [s]. *)
Definition answer_here (s : str) : option mtch :=
  match lits_prefix true (lit "Answer:") s with
  | Some s' =>
      match lstrip s' with
      | c :: _ =>
          if letter c then Some ((8 + ws_len s')%nat, Some [c]) else None
      | [] => None
      end
  | None => None
  end.

(** [re.search(ANSWER, s)] finds the first suffix where [answer_here]
    succeeds. *)
Fixpoint answer_search (pos : nat) (s : str) : option (nat * mtch) :=
  match answer_here s with
  | Some m => Some (pos, m)
  | None =>
      match s with
      | _ :: t => answer_search (S pos) t
      | [] => None
      end
  end.

End ReAux.

(** [w] spells the word [ps] up to case, as [re.IGNORECASE] compares
    characters. *)
Definition ci_word (ps w : str) : Prop :=
  Forall2 (fun p c => Re.chr_eq true p c = true) ps w.

(** [s] starts with an answer token whose letter is [c]: the word
    [Answer:] in any case, white space, a letter of [a-d] in any case. *)
Definition answer_token_here (s : str) (c : char) : Prop :=
  exists w ws rest,
    s = w ++ ws ++ c :: rest /\ ci_word (lit "Answer:") w /\
    forallb isspace ws = true /\ ReAux.letter c = true.

(** [line] has an answer token with letter [c] at position [i]. *)
Definition answer_token (line : str) (i : nat) (c : char) : Prop :=
  exists pre s, line = pre ++ s /\ length pre = i /\ answer_token_here s c.

(** [correct_index] for the captured letter [c]. *)
Definition letter_index (c : char) : Z := Z.of_N (ascii_lower c) - 97.

(** A line without its leading label: a lower-case letter of [a-d], a
    closing parenthesis and the white space after it. *)
Definition strip_label (line : str) : str :=
  match line with
  | l :: p :: rest =>
      if ((0x61 <=? l)%N && (l <=? 0x64)%N && (p =? 0x29)%N)%bool
      then lstrip rest else line
  | _ => line
  end.

(** [w] with the events [evs] added. *)
Definition add_events (w : world) (evs : list event) : world :=
  World (files w) (events w ++ evs) (api_calls w).

(** Events of the phases that only read and report: reads, and log
    records below the error level. *)
Definition benign (e : event) : bool :=
  match e with
  | Log INFO _ | Log WARNING _ | FileRead _ => true
  | _ => false
  end.

Definition is_api (e : event) : bool :=
  match e with SendMessage _ _ | SendPoll _ _ _ _ => true | _ => false end.

Definition is_write (e : event) : bool :=
  match e with FileWrite _ _ => true | _ => false end.

Definition is_error (e : event) : bool :=
  match e with Log ERROR _ => true | _ => false end.

(** The record [parse_block] appends for [block], if it appends one. *)
Definition block_record (block : str) : option question_record :=
  match block_lines block with
  | [prompt; o1; o2; o3; o4; answer_line] =>
      match Re.search true ANSWER answer_line with
      | Some (_, (_, Some [c])) =>
          Some (Question prompt
                         (List.map (Re.sub LABEL []) [o1; o2; o3; o4])
                         (letter_index c))
      | _ => None
      end
  | _ => None
  end.

Definition record_list (r : option question_record) : list question_record :=
  match r with Some q => [q] | None => [] end.

(** The records of a text: those of its blocks, in order. *)
Definition parse_text (content : str) : list question_record :=
  flat_map (fun block => record_list (block_record block))
           (Re.split BLOCK_SEP (strip content)).

(** The cursor a run starts from, given the progress file if there is
    one. *)
Definition cursor_of (file : option str) : Z :=
  match file with
  | Some content =>
      match py_int (strip content) with
      | Some n => n
      | None => 0
      end
  | None => 0
  end.

(** The integers that a numeral of at most [INT_MAX_STR_DIGITS] digits
    denotes are those of absolute value below [int_bound]. *)
Definition int_bound : Z := 10 ^ Z.of_N INT_MAX_STR_DIGITS.

Definition digit_char (c : char) : bool :=
  ((0x30 <=? c)%N && (c <=? 0x39)%N)%bool.

(** [w] after [n] more API calls and the events [evs]. *)
Definition after (w : world) (evs : list event) (n : nat) : world :=
  World (files w) (events w ++ evs) (n + api_calls w).

(** The call [send_quiz] makes for the [i]-th question [q] of the batch. *)
Definition quiz_event (start_index total_questions : Z) (chat_id : str)
           (iq : Z * question_record) : event :=
  SendPoll chat_id
    (lit "(" ++ py_str (start_index + fst iq + 1) ++ lit "/"
     ++ py_str total_questions ++ lit ") " ++ question (snd iq))
    (options (snd iq))
    (correct_index (snd iq)).

(** The record logged when sending [q] to [chat_id] raised [msg]. *)
Definition poll_failure (chat_id : str) (q : question_record) (msg : str)
  : event :=
  Log ERROR (lit "Failed to send poll to " ++ chat_id ++ lit ": "
             ++ question q ++ lit ". Error: " ++ msg).

(** The failure records of the sends [sends], the first of which is API
    call number [k] of the run. *)
Fixpoint failures (api : nat -> option str) (k : nat)
         (sends : list (str * (Z * question_record))) : list event :=
  match sends with
  | [] => []
  | (chat_id, iq) :: t =>
      match api k with
      | Some msg => [poll_failure chat_id (snd iq) msg]
      | None => []
      end ++ failures api (S k) t
  end.

(** The end of the batch that starts at cursor [c]. *)
Definition batch_end (c total : Z) : Z := Z.min (c + QUESTIONS_PER_DAY) total.

(** The sends of a batch: every question of the batch to every chat, chat
    by chat. *)
Definition sends (batch : list question_record)
  : list (str * (Z * question_record)) :=
  flat_map (fun chat_id => List.map (pair chat_id) (enumerate batch)) CHAT_IDS.

(** The events of [w'] that came after those of [w]. *)
Definition new_events (w w' : world) : list event :=
  skipn (length (events w)) (events w').

Definition is_poll (e : event) : bool :=
  match e with SendPoll _ _ _ _ => true | _ => false end.

(** The cursor the next run would start from. *)
Definition persisted_cursor (w : world) : Z :=
  cursor_of (files w !! PROGRESS_FILE).

Definition no_question : question_record := Question [] [] 0.

(** The quiz for the question of index [i] of [qs], as sent to [chat_id]:
    the prompt with its 1-based position and the total, the options, the
    correct index. *)
Definition quiz_of (qs : list question_record) (chat_id : str) (i : Z)
  : event :=
  let q := nth (Z.to_nat i) qs no_question in
  SendPoll chat_id
    (lit "(" ++ py_str (i + 1) ++ lit "/" ++ py_str (len qs) ++ lit ") "
     ++ question q)
    (options q) (correct_index q).

(** The indices [lo, lo+1, ..., hi-1]. *)
Definition indices (lo hi : Z) : list Z :=
  List.map (fun k => lo + Z.of_nat k) (seq 0 (Z.to_nat (hi - lo))).

(** One run after the other, each with its own behaviour of the service. *)
Definition runs (apis : list (nat -> option str)) (tok : str) (w : world)
  : world :=
  fold_left (fun w api => snd (main api (Some tok) w)) apis w.



(** A block of text: its lines, one per line. *)
Definition block_text (lines : list string) : str :=
  str_join [LF] (List.map lit lines).

(** Three well-formed questions, and three blocks the parser drops: one
    with three options, one whose answer letter is [e], one without an
    answer token. *)
Definition sample_text : str :=
  str_join [LF; LF]
    [ block_text ["Who was the first Prime Minister of India?";
                  "a) Jawaharlal Nehru"; "b) Vallabhbhai Patel";
                  "c) Rajendra Prasad"; "d) B. R. Ambedkar";
                  "Answer: a"]%string;
      block_text ["When did the Constitution of India come into force?";
                  "a) 1947"; "b) 1949"; "c) 1950"; "d) 1952";
                  "Answer: c"]%string;
      block_text ["Three options only"; "a) x"; "b) y"; "c) z";
                  "Answer: a"]%string;
      block_text ["Which plan launched the Green Revolution?";
                  "A) First"; "b)Second"; "  c) Third  "; "d) Fourth";
                  "The ANSWER:   C."]%string;
      block_text ["Letter out of range"; "a) w"; "b) x"; "c) y"; "d) z";
                  "Answer: e"]%string;
      block_text ["No token"; "a) w"; "b) x"; "c) y"; "d) z";
                  "It is b"]%string ].

(** Ninety copies of one question. *)
Definition ninety_text : str :=
  str_join [LF; LF]
    (repeat (block_text ["In which year did India become a republic?";
                         "a) 1947"; "b) 1950"; "c) 1952"; "d) 1962";
                         "Answer: b"]%string) 90).

(** A world with the question file [text] and, if given, a cursor file. *)
Definition sample_world (progress : option str) (text : str) : world :=
  World (<[QUESTIONS_FILE := text]>
           (match progress with
            | Some p => {[PROGRESS_FILE := p]}
            | None => ∅
            end))
        [] 0.

Definition TOKEN : str := lit "123456:token".

(** A service that never fails, and one whose second call raises. *)
Definition api_ok : nat -> option str := fun _ => None.
Definition api_second_fails : nat -> option str :=
  fun k => if Nat.eqb k 1 then Some (lit "Timed out") else None.

(** A well-formed block with uneven spacing and labels. *)
Definition sample_block : str :=
  block_text ["  Who chaired the Drafting Committee?  ";
              "a) Nehru"; "b)   Ambedkar"; "C) Patel"; "d)Prasad";
              "Answer: b"]%string.

(** ** Further functions and predicates *)

(** Whether [main] finds a token: [not BOT_TOKEN] is false. *)
Definition token_set (BOT_TOKEN : option str) : bool :=
  match BOT_TOKEN with Some t => truthy t | None => false end.

(** The record logged when sending the completion text to [chat_id]
    raised [msg]. *)
Definition completion_failure (chat_id : str) (msg : str) : event :=
  Log ERROR (lit "Failed to send completion message to " ++ chat_id
             ++ lit ": " ++ msg).

(** The failure records of the completion messages to [chats], the first
    of which is API call number [k] of the run. *)
Fixpoint completion_failures (api : nat -> option str) (k : nat)
         (chats : list str) : list event :=
  match chats with
  | [] => []
  | chat_id :: t =>
      match api k with
      | Some msg => [completion_failure chat_id msg]
      | None => []
      end ++ completion_failures api (S k) t
  end.

(** The quizzes sent to [chat_id]. *)
Definition poll_to (chat_id : str) (e : event) : bool :=
  match e with
  | SendPoll c _ _ _ => bool_decide (c = chat_id)
  | _ => false
  end.

(** The API calls addressed to [chat_id], quizzes and messages. *)
Definition sent_to (chat_id : str) (e : event) : bool :=
  match e with
  | SendPoll c _ _ _ => bool_decide (c = chat_id)
  | SendMessage c _ => bool_decide (c = chat_id)
  | _ => false
  end.

(** The cursor [n] runs after a run that started from [c]: a cursor at or
    beyond [total] stays, a cursor below advances by 20 a run up to
    [total]. *)
Definition cursor_after (c total : Z) (n : nat) : Z :=
  if total <=? c then c else Z.min (c + QUESTIONS_PER_DAY * Z.of_nat n) total.

(** A world without a question file, with a cursor file. *)
Definition no_questions_world : world :=
  World {[PROGRESS_FILE := lit "5"]} [] 0.

(** A service whose every call raises. *)
Definition api_down : nat -> option str :=
  fun _ => Some (lit "Network is down").

(** The four ways a run can go. *)
Inductive run_shape (api : nat -> option str) (w : world)
  : result unit -> world -> list event -> Prop :=
| NoToken :
    run_shape api w (Ok tt)
      (add_events w
         [Log ERROR (lit "TELEGRAM_BOT_TOKEN environment variable not set!")])
      [Log ERROR (lit "TELEGRAM_BOT_TOKEN environment variable not set!")]
| NoQuestions evs :
    files w !! QUESTIONS_FILE = None ->
    forallb benign evs = true ->
    run_shape api w (Raise FileNotFoundError) (add_events w evs) evs
| Batch content evs :
    files w !! QUESTIONS_FILE = Some content ->
    persisted_cursor w < len (parse_text content) ->
    List.filter is_api evs
    = List.map (fun s => quiz_event (persisted_cursor w)
                                    (len (parse_text content)) (fst s) (snd s))
               (sends (py_slice (parse_text content) (persisted_cursor w)
                         (batch_end (persisted_cursor w)
                                    (len (parse_text content))))) ->
    List.filter is_write evs
    = [FileWrite PROGRESS_FILE
         (py_str (batch_end (persisted_cursor w) (len (parse_text content))))] ->
    run_shape api w (Ok tt)
      (World (<[PROGRESS_FILE :=
                  py_str (batch_end (persisted_cursor w)
                                    (len (parse_text content)))]> (files w))
             (events w ++ evs)
             (length (sends (py_slice (parse_text content) (persisted_cursor w)
                               (batch_end (persisted_cursor w)
                                          (len (parse_text content)))))
              + api_calls w))
      evs
| Done content evs :
    files w !! QUESTIONS_FILE = Some content ->
    len (parse_text content) <= persisted_cursor w ->
    List.filter is_api evs
    = List.map (fun chat_id => SendMessage chat_id COMPLETION_TEXT) CHAT_IDS ->
    List.filter is_write evs = [] ->
    run_shape api w (Ok tt) (after w evs (length CHAT_IDS)) evs.

Definition is_warning (e : event) : bool :=
  match e with Log WARNING _ => true | _ => false end.

(** The text that precedes a dropped block in its warning: the first of
    the three checks of [parse_block] that the block fails. *)
Definition drop_reason (block : str) : str :=
  let lines := block_lines block in
  if len lines <? 4 then lit "Skipping invalid block: "
  else
    match Re.search true ANSWER (List.last lines []) with
    | None => lit "Could not find answer in block: "
    | Some _ => lit "Block does not have 4 options: "
    end.

(** What [parse_block] logs for [block]: nothing for a blank block or a
    block that yields a record, one warning otherwise. *)
Definition block_report (block : str) : list event :=
  if truthy (strip block) then
    match block_record block with
    | Some _ => []
    | None => [Log WARNING (drop_reason block ++ block)]
    end
  else [].

(** A text without white space at either end and without a newline. *)
Definition tidy (s : str) : Prop := strip s = s /\ ~ In LF s.

(** The number of newlines of [s]. *)
Definition lf_count (s : str) : nat := length (List.filter (N.eqb LF) s).

(** What [\s*\n] matches at the head of [t], as the number of characters
    it spans: the white space up to the last newline of the run of white
    space that [t] starts with. *)
Fixpoint sep_rest (t : str) : option nat :=
  match t with
  | c :: t' =>
      if isspace c then
        match sep_rest t' with
        | Some k => Some (S k)
        | None => if (c =? LF)%N then Some 1%nat else None
        end
      else None
  | [] => None
  end.

(** The blocks of [s], the first one preceded by [acc]. *)
Definition blocks_after (acc s : str) : list str :=
  match Re.split BLOCK_SEP s with
  | hd :: tl => (acc ++ hd) :: tl
  | [] => [acc]
  end.

(** The records of a list of blocks. *)
Definition records_of (blocks : list str) : list question_record :=
  flat_map (fun block => record_list (block_record block)) blocks.

(** The length of the blank-line separator that starts at the character
    [c] followed by [t], less one, if one starts there. *)
Definition sep_at (c : char) (t : str) : option nat :=
  if (c =? LF)%N then sep_rest t else None.

(** No blank-line separator starts anywhere in [block]. *)
Definition no_blank_line (block : str) : Prop :=
  forall pre c u, block = pre ++ c :: u -> sep_at c u = None.

(** [acc], followed by [s], has no separator that starts in [acc]. *)
Definition clean (acc s : str) : Prop :=
  forall pre c u, acc = pre ++ c :: u -> sep_at c (u ++ s) = None.

(** * Properties *)

(** ** Strings *)

Ltac bool_to_prop :=
  repeat match goal with
    | H : (_ && _)%bool = true |- _ => apply andb_true_iff in H; destruct H
    | H : (_ || _)%bool = true |- _ => apply orb_true_iff in H; destruct H
    | H : (_ =? _)%N = true |- _ => apply N.eqb_eq in H
    | H : (_ <=? _)%N = true |- _ => apply N.leb_le in H
    | H : (_ <? _)%N = true |- _ => apply N.ltb_lt in H
    | H : (_ =? _)%N = false |- _ => apply N.eqb_neq in H
    | H : (_ <=? _)%N = false |- _ => apply N.leb_gt in H
    | H : (_ <? _)%N = false |- _ => apply N.ltb_ge in H
    end.

Lemma lstrip_skipn (s : str) : lstrip s = skipn (ws_len s) s.
Proof.
  induction s as [|c t IH]; simpl; [reflexivity|].
  destruct (isspace c); [exact IH | reflexivity].
Qed.

Lemma ws_len_spaces (s : str) : forallb isspace (firstn (ws_len s) s) = true.
Proof.
  induction s as [|c t IH]; simpl; [reflexivity|].
  destruct (isspace c) eqn:E; simpl; [rewrite E; exact IH | reflexivity].
Qed.

Lemma lstrip_app_spaces (ws s : str) :
  forallb isspace ws = true -> lstrip (ws ++ s) = lstrip s.
Proof.
  induction ws as [|c t IH]; simpl; [reflexivity|].
  intros H. apply andb_true_iff in H as [Hc Ht]. rewrite Hc. auto.
Qed.

Lemma isspace_range (c : char) :
  isspace c = true -> (c <= 0x20 \/ 0x85 <= c)%N.
Proof. unfold isspace. intros H. bool_to_prop; lia. Qed.

(** ** Regular expressions *)

Module ReFacts.
Import Re ReAux.

Lemma advance_None (m : option mtch) :
  advance None m = match m with Some (n, g) => Some (S n, g) | None => None end.
Proof. destruct m as [[n [g|]]|]; reflexivity. Qed.

Lemma match_here_star_cons ic cs r bol c t :
  match_here ic (Star cs :: r) bol (c :: t) =
  if cset_in ic cs c
  then match advance None (match_here ic (Star cs :: r) false t) with
       | Some m => Some m
       | None => match_here ic r bol (c :: t)
       end
  else match_here ic r bol (c :: t).
Proof. reflexivity. Qed.

Lemma letter_spec (c : char) :
  letter c = true <->
  (c = 0x61 \/ c = 0x62 \/ c = 0x63 \/ c = 0x64
   \/ c = 0x41 \/ c = 0x42 \/ c = 0x43 \/ c = 0x44)%N.
Proof.
  unfold letter, cset_in. cbn [N.to_nat chars_from existsb].
  change (N.to_nat (0x64 + 1 - 0x61)) with 4%nat.
  cbn [chars_from existsb]. unfold chr_eq, fold_extra.
  change (ascii_lower 0x61) with 0x61%N.
  change (ascii_lower (0x61 + 1)) with 0x62%N.
  change (ascii_lower (0x61 + 1 + 1)) with 0x63%N.
  change (ascii_lower (0x61 + 1 + 1 + 1)) with 0x64%N.
  cbn [N.eqb Pos.eqb andb orb]. unfold ascii_lower.
  split.
  - intros H.
    destruct ((0x41 <=? c)%N && (c <=? 0x5A)%N) eqn:E; bool_to_prop; lia.
  - intros H.
    assert (Hc : ((c <? 0x80)%N = true)) by (apply N.ltb_lt; lia).
    rewrite Hc.
    destruct H as [->|[->|[->|[->|[->|[->|[->| ->]]]]]]]; reflexivity.
Qed.

Lemma letter_not_space (c : char) : isspace c = true -> letter c = false.
Proof.
  intros Hs. destruct (letter c) eqn:E; [|reflexivity].
  apply letter_spec in E. apply isspace_range in Hs. lia.
Qed.

Lemma match_here_tail ic cs bol s :
  (forall c, isspace c = true -> cset_in ic cs c = false) ->
  match_here ic [Star Space; Group cs] bol s = tail_match ic cs s.
Proof.
  intros Hdis. revert bol.
  induction s as [|c t IH]; intros bol; [reflexivity|].
  rewrite match_here_star_cons. unfold tail_match. cbn [cset_in lstrip ws_len].
  destruct (isspace c) eqn:Ec.
  - rewrite IH, advance_None. unfold tail_match.
    destruct (lstrip t) as [|x u]; cbn.
    + rewrite (Hdis c Ec). reflexivity.
    + destruct (cset_in ic cs x); [reflexivity|].
      rewrite (Hdis c Ec). reflexivity.
  - cbn. destruct (cset_in ic cs c); reflexivity.
Qed.

Lemma match_here_lits ic ps r bol s :
  ps <> [] ->
  match_here ic (List.map (fun c => One (Chr c)) ps ++ r) bol s =
  match lits_prefix ic ps s with
  | Some s' => advance_by (length ps) (match_here ic r false s')
  | None => None
  end.
Proof.
  revert bol s. induction ps as [|p ps IH]; intros bol s Hne; [congruence|].
  cbn [List.map app match_here lits_prefix cset_in length advance_by].
  destruct s as [|c t]; [reflexivity|].
  destruct (chr_eq ic p c); [|reflexivity].
  destruct ps as [|q ps'].
  - reflexivity.
  - rewrite IH by discriminate.
    destruct (lits_prefix ic (q :: ps') t); reflexivity.
Qed.

Lemma advance_by_Some n k g :
  advance_by n (Some (k, g)) = Some ((n + k)%nat, g).
Proof.
  induction n; cbn [advance_by]; [reflexivity|].
  rewrite IHn, advance_None. reflexivity.
Qed.

Lemma advance_by_None n : advance_by n None = None.
Proof. induction n; cbn [advance_by]; [reflexivity|]. rewrite IHn. reflexivity. Qed.

Lemma match_here_answer bol s :
  match_here true ANSWER bol s = answer_here s.
Proof.
  unfold ANSWER, answer_here.
  rewrite match_here_lits by discriminate.
  destruct (lits_prefix true (lit "Answer:") s) as [s'|]; [|reflexivity].
  rewrite match_here_tail by (intros c; apply letter_not_space).
  unfold tail_match. fold (letter).
  destruct (lstrip s') as [|c u]; [apply advance_by_None|].
  change (cset_in true (Range 0x61 0x64) c) with (letter c).
  destruct (letter c); [|apply advance_by_None].
  rewrite advance_by_Some. reflexivity.
Qed.

Lemma search_from_answer bol pos s :
  search_from true ANSWER bol pos s = answer_search pos s.
Proof.
  revert bol pos. induction s as [|c t IH]; intros bol pos;
    cbn [search_from answer_search]; rewrite match_here_answer.
  - reflexivity.
  - destruct (answer_here (c :: t)); [reflexivity | apply IH].
Qed.

Lemma search_answer s : search true ANSWER s = answer_search O s.
Proof. apply search_from_answer. Qed.

End ReFacts.

(** *** The answer token, declaratively *)

Module AnswerFacts.
Import Re ReAux ReFacts.

Lemma lits_prefix_spec ic ps s s' :
  lits_prefix ic ps s = Some s' <->
  exists w, s = w ++ s' /\ Forall2 (fun p c => chr_eq ic p c = true) ps w.
Proof.
  revert s. induction ps as [|p ps IH]; intros s; cbn [lits_prefix].
  - split.
    + intros [= ->]. exists []. split; [reflexivity | constructor].
    + intros (w & -> & Hw). inversion Hw. reflexivity.
  - destruct s as [|c t].
    + split; [discriminate|]. intros (w & Hs & Hw).
      inversion Hw; subst. discriminate.
    + destruct (chr_eq ic p c) eqn:E.
      * rewrite IH. split.
        -- intros (w & -> & Hw). exists (c :: w). split; [reflexivity|].
           constructor; assumption.
        -- intros (w & Hs & Hw). inversion Hw; subst.
           injection Hs as -> ->. eexists; split; [reflexivity | assumption].
      * split; [discriminate|]. intros (w & Hs & Hw).
        inversion Hw; subst. injection Hs as -> ->. congruence.
Qed.

Lemma answer_here_Some s n g :
  answer_here s = Some (n, g) ->
  exists c, g = Some [c] /\ letter c = true /\ answer_token_here s c.
Proof.
  unfold answer_here.
  destruct (lits_prefix true (lit "Answer:") s) as [s'|] eqn:Ep; [|discriminate].
  destruct (lstrip s') as [|c u] eqn:El; [discriminate|].
  destruct (letter c) eqn:Ec; [|discriminate].
  intros [= <- <-]. exists c. repeat split; [assumption|].
  apply lits_prefix_spec in Ep as (w & -> & Hw).
  exists w, (firstn (ws_len s') s'), u. repeat split.
  - f_equal. rewrite <- El, lstrip_skipn. symmetry. apply firstn_skipn.
  - exact Hw.
  - apply ws_len_spaces.
  - exact Ec.
Qed.

Lemma answer_token_here_match s c :
  answer_token_here s c -> exists n, answer_here s = Some (n, Some [c]).
Proof.
  intros (w & ws & rest & -> & Hw & Hws & Hc).
  unfold answer_here.
  assert (Hp : lits_prefix true (lit "Answer:") (w ++ ws ++ c :: rest)
               = Some (ws ++ c :: rest))
    by (apply lits_prefix_spec; eexists; split; [reflexivity | exact Hw]).
  rewrite Hp, (lstrip_app_spaces _ _ Hws). cbn [lstrip].
  destruct (isspace c) eqn:Es.
  - apply letter_not_space in Es. congruence.
  - rewrite Hc. eexists. reflexivity.
Qed.

(** At one position there is at most one token. *)
Lemma answer_token_here_unique s c c' :
  answer_token_here s c -> answer_token_here s c' -> c = c'.
Proof.
  intros H H'. apply answer_token_here_match in H as [n H].
  apply answer_token_here_match in H' as [n' H']. congruence.
Qed.

Lemma answer_search_Some pos s p n g :
  answer_search pos s = Some (p, (n, g)) ->
  exists pre s' c,
    s = pre ++ s' /\ p = (pos + length pre)%nat /\ g = Some [c] /\
    answer_token_here s' c /\
    (forall pre' t, s = pre' ++ t -> (length pre' < length pre)%nat ->
                    answer_here t = None).
Proof.
  revert pos. induction s as [|x t IH]; intros pos; cbn [answer_search].
  - destruct (answer_here []) as [[n' g']|] eqn:E; [|discriminate].
    intros [= <- <- <-]. apply answer_here_Some in E as (c & -> & _ & Ht).
    exists [], [], c. cbn [app length].
    split; [reflexivity|]. split; [lia|]. split; [reflexivity|].
    split; [exact Ht|]. intros; lia.
  - destruct (answer_here (x :: t)) as [[n' g']|] eqn:E.
    + intros [= <- <- <-]. apply answer_here_Some in E as (c & -> & _ & Ht).
      exists [], (x :: t), c. cbn [app length].
      split; [reflexivity|]. split; [lia|]. split; [reflexivity|].
      split; [exact Ht|]. intros; lia.
    + intros H. apply IH in H as (pre & s' & c & -> & -> & -> & Ht & Hmin).
      exists (x :: pre), s', c. cbn [length app].
      split; [reflexivity|]. split; [lia|]. split; [reflexivity|].
      split; [exact Ht|].
      intros pre' u Hu Hlen. destruct pre' as [|y pre'].
      * cbn in Hu. subst u. exact E.
      * cbn in Hu. injection Hu as <- Hu. apply (Hmin pre' u Hu).
        cbn in Hlen. lia.
Qed.

Lemma answer_search_None pos s :
  answer_search pos s = None ->
  forall pre t, s = pre ++ t -> answer_here t = None.
Proof.
  revert pos. induction s as [|x u IH]; intros pos; cbn [answer_search].
  - destruct (answer_here []) eqn:E; [discriminate|].
    intros _ pre t Ht. symmetry in Ht. apply app_eq_nil in Ht as [_ ->]. exact E.
  - destruct (answer_here (x :: u)) eqn:E; [discriminate|].
    intros H pre t Ht. destruct pre as [|y pre].
    + cbn in Ht. subst t. exact E.
    + cbn in Ht. injection Ht as <- Ht. exact (IH _ H pre t Ht).
Qed.

(** [re.search] on the answer pattern returns the first token of the
    line. *)
Lemma search_answer_first line p n g :
  search true ANSWER line = Some (p, (n, g)) ->
  exists c, g = Some [c] /\ letter c = true /\ answer_token line p c /\
            (forall i c', answer_token line i c' -> p <= i)%nat.
Proof.
  rewrite search_answer. intros H.
  apply answer_search_Some in H as (pre & s' & c & -> & -> & -> & Ht & Hmin).
  exists c. split; [reflexivity|]. split.
  { destruct Ht as (_ & _ & _ & _ & _ & _ & Hc). exact Hc. }
  split.
  - exists pre, s'. auto.
  - intros i c' (pre' & t & Heq & <- & Ht').
    destruct (Nat.le_gt_cases (length pre) (length pre')) as [Hle|Hlt];
      [exact Hle|].
    specialize (Hmin pre' t Heq Hlt).
    apply answer_token_here_match in Ht' as [n' Ht']. congruence.
Qed.

Lemma search_answer_None line :
  search true ANSWER line = None -> forall i c, ~ answer_token line i c.
Proof.
  rewrite search_answer. intros H i c (pre & t & Heq & _ & Ht).
  apply answer_token_here_match in Ht as [n' Ht'].
  rewrite (answer_search_None _ _ H pre t Heq) in Ht'. discriminate.
Qed.

Lemma search_answer_token line i c :
  answer_token line i c ->
  exists p n c', search true ANSWER line = Some (p, (n, Some [c']))
                 /\ (p <= i)%nat /\ answer_token line p c'.
Proof.
  intros Ht. destruct (search true ANSWER line) as [[p [n g]]|] eqn:E.
  - destruct (search_answer_first _ _ _ _ E) as (c' & -> & _ & Hp & Hmin).
    exists p, n, c'. split; [reflexivity|]. split; [exact (Hmin i c Ht) | exact Hp].
  - exfalso. exact (search_answer_None _ E i c Ht).
Qed.


End AnswerFacts.

(** *** Option labels *)

Module LabelFacts.
Import Re ReAux ReFacts.

Lemma lower_letter (c : char) :
  cset_in false (Range 0x61 0x64) c = ((0x61 <=? c)%N && (c <=? 0x64)%N)%bool.
Proof.
  unfold cset_in. change (N.to_nat (0x64 + 1 - 0x61)) with 4%nat.
  cbn [chars_from existsb chr_eq].
  destruct (N.leb_spec 0x61 c), (N.leb_spec c 0x64); cbn [andb];
    repeat match goal with
      | |- context [(c =? ?k)%N] => destruct (N.eqb_spec c k); cbn [orb]
      end; try reflexivity; lia.
Qed.

Lemma match_here_star_end ic bol s :
  match_here ic [Star Space] bol s = Some (ws_len s, None).
Proof.
  revert bol. induction s as [|c t IH]; intros bol; [reflexivity|].
  rewrite match_here_star_cons. cbn [cset_in ws_len].
  destruct (isspace c); [|reflexivity].
  rewrite IH. reflexivity.
Qed.

Lemma pieces_skip ic r bol k s :
  pieces ic r bol (S k) s = pieces ic r false O (skipn (S k) s).
Proof.
  revert bol k. induction s as [|c t IH]; intros bol k; [reflexivity|].
  cbn [pieces skipn]. destruct k as [|k]; [reflexivity|]. apply IH.
Qed.

Lemma pieces_label_inner s : pieces false LABEL false O s = [s].
Proof.
  induction s as [|c t IH]; [reflexivity|].
  cbn [pieces]. change (match_here false LABEL false (c :: t)) with (@None mtch).
  rewrite IH. reflexivity.
Qed.

Lemma match_here_One ic cs r bol c t :
  match_here ic (One cs :: r) bol (c :: t) =
  if cset_in ic cs c then advance None (match_here ic r false t) else None.
Proof. reflexivity. Qed.

(** A pattern that starts with a one-character set, after [^] or not,
    has no empty match: this holds of [BLOCK_SEP] and of [LABEL]. *)
Lemma match_here_positive ic cs r bol s n g :
  match_here ic (One cs :: r) bol s = Some (n, g)
  \/ match_here ic (Bol :: One cs :: r) bol s = Some (n, g) ->
  (0 < n)%nat.
Proof.
  assert (H : forall b, match_here ic (One cs :: r) b s = Some (n, g) ->
                        (0 < n)%nat).
  { intros b. destruct s as [|c t]; [discriminate|].
    rewrite match_here_One. destruct (cset_in ic cs c); [|discriminate].
    rewrite advance_None.
    destruct (match_here ic r false t) as [[k g']|]; [|discriminate].
    intros [= <- _]. apply Nat.lt_0_succ. }
  intros [H1|H2]; [exact (H bol H1)|].
  change (match_here ic (Bol :: ?p) bol s)
    with (if bol then match_here ic p bol s else None) in H2.
  destruct bol; [exact (H true H2) | discriminate].
Qed.

Lemma match_here_label (l : char) (t : str) :
  match_here false LABEL true (l :: t) =
  match t with
  | p :: rest =>
      if ((0x61 <=? l)%N && (l <=? 0x64)%N && (p =? 0x29)%N)%bool
      then Some (S (S (ws_len rest)), None) else None
  | [] => None
  end.
Proof.
  unfold LABEL.
  change (match_here false (Bol :: ?r) true ?s) with (match_here false r true s).
  rewrite match_here_One, lower_letter.
  destruct ((0x61 <=? l)%N && (l <=? 0x64)%N)%bool; cbn [andb].
  2:{ destruct t; reflexivity. }
  destruct t as [|p rest]; [reflexivity|].
  rewrite match_here_One. cbn [cset_in chr_eq].
  destruct (p =? 0x29)%N; [|reflexivity].
  rewrite match_here_star_end. reflexivity.
Qed.

Lemma sub_label (line : str) : sub LABEL [] line = strip_label line.
Proof.
  unfold sub, strip_label. destruct line as [|l t]; [reflexivity|].
  cbn [pieces]. rewrite match_here_label.
  destruct t as [|p rest].
  { reflexivity. }
  destruct ((0x61 <=? l)%N && (l <=? 0x64)%N && (p =? 0x29)%N)%bool.
  - rewrite pieces_skip, pieces_label_inner. cbn [skipn str_join app].
    rewrite lstrip_skipn. reflexivity.
  - rewrite pieces_label_inner. reflexivity.
Qed.

End LabelFacts.

(** ** Sequences *)

Lemma py_index_first {A} (x : A) (t : list A) : py_index (x :: t) 0 = ret x.
Proof.
  unfold py_index, len. cbn [Z.ltb Z.compare length nth_error Z.to_nat orb].
  destruct (Z.leb_spec (Z.of_nat (S (length t))) 0); [lia | reflexivity].
Qed.

Lemma last_cons_default {A} (y : A) (t : list A) (d d' : A) :
  List.last (y :: t) d = List.last (y :: t) d'.
Proof.
  revert y. induction t as [|z t IH]; intros y; [reflexivity|].
  change (List.last (z :: t) d = List.last (z :: t) d'). apply IH.
Qed.

Lemma nth_error_last {A} (x : A) (t : list A) :
  nth_error (x :: t) (length t) = Some (List.last (x :: t) x).
Proof.
  revert x. induction t as [|y t IH]; intros x; [reflexivity|].
  cbn [length nth_error]. rewrite IH. f_equal.
  change (List.last (y :: t) y = List.last (y :: t) x).
  apply last_cons_default.
Qed.

Lemma py_index_last {A} (x : A) (t : list A) :
  py_index (x :: t) (-1) = ret (List.last (x :: t) x).
Proof.
  unfold py_index, len. cbn [Z.ltb Z.compare].
  destruct (Z.ltb_spec (-1 + Z.of_nat (length (x :: t))) 0) as [H|H];
    [cbn [length] in H; lia|].
  destruct (Z.leb_spec (Z.of_nat (length (x :: t)))
                       (-1 + Z.of_nat (length (x :: t)))) as [H'|H']; [lia|].
  cbn [orb]. replace (Z.to_nat (-1 + Z.of_nat (length (x :: t)))) with (length t)
    by (cbn [length]; lia).
  rewrite nth_error_last. reflexivity.
Qed.

Lemma py_slice_inner_length {A} (l : list A) :
  length (py_slice l 1 (-1)) = (length l - 2)%nat.
Proof.
  unfold py_slice, slice_bound, len. cbn [Z.ltb Z.compare].
  rewrite length_firstn, length_skipn. lia.
Qed.

(** ** Running monadic code *)

Lemma add_events_nil w : add_events w [] = w.
Proof. destruct w. unfold add_events. cbn. rewrite app_nil_r. reflexivity. Qed.

Lemma add_events_app w a b :
  add_events (add_events w a) b = add_events w (a ++ b).
Proof. unfold add_events. cbn. rewrite <- app_assoc. reflexivity. Qed.

Lemma bind_ret {A B} (a : A) (k : A -> M B) w : bind (ret a) k w = k a w.
Proof. reflexivity. Qed.

Lemma bind_log {B} lvl msg (k : unit -> M B) w :
  bind (log lvl msg) k w = k tt (add_events w [Log lvl msg]).
Proof. reflexivity. Qed.

(** ** The parser, block by block *)

Lemma block_lines_blank block : strip block = [] -> block_lines block = [].
Proof. intros H. unfold block_lines. rewrite H. reflexivity. Qed.

Lemma parse_block_run parsed block w :
  exists evs,
    parse_block parsed block w
    = (Ok (parsed ++ record_list (block_record block)), add_events w evs)
    /\ forallb benign evs = true.
Proof.
  unfold parse_block, block_record.
  destruct (strip block) as [|b0 bt] eqn:Eb.
  { rewrite (block_lines_blank _ Eb). cbn [truthy negb record_list].
    exists []. rewrite add_events_nil, app_nil_r. split; reflexivity. }
  cbn [truthy negb].
  assert (Hskip : forall msg (qs : list question_record),
             exists evs,
               (log WARNING msg;; ret qs) w
               = (Ok (qs ++ record_list None), add_events w evs)
               /\ forallb benign evs = true).
  { intros msg qs. exists [Log WARNING msg]. cbn [record_list].
    rewrite app_nil_r. split; reflexivity. }
  destruct (block_lines block) as [|l0 [|l1 [|l2 [|l3 rest]]]] eqn:El;
    try (apply Hskip).
  assert (Hlen : (len (l0 :: l1 :: l2 :: l3 :: rest) <? 4) = false)
    by (apply Z.ltb_ge; unfold len; cbn [length]; lia).
  rewrite Hlen. rewrite py_index_first, bind_ret.
  rewrite py_index_last, bind_ret.
  set (lines := l0 :: l1 :: l2 :: l3 :: rest) in *.
  set (answer_line := List.last lines l0).
  assert (Hopts : forall f : str -> str,
             (len (List.map f (py_slice lines 1 (-1))) =? 4)
             = Nat.eqb (length rest) 2).
  { intros f. unfold len. rewrite length_map, py_slice_inner_length.
    subst lines. cbn [length].
    destruct (Nat.eqb_spec (length rest) 2);
      [apply Z.eqb_eq | apply Z.eqb_neq]; lia. }
  destruct (Re.search true ANSWER answer_line) as [[p [n g]]|] eqn:Es.
  - destruct (AnswerFacts.search_answer_first _ _ _ _ Es) as (c & -> & Hc & _).
    unfold group1_lower. cbn [snd]. rewrite bind_ret, Hopts.
    destruct rest as [|l4 [|l5 [|l6 rest]]]; cbn [length Nat.eqb negb];
      try (subst answer_line lines; cbn [List.last] in Es; try rewrite Es;
           apply Hskip).
    subst answer_line lines. cbn [List.last] in Es. rewrite Es.
    exists []. rewrite add_events_nil. split; [|reflexivity].
    cbn [str_lower List.map ord]. rewrite bind_ret.
    change (ord (lit "a")) with (@ret Z 97). rewrite bind_ret.
    unfold ret. reflexivity.
  - destruct rest as [|l4 [|l5 [|l6 rest]]];
      try (subst answer_line lines; cbn [List.last] in Es; try rewrite Es);
      apply Hskip.
Qed.

(** ** The parser, on a whole text *)

Lemma for_fold_parse_block blocks parsed w :
  exists evs,
    for_fold blocks parsed parse_block w
    = (Ok (parsed
           ++ flat_map (fun block => record_list (block_record block)) blocks),
       add_events w evs)
    /\ forallb benign evs = true.
Proof.
  revert parsed w. induction blocks as [|b bs IH]; intros parsed w.
  - exists []. cbn. rewrite add_events_nil, app_nil_r. split; reflexivity.
  - destruct (parse_block_run parsed b w) as (e1 & H1 & B1).
    destruct (IH (parsed ++ record_list (block_record b)) (add_events w e1))
      as (e2 & H2 & B2).
    exists (e1 ++ e2). cbn [for_fold flat_map]. unfold bind at 1.
    rewrite H1, H2, add_events_app, <- app_assoc.
    split; [reflexivity|]. rewrite forallb_app, B1, B2. reflexivity.
Qed.

Lemma read_file_run path w :
  read_file path w
  = (match files w !! path with
     | Some content => Ok content
     | None => Raise FileNotFoundError
     end, add_events w [FileRead path]).
Proof.
  unfold read_file, bind, emit. cbn [files].
  destruct (files w !! path); reflexivity.
Qed.

(** [parse_mcqs] on an existing file returns the records of its text and
    only reads and logs. *)
Lemma parse_mcqs_run path content w :
  files w !! path = Some content ->
  exists evs,
    parse_mcqs path w = (Ok (parse_text content), add_events w evs)
    /\ forallb benign evs = true.
Proof.
  intros Hf. unfold parse_mcqs. rewrite bind_log. unfold bind at 1.
  rewrite read_file_run. cbn [add_events files]. rewrite Hf.
  cbv beta iota zeta.
  match goal with
  | |- context [bind (for_fold ?bs [] parse_block) _ ?w'] =>
      destruct (for_fold_parse_block bs [] w') as (e & He & Be)
  end.
  unfold bind at 1. rewrite He. cbn [app]. fold (parse_text content).
  rewrite bind_log. unfold ret.
  eexists. split.
  - unfold add_events. cbn [files events api_calls].
    rewrite <- !app_assoc. reflexivity.
  - rewrite !forallb_app, Be. reflexivity.
Qed.

(** [parse_mcqs] on a missing file raises, having only logged and tried
    to read. *)
Lemma parse_mcqs_missing path w :
  files w !! path = None ->
  exists evs,
    parse_mcqs path w = (Raise FileNotFoundError, add_events w evs)
    /\ forallb benign evs = true.
Proof.
  intros Hf. unfold parse_mcqs. rewrite bind_log. unfold bind at 1.
  rewrite read_file_run. cbn [add_events files]. rewrite Hf.
  cbv beta iota zeta.
  eexists. split.
  - unfold add_events. cbn [files events api_calls].
    rewrite <- !app_assoc. reflexivity.
  - reflexivity.
Qed.

(** ** The progress file *)

Lemma read_progress_run w :
  exists evs,
    read_progress w
    = (Ok (cursor_of (files w !! PROGRESS_FILE)), add_events w evs)
    /\ forallb benign evs = true.
Proof.
  unfold read_progress, try_except, cursor_of. unfold bind at 1.
  rewrite read_file_run. cbn [add_events files].
  destruct (files w !! PROGRESS_FILE) as [content|].
  - destruct (strip content) as [|c0 t0] eqn:Es; cbn [truthy].
    + rewrite bind_ret, bind_log. unfold ret.
      change (py_int []) with (@None Z).
      eexists. split.
      * unfold add_events. cbn [files events api_calls].
        rewrite <- !app_assoc. reflexivity.
      * reflexivity.
    + unfold int. destruct (py_int (c0 :: t0)) as [n|].
      * rewrite bind_ret, bind_log. unfold ret.
        eexists. split.
        -- unfold add_events. cbn [files events api_calls].
           rewrite <- !app_assoc. reflexivity.
        -- reflexivity.
      * unfold bind at 1, raise. rewrite bind_log. unfold ret.
        eexists. split.
        -- unfold add_events. cbn [files events api_calls].
           rewrite <- !app_assoc. reflexivity.
        -- reflexivity.
  - rewrite bind_log. unfold ret.
    eexists. split.
    + unfold add_events. cbn [files events api_calls].
      rewrite <- !app_assoc. reflexivity.
    + reflexivity.
Qed.

(** ** [int(str(n)) = n] *)

Lemma chars_of_uint_digits d : forallb digit_char (chars_of_uint d) = true.
Proof. induction d; cbn [chars_of_uint forallb]; try rewrite IHd; reflexivity. Qed.

Lemma scan_digits_chars d prev :
  prev <> 0x5F%N -> scan_digits prev (chars_of_uint d) = Some (d, []).
Proof.
  revert prev. induction d; intros prev Hp; cbn [chars_of_uint scan_digits];
    try (cbn [N.eqb Pos.eqb digit_of_char];
         rewrite IHd by (intros [=]); reflexivity).
  apply N.eqb_neq in Hp. rewrite Hp. reflexivity.
Qed.

Lemma digit_char_facts c :
  digit_char c = true ->
  (c <? 127)%N = true /\ c_isspace c = false /\ isspace c = false
  /\ (c =? 0x2B)%N = false /\ (c =? 0x2D)%N = false /\ (c =? 0x5F)%N = false.
Proof.
  unfold digit_char. intros H. bool_to_prop.
  repeat split.
  - apply N.ltb_lt. lia.
  - destruct (c_isspace c) eqn:E; [|reflexivity].
    unfold c_isspace in E. bool_to_prop; lia.
  - destruct (isspace c) eqn:E; [|reflexivity].
    apply isspace_range in E. lia.
  - apply N.eqb_neq. lia.
  - apply N.eqb_neq. lia.
  - apply N.eqb_neq. lia.
Qed.

Lemma to_ascii_decimal_digits s :
  forallb digit_char s = true -> List.map to_ascii_decimal s = s.
Proof.
  induction s as [|c t IH]; cbn [forallb List.map]; [reflexivity|].
  intros H. apply andb_true_iff in H as [Hc Ht].
  rewrite (IH Ht). unfold to_ascii_decimal.
  destruct (digit_char_facts c Hc) as (-> & _). reflexivity.
Qed.

Lemma py_int_digits d :
  d <> Decimal.Nil ->
  py_int (chars_of_uint d)
  = (if (INT_MAX_STR_DIGITS <? N.of_nat (Decimal.nb_digits d))%N then None
     else Some (Z.of_uint d))
  /\ py_int (0x2D%N :: chars_of_uint d)
     = (if (INT_MAX_STR_DIGITS <? N.of_nat (Decimal.nb_digits d))%N then None
        else Some (- Z.of_uint d)).
Proof.
  intros Hd.
  pose proof (chars_of_uint_digits d) as Hall.
  pose proof (scan_digits_chars d 0%N ltac:(intros [=])) as Hscan.
  unfold py_int. cbn [List.map].
  rewrite (to_ascii_decimal_digits _ Hall).
  change (to_ascii_decimal 0x2D) with 0x2D%N.
  destruct (chars_of_uint d) as [|c t] eqn:Ec.
  { destruct d; cbn in Ec; congruence. }
  cbn [forallb] in Hall. apply andb_true_iff in Hall as [Hc _].
  destruct (digit_char_facts c Hc) as (_ & Hsp & _ & Hplus & Hminus & Hus).
  cbn [skip_spaces]. change (c_isspace 0x2D) with false. cbv iota.
  rewrite Hsp, Hplus, Hminus. cbn [N.eqb Pos.eqb]. rewrite Hus, Hscan.
  destruct d; [congruence | split; reflexivity ..].
Qed.

(** *** Numerals and their number of digits *)

Lemma usize_nb_digits d :
  DecimalPos.Unsigned.usize d = N.of_nat (Decimal.nb_digits d).
Proof.
  induction d; cbn [DecimalPos.Unsigned.usize Decimal.nb_digits];
    rewrite ?IHd; lia.
Qed.

Lemma of_lu_lt d :
  (DecimalPos.Unsigned.of_lu d < 10 ^ DecimalPos.Unsigned.usize d)%N.
Proof.
  induction d; cbn [DecimalPos.Unsigned.of_lu DecimalPos.Unsigned.usize];
    rewrite ?N.pow_succ_r'; lia.
Qed.

(** A numeral of [k] digits denotes a number below [10 ^ k]. *)
Lemma of_uint_lt d :
  0 <= Z.of_uint d < 10 ^ Z.of_N (N.of_nat (Decimal.nb_digits d)).
Proof.
  split; [unfold Z.of_uint; lia|].
  unfold Z.of_uint. rewrite DecimalPos.Unsigned.of_uint_alt.
  pose proof (of_lu_lt (Decimal.rev d)) as H.
  rewrite usize_nb_digits, DecimalFacts.nb_digits_rev in H.
  apply N2Z.inj_lt in H. rewrite N2Z.inj_pow in H. exact H.
Qed.

Lemma to_uint_head p :
  exists d,
    Decimal.nb_digits (Pos.to_uint p) = S (Decimal.nb_digits d)
    /\ 10 ^ Z.of_N (N.of_nat (Decimal.nb_digits d)) <= Zpos p.
Proof.
  pose proof (DecimalPos.Unsigned.of_to p) as Hof.
  pose proof (DecimalPos.Unsigned.to_of (Pos.to_uint p)) as Hto.
  rewrite Hof in Hto. cbn [N.to_uint] in Hto.
  pose proof (DecimalPos.Unsigned.to_uint_nonzero p) as Hnz.
  pose proof (DecimalPos.Unsigned.to_uint_nonnil p) as Hnn.
  assert (Hhead : Decimal.nzhead (Pos.to_uint p) = Pos.to_uint p).
  { unfold Decimal.unorm in Hto.
    destruct (Decimal.nzhead (Pos.to_uint p)); congruence. }
  destruct (Pos.to_uint p) as [|d|d|d|d|d|d|d|d|d|d] eqn:E; [congruence| ..].
  { exfalso. cbn [Decimal.nzhead] in Hhead.
    pose proof (DecimalFacts.nb_digits_nzhead d) as Hle.
    rewrite Hhead in Hle. cbn [Decimal.nb_digits] in Hle. lia. }
  all: exists d; split; [reflexivity|];
    cbn [Pos.of_uint] in Hof;
    rewrite DecimalPos.Unsigned.of_uint_acc_rev, usize_nb_digits in Hof;
    apply (f_equal Z.of_N) in Hof;
    rewrite N2Z.inj_add, N2Z.inj_mul, N2Z.inj_pow in Hof;
    cbn [Z.of_N] in Hof;
    pose proof (N2Z.is_nonneg (DecimalPos.Unsigned.of_lu (Decimal.rev d)));
    assert (0 < 10 ^ Z.of_N (N.of_nat (Decimal.nb_digits d)))
      by (apply Z.pow_pos_nonneg; lia);
    nia.
Qed.

(** The numeral of a positive number below [10 ^ k] has at most [k]
    digits. *)
Lemma to_uint_digits p k :
  Zpos p < 10 ^ Z.of_N k -> (N.of_nat (Decimal.nb_digits (Pos.to_uint p)) <= k)%N.
Proof.
  intros H. destruct (to_uint_head p) as (d & -> & Hd).
  assert (Hlt : 10 ^ Z.of_N (N.of_nat (Decimal.nb_digits d)) < 10 ^ Z.of_N k)
    by lia.
  apply Z.pow_lt_mono_r_iff in Hlt; lia.
Qed.

Lemma int_bound_pos : 0 < int_bound.
Proof. unfold int_bound. apply Z.pow_pos_nonneg; [lia | apply N2Z.is_nonneg]. Qed.

(** What [int] reads has at most [INT_MAX_STR_DIGITS] digits. *)
Lemma py_int_bound s n : py_int s = Some n -> - int_bound < n < int_bound.
Proof.
  assert (Hbody : forall (negative : bool) b,
             match b with
             | c :: _ =>
                 if (c =? 0x5F)%N then None
                 else
                   match scan_digits 0%N b with
                   | Some (Decimal.Nil, _) => None
                   | Some (ds, rest) =>
                       if (INT_MAX_STR_DIGITS <? N.of_nat (Decimal.nb_digits ds))%N
                       then None
                       else
                         match skip_spaces rest with
                         | [] =>
                             Some (if negative then - Z.of_uint ds
                                   else Z.of_uint ds)
                         | _ :: _ => None
                         end
                   | None => None
                   end
             | [] => None
             end = Some n ->
             - int_bound < n < int_bound).
  { intros negative b H. destruct b as [|c t]; [discriminate|].
    destruct (c =? 0x5F)%N; [discriminate|].
    destruct (scan_digits 0%N (c :: t)) as [[ds rest]|]; [|discriminate].
    assert (Hds : (if (INT_MAX_STR_DIGITS <? N.of_nat (Decimal.nb_digits ds))%N
                   then None
                   else
                     match skip_spaces rest with
                     | [] =>
                         Some (if negative then - Z.of_uint ds
                               else Z.of_uint ds)
                     | _ :: _ => None
                     end) = Some n)
      by (destruct ds; [discriminate | exact H ..]).
    clear H.
    destruct (N.ltb_spec INT_MAX_STR_DIGITS (N.of_nat (Decimal.nb_digits ds)))
      as [|Hle]; [discriminate|].
    destruct (skip_spaces rest); [|discriminate].
    injection Hds as <-.
    pose proof (of_uint_lt ds) as Hlt.
    assert (Hpow : 10 ^ Z.of_N (N.of_nat (Decimal.nb_digits ds)) <= int_bound).
    { unfold int_bound. apply Z.pow_le_mono_r; lia. }
    destruct negative; lia. }
  unfold py_int.
  destruct (skip_spaces (List.map to_ascii_decimal s)) as [|c t];
    [discriminate|].
  destruct (c =? 0x2B)%N; [exact (Hbody false t)|].
  destruct (c =? 0x2D)%N; [exact (Hbody true t) | exact (Hbody false (c :: t))].
Qed.

Lemma to_int_nonnil n :
  match Z.to_int n with Decimal.Pos d | Decimal.Neg d => d <> Decimal.Nil end.
Proof.
  destruct n; cbn [Z.to_int]; try apply DecimalPos.Unsigned.to_uint_nonnil.
  intros [=].
Qed.

(** [int] undoes [str] on a numeral of at most [INT_MAX_STR_DIGITS] digits
    and refuses a longer one. *)
Lemma py_int_py_str_cases n :
  py_int (py_str n) = Some n \/ py_int (py_str n) = None.
Proof.
  unfold py_str. pose proof (to_int_nonnil n) as Hn.
  pose proof (DecimalZ.of_to n) as Hz.
  destruct (Z.to_int n) as [d|d]; cbn [Z.of_int] in Hz;
    destruct (py_int_digits d Hn) as [Hp Hm];
    destruct (INT_MAX_STR_DIGITS <? N.of_nat (Decimal.nb_digits d))%N;
    auto; left; congruence.
Qed.

Lemma py_int_py_str n :
  - int_bound < n < int_bound -> py_int (py_str n) = Some n.
Proof.
  intros Hb. unfold py_str. pose proof (to_int_nonnil n) as Hn.
  pose proof (DecimalZ.of_to n) as Hz.
  assert (Hd : forall p, Zpos p < int_bound ->
               (INT_MAX_STR_DIGITS <? N.of_nat (Decimal.nb_digits (Pos.to_uint p)))%N
               = false).
  { intros p Hp. apply N.ltb_ge. apply to_uint_digits. exact Hp. }
  destruct n as [|p|p]; cbn [Z.to_int] in *.
  - reflexivity.
  - destruct (py_int_digits _ Hn) as [Hp _]. rewrite Hp, Hd by lia.
    cbn [Z.of_int] in Hz. congruence.
  - destruct (py_int_digits _ Hn) as [_ Hm]. rewrite Hm, Hd by lia.
    cbn [Z.of_int] in Hz. congruence.
Qed.

Lemma py_str_no_space n : forallb (fun c => negb (isspace c)) (py_str n) = true.
Proof.
  assert (H : forall d, forallb (fun c => negb (isspace c)) (chars_of_uint d) = true).
  { intros d. pose proof (chars_of_uint_digits d) as Hd.
    induction (chars_of_uint d) as [|c t IH]; [reflexivity|].
    cbn [forallb] in *. apply andb_true_iff in Hd as [Hc Ht].
    destruct (digit_char_facts c Hc) as (_ & _ & -> & _). exact (IH Ht). }
  unfold py_str. destruct (Z.to_int n); [apply H|].
  cbn [forallb]. rewrite H. reflexivity.
Qed.

Lemma lstrip_id s :
  forallb (fun c => negb (isspace c)) s = true -> lstrip s = s.
Proof.
  destruct s as [|c t]; [reflexivity|]. cbn [forallb lstrip].
  intros H. apply andb_true_iff in H as [Hc _].
  destruct (isspace c); [discriminate | reflexivity].
Qed.

Lemma strip_id s :
  forallb (fun c => negb (isspace c)) s = true -> strip s = s.
Proof.
  intros H. unfold strip, rstrip. rewrite (lstrip_id s H).
  rewrite lstrip_id; [apply rev_involutive|].
  apply forallb_forall. intros c Hc. apply in_rev in Hc.
  exact (proj1 (forallb_forall _ _) H c Hc).
Qed.

(** A cursor written by one run is the cursor the next run reads. *)
Lemma cursor_of_py_str n :
  - int_bound < n < int_bound -> cursor_of (Some (py_str n)) = n.
Proof.
  intros Hb. unfold cursor_of.
  rewrite (strip_id _ (py_str_no_space n)), (py_int_py_str n Hb).
  reflexivity.
Qed.

Lemma cursor_of_py_str_cases n :
  cursor_of (Some (py_str n)) = n \/ cursor_of (Some (py_str n)) = 0.
Proof.
  unfold cursor_of. rewrite (strip_id _ (py_str_no_space n)).
  destruct (py_int_py_str_cases n) as [-> | ->]; auto.
Qed.

Lemma cursor_of_bound file : - int_bound < cursor_of file < int_bound.
Proof.
  pose proof int_bound_pos. unfold cursor_of.
  destruct file as [content|]; [|lia].
  destruct (py_int (strip content)) as [n|] eqn:E; [|lia].
  exact (py_int_bound _ _ E).
Qed.

(** A text of ASCII digits is the numeral of its digits. *)
Lemma digits_chars_of_uint l :
  forallb digit_char l = true ->
  exists d, l = chars_of_uint d /\ Decimal.nb_digits d = length l.
Proof.
  induction l as [|c t IH]; intros H.
  - exists Decimal.Nil. split; reflexivity.
  - cbn [forallb] in H. apply andb_true_iff in H as [Hc Ht].
    destruct (IH Ht) as (d & -> & Hd).
    unfold digit_char in Hc. apply andb_true_iff in Hc as [Hlo Hhi].
    apply N.leb_le in Hlo, Hhi.
    assert (Hcases : (c = 0x30 \/ c = 0x31 \/ c = 0x32 \/ c = 0x33
                      \/ c = 0x34 \/ c = 0x35 \/ c = 0x36 \/ c = 0x37
                      \/ c = 0x38 \/ c = 0x39)%N) by lia.
    destruct Hcases as [->|[->|[->|[->|[->|[->|[->|[->|[->| ->]]]]]]]]].
    + exists (Decimal.D0 d). cbn. rewrite Hd. split; reflexivity.
    + exists (Decimal.D1 d). cbn. rewrite Hd. split; reflexivity.
    + exists (Decimal.D2 d). cbn. rewrite Hd. split; reflexivity.
    + exists (Decimal.D3 d). cbn. rewrite Hd. split; reflexivity.
    + exists (Decimal.D4 d). cbn. rewrite Hd. split; reflexivity.
    + exists (Decimal.D5 d). cbn. rewrite Hd. split; reflexivity.
    + exists (Decimal.D6 d). cbn. rewrite Hd. split; reflexivity.
    + exists (Decimal.D7 d). cbn. rewrite Hd. split; reflexivity.
    + exists (Decimal.D8 d). cbn. rewrite Hd. split; reflexivity.
    + exists (Decimal.D9 d). cbn. rewrite Hd. split; reflexivity.
Qed.

(** [int] refuses a numeral of more than [INT_MAX_STR_DIGITS] digits, with
    or without a minus sign. *)
Lemma py_int_long l :
  forallb digit_char l = true ->
  (INT_MAX_STR_DIGITS < N.of_nat (length l))%N ->
  py_int l = None /\ py_int (0x2D%N :: l) = None.
Proof.
  intros Hl Hlen. destruct (digits_chars_of_uint l Hl) as (d & -> & Hd).
  rewrite <- Hd in Hlen.
  assert (Hn : d <> Decimal.Nil).
  { intros ->. cbn in Hlen. unfold INT_MAX_STR_DIGITS in Hlen. lia. }
  destruct (py_int_digits d Hn) as [Hp Hm]. rewrite Hp, Hm.
  apply N.ltb_lt in Hlen. rewrite Hlen. split; reflexivity.
Qed.

(** ** The sending loops *)

Lemma after_after w a n b m :
  after (after w a n) b m = after w (a ++ b) (m + n).
Proof.
  unfold after. cbn [files events api_calls].
  rewrite <- app_assoc, Nat.add_assoc. reflexivity.
Qed.

Section Loops.

Variable api : nat -> option str.
Variables start_index total_questions : Z.

Lemma failures_app k a b :
  failures api k (a ++ b) = failures api k a ++ failures api (length a + k) b.
Proof.
  revert k. induction a as [|[chat iq] t IH]; intros k; [reflexivity|].
  cbn [app failures length]. rewrite IH, <- app_assoc.
  replace (length t + S k)%nat with (S (length t) + k)%nat by lia.
  reflexivity.
Qed.

Lemma send_quiz_run chat_id iq w :
  send_quiz api start_index total_questions chat_id iq w
  = (Ok tt,
     after w (quiz_event start_index total_questions chat_id iq
              :: match api (api_calls w) with
                 | Some msg => [poll_failure chat_id (snd iq) msg]
                 | None => []
                 end) 1).
Proof.
  destruct iq as [i q]. unfold send_quiz, try_except, api_call, after.
  cbn [fst snd]. destruct (api (api_calls w)) as [msg|].
  - unfold log, emit. cbn [files events api_calls exn_str].
    rewrite <- app_assoc. reflexivity.
  - reflexivity.
Qed.

Lemma quiz_loop_run chat_id iqs w :
  exists evs,
    for_each iqs (send_quiz api start_index total_questions chat_id) w
    = (Ok tt, after w evs (length iqs))
    /\ List.filter is_api evs
       = List.map (quiz_event start_index total_questions chat_id) iqs
    /\ List.filter is_error evs
       = failures api (api_calls w) (List.map (pair chat_id) iqs)
    /\ List.filter is_write evs = [].
Proof.
  revert w. induction iqs as [|iq t IH]; intros w.
  - exists []. unfold after. cbn. rewrite app_nil_r. destruct w. auto.
  - cbn [for_each]. unfold bind. rewrite send_quiz_run.
    match goal with
    | |- context [after w ?e 1] =>
        destruct (IH (after w e 1)) as (e2 & Hrun & Hapi & Herr & Hwr);
        exists (e ++ e2)
    end.
    rewrite Hrun, after_after, Nat.add_1_r.
    split; [reflexivity|].
    rewrite !List.filter_app, Hapi, Herr, Hwr.
    cbn [api_calls after] in *. cbn [List.map failures snd].
    destruct (api (api_calls w)); cbn; auto.
Qed.

Lemma chat_loop_run (body_log : str -> str) chats iqs w :
  exists evs,
    for_each chats
      (fun chat_id =>
         log INFO (body_log chat_id);;
         for_each iqs (send_quiz api start_index total_questions chat_id)) w
    = (Ok tt, after w evs (length chats * length iqs))
    /\ List.filter is_api evs
       = flat_map
           (fun chat_id =>
              List.map (quiz_event start_index total_questions chat_id) iqs)
           chats
    /\ List.filter is_error evs
       = failures api (api_calls w)
                  (flat_map (fun chat_id => List.map (pair chat_id) iqs) chats)
    /\ List.filter is_write evs = [].
Proof.
  revert w. induction chats as [|chat t IH]; intros w.
  - exists []. unfold after. cbn. rewrite app_nil_r. destruct w. auto.
  - cbn [for_each]. unfold bind at 1. rewrite bind_log.
    destruct (quiz_loop_run chat iqs (add_events w [Log INFO (body_log chat)]))
      as (e1 & H1 & A1 & E1 & W1).
    rewrite H1.
    destruct (IH (after (add_events w [Log INFO (body_log chat)]) e1 (length iqs)))
      as (e2 & H2 & A2 & E2 & W2).
    rewrite H2. exists ((Log INFO (body_log chat) :: e1) ++ e2).
    split.
    { unfold after, add_events. cbn [files events api_calls length Nat.mul].
      rewrite <- !app_assoc. cbn [app].
      replace (length t * length iqs + (length iqs + api_calls w))%nat
        with (length iqs + length t * length iqs + api_calls w)%nat by lia.
      reflexivity. }
    rewrite !List.filter_app. cbn [List.filter is_api is_error is_write flat_map].
    rewrite A1, A2, E1, E2, W1, W2, failures_app, length_map.
    cbn [api_calls after add_events]. auto.
Qed.

End Loops.

(** ** Runs of [main] *)

Lemma length_pairs {A B} (xs : list A) (ys : list B) :
  length (flat_map (fun x => List.map (pair x) ys) xs)
  = (length xs * length ys)%nat.
Proof.
  induction xs as [|x t IH]; [reflexivity|].
  cbn [flat_map length Nat.mul]. rewrite length_app, length_map, IH. reflexivity.
Qed.

Lemma map_pairs {A B C} (f : A -> B -> C) (xs : list A) (ys : list B) :
  List.map (fun s => f (fst s) (snd s))
           (flat_map (fun x => List.map (pair x) ys) xs)
  = flat_map (fun x => List.map (f x) ys) xs.
Proof.
  induction xs as [|x t IH]; [reflexivity|].
  cbn [flat_map]. rewrite List.map_app, List.map_map, IH. reflexivity.
Qed.

Section Runs.

Variable api : nat -> option str.

Lemma send_completion_run chat_id w :
  exists evs,
    send_completion api chat_id w = (Ok tt, after w evs 1)
    /\ List.filter is_api evs = [SendMessage chat_id COMPLETION_TEXT]
    /\ List.filter is_write evs = [].
Proof.
  unfold send_completion, try_except, api_call, after.
  destruct (api (api_calls w)) as [msg|].
  - eexists. unfold log, emit. cbn [files events api_calls].
    rewrite <- app_assoc. split; [reflexivity|]. split; reflexivity.
  - eexists. split; [reflexivity|]. split; reflexivity.
Qed.

Lemma completion_loop_run chats w :
  exists evs,
    for_each chats (send_completion api) w = (Ok tt, after w evs (length chats))
    /\ List.filter is_api evs
       = List.map (fun chat_id => SendMessage chat_id COMPLETION_TEXT) chats
    /\ List.filter is_write evs = [].
Proof.
  revert w. induction chats as [|chat t IH]; intros w.
  - exists []. unfold after. cbn. rewrite app_nil_r. destruct w. auto.
  - cbn [for_each]. unfold bind.
    destruct (send_completion_run chat w) as (e1 & H1 & A1 & W1). rewrite H1.
    destruct (IH (after w e1 1)) as (e2 & H2 & A2 & W2). rewrite H2.
    exists (e1 ++ e2). rewrite after_after, Nat.add_1_r.
    split; [reflexivity|].
    rewrite !List.filter_app, A1, A2, W1, W2. split; reflexivity.
Qed.

Lemma benign_filters evs :
  forallb benign evs = true ->
  List.filter is_api evs = [] /\ List.filter is_error evs = []
  /\ List.filter is_write evs = [].
Proof.
  induction evs as [|e t IH]; cbn [forallb List.filter]; [auto|].
  intros H. apply andb_true_iff in H as [He Ht]. specialize (IH Ht).
  destruct e as [[] msg| | | |]; try discriminate; cbn; exact IH.
Qed.

(** A run that finds a batch to send. *)
Lemma main_batch_run tok w content :
  truthy tok = true ->
  files w !! QUESTIONS_FILE = Some content ->
  let qs := parse_text content in
  let c := cursor_of (files w !! PROGRESS_FILE) in
  let e := batch_end c (len qs) in
  let batch := py_slice qs c e in
  c < len qs ->
  exists evs,
    main api (Some tok) w
    = (Ok tt,
       World (<[PROGRESS_FILE := py_str e]> (files w)) (events w ++ evs)
             (length (sends batch) + api_calls w))
    /\ List.filter is_api evs
       = List.map (fun s => quiz_event c (len qs) (fst s) (snd s)) (sends batch)
    /\ List.filter is_error evs = failures api (api_calls w) (sends batch)
    /\ List.filter is_write evs = [FileWrite PROGRESS_FILE (py_str e)].
Proof.
  intros Htok Hq qs c e batch Hc. unfold main. rewrite Htok. cbn [negb].
  rewrite bind_log. unfold bind at 1.
  destruct (parse_mcqs_run QUESTIONS_FILE content
              (add_events w [Log INFO (lit "Bot initialized.")]) Hq)
    as (e1 & H1 & B1).
  rewrite H1. fold qs. unfold bind at 1.
  match goal with
  | |- context [read_progress ?w1] =>
      destruct (read_progress_run w1) as (e2 & H2 & B2)
  end.
  cbn [add_events files] in H2. rewrite H2. fold c.
  assert (Hge : (len qs <=? c) = false) by (apply Z.leb_gt; exact Hc).
  rewrite Hge. fold (batch_end c (len qs)). fold e. fold batch.
  rewrite bind_log. unfold bind at 1.
  match goal with
  | |- context [for_each CHAT_IDS ?body ?w2] =>
      destruct (chat_loop_run api c (len qs)
                  (fun chat_id => lit "Sending " ++ py_str (len batch)
                                  ++ lit " polls to chat ID: " ++ chat_id)
                  CHAT_IDS (enumerate batch) w2)
        as (e3 & H3 & A3 & E3 & W3)
  end.
  rewrite H3. rewrite bind_log. unfold bind at 1, write_file, log, emit.
  destruct (benign_filters _ B1) as (A1 & E1 & W1).
  destruct (benign_filters _ B2) as (A2 & E2 & W2).
  eexists. split.
  { unfold after, add_events. cbn [files events api_calls Nat.add].
    rewrite <- !app_assoc. cbn [app]. unfold sends. rewrite length_pairs.
    reflexivity. }
  cbn [api_calls add_events after Nat.add] in E3.
  repeat first [ rewrite List.filter_app
               | progress cbn [List.filter is_api is_error is_write app] ].
  rewrite A1, A2, A3, E1, E2, E3, W1, W2, W3. cbn [app].
  rewrite ?app_nil_r. unfold sends. rewrite map_pairs.
  split; [|split]; reflexivity.
Qed.

(** A run that finds every question sent. *)
Lemma main_done_run tok w content :
  truthy tok = true ->
  files w !! QUESTIONS_FILE = Some content ->
  len (parse_text content) <= cursor_of (files w !! PROGRESS_FILE) ->
  exists evs,
    main api (Some tok) w = (Ok tt, after w evs (length CHAT_IDS))
    /\ List.filter is_api evs
       = List.map (fun chat_id => SendMessage chat_id COMPLETION_TEXT) CHAT_IDS
    /\ List.filter is_write evs = [].
Proof.
  intros Htok Hq Hc. unfold main. rewrite Htok. cbn [negb].
  rewrite bind_log. unfold bind at 1.
  destruct (parse_mcqs_run QUESTIONS_FILE content
              (add_events w [Log INFO (lit "Bot initialized.")]) Hq)
    as (e1 & H1 & B1).
  rewrite H1. unfold bind at 1.
  match goal with
  | |- context [read_progress ?w1] =>
      destruct (read_progress_run w1) as (e2 & H2 & B2)
  end.
  cbn [add_events files] in H2. rewrite H2.
  apply Z.leb_le in Hc. rewrite Hc. rewrite bind_log.
  match goal with
  | |- context [for_each CHAT_IDS _ ?w2] =>
      destruct (completion_loop_run CHAT_IDS w2) as (e3 & H3 & A3 & W3)
  end.
  rewrite H3.
  destruct (benign_filters _ B1) as (A1 & E1 & W1).
  destruct (benign_filters _ B2) as (A2 & E2 & W2).
  eexists. split.
  { unfold after, add_events. cbn [files events api_calls Nat.add].
    rewrite <- !app_assoc. cbn [app]. reflexivity. }
  repeat first [ rewrite List.filter_app
               | progress cbn [List.filter is_api is_write app] ].
  rewrite A1, A2, A3, W1, W2, W3. cbn [app]. rewrite ?app_nil_r.
  split; reflexivity.
Qed.

End Runs.

(** ** What a run did *)

Lemma new_events_app w w' evs :
  events w' = events w ++ evs -> new_events w w' = evs.
Proof.
  intros H. unfold new_events. rewrite H, skipn_app, Nat.sub_diag.
  rewrite skipn_all2 by reflexivity. reflexivity.
Qed.

Lemma enumerate_from_map {A B} (g : Z * A -> B) (d : A) (l : list A) (j : Z) :
  List.map g (enumerate_from j l)
  = List.map (fun k => g (j + Z.of_nat k, nth k l d)) (seq 0 (length l)).
Proof.
  revert j. induction l as [|x t IH]; intros j; [reflexivity|].
  cbn [enumerate_from List.map length seq nth]. f_equal.
  - f_equal. f_equal. lia.
  - rewrite IH, <- seq_shift, List.map_map. apply map_ext. intros k.
    cbn [nth]. f_equal. f_equal. lia.
Qed.

Lemma py_slice_window {A} (l : list A) (c e : Z) :
  0 <= c <= e -> e <= len l ->
  py_slice l c e = firstn (Z.to_nat (e - c)) (skipn (Z.to_nat c) l).
Proof.
  intros Hc He. unfold py_slice, slice_bound.
  destruct (Z.ltb_spec c 0); [lia|]. destruct (Z.ltb_spec e 0); [lia|].
  rewrite !Z.min_l by lia. reflexivity.
Qed.

(** In range, the batch is the window of indices from the cursor. *)
Lemma batch_quizzes qs c chat_id :
  0 <= c < len qs ->
  List.map (quiz_event c (len qs) chat_id)
           (enumerate (py_slice qs c (batch_end c (len qs))))
  = List.map (quiz_of qs chat_id) (indices c (batch_end c (len qs))).
Proof.
  intros Hc. unfold batch_end, QUESTIONS_PER_DAY.
  set (e := Z.min (c + 20) (len qs)).
  assert (He : c <= e <= len qs) by (subst e; lia).
  rewrite py_slice_window by lia.
  unfold enumerate, indices.
  rewrite (enumerate_from_map _ no_question), List.map_map.
  assert (Hlen : length (firstn (Z.to_nat (e - c)) (skipn (Z.to_nat c) qs))
                 = Z.to_nat (e - c)).
  { rewrite length_firstn, length_skipn. unfold len in *. lia. }
  rewrite Hlen. apply map_ext_in. intros k Hk. apply in_seq in Hk.
  unfold quiz_event, quiz_of. cbn [fst snd].
  rewrite nth_firstn. destruct (Nat.ltb_spec k (Z.to_nat (e - c))); [|lia].
  rewrite nth_skipn.
  replace (Z.to_nat (c + Z.of_nat k)) with (Z.to_nat c + k)%nat by lia.
  replace (c + (0 + Z.of_nat k) + 1) with (c + Z.of_nat k + 1) by lia.
  reflexivity.
Qed.

Lemma progress_not_questions : PROGRESS_FILE <> QUESTIONS_FILE.
Proof. intros [=]. Qed.

(** * The claims *)

(** C1. A run that starts from a cursor [c] with [0 <= c < total] sends to
    every recipient exactly the questions of indices [c] to
    [min (c+20) total - 1], in order, and leaves the decimal numeral of
    [min (c+20) total] in the cursor file. In particular a cursor file
    holding [40] and 90 parsed questions give the questions 40 to 59 and a
    cursor file holding [60]. *)
Theorem batch_window :
  (forall api tok w content,
      truthy tok = true ->
      files w !! QUESTIONS_FILE = Some content ->
      0 <= persisted_cursor w < len (parse_text content) ->
      exists w',
        main api (Some tok) w = (Ok tt, w')
        /\ List.filter is_api (new_events w w')
           = flat_map
               (fun chat_id =>
                  List.map (quiz_of (parse_text content) chat_id)
                    (indices (persisted_cursor w)
                       (Z.min (persisted_cursor w + 20)
                              (len (parse_text content)))))
               CHAT_IDS
        /\ files w' !! PROGRESS_FILE
           = Some (py_str (Z.min (persisted_cursor w + 20)
                                 (len (parse_text content)))))
  /\ (forall api tok w content,
         truthy tok = true ->
         files w !! QUESTIONS_FILE = Some content ->
         len (parse_text content) = 90 ->
         files w !! PROGRESS_FILE = Some (lit "40") ->
         exists w',
           main api (Some tok) w = (Ok tt, w')
           /\ List.filter is_api (new_events w w')
              = flat_map
                  (fun chat_id =>
                     List.map (quiz_of (parse_text content) chat_id)
                              (indices 40 60))
                  CHAT_IDS
           /\ files w' !! PROGRESS_FILE = Some (lit "60")).
Proof.
  assert (General : forall api tok w content,
      truthy tok = true ->
      files w !! QUESTIONS_FILE = Some content ->
      0 <= persisted_cursor w < len (parse_text content) ->
      exists w',
        main api (Some tok) w = (Ok tt, w')
        /\ List.filter is_api (new_events w w')
           = flat_map
               (fun chat_id =>
                  List.map (quiz_of (parse_text content) chat_id)
                    (indices (persisted_cursor w)
                       (Z.min (persisted_cursor w + 20)
                              (len (parse_text content)))))
               CHAT_IDS
        /\ files w' !! PROGRESS_FILE
           = Some (py_str (Z.min (persisted_cursor w + 20)
                                 (len (parse_text content))))).
  { intros api tok w content Htok Hq Hc. unfold persisted_cursor in *.
    destruct (main_batch_run api tok w content Htok Hq (proj2 Hc))
      as (evs & Hrun & Hapi & _ & _).
    eexists. split; [exact Hrun|]. split.
    - rewrite (new_events_app _ _ evs) by reflexivity.
      rewrite Hapi. unfold sends. rewrite map_pairs.
      cbn [fst snd]. apply flat_map_ext. intros chat.
      apply (batch_quizzes _ _ chat Hc).
    - cbn [files]. apply lookup_insert_eq. }
  split; [exact General|].
  intros api tok w content Htok Hq Htotal Hp.
  assert (Hcur : persisted_cursor w = 40)
    by (unfold persisted_cursor; rewrite Hp; reflexivity).
  destruct (General api tok w content Htok Hq) as (w' & Hrun & Hapi & Hfile);
    [lia|].
  exists w'. rewrite Hcur, Htotal in Hapi, Hfile. auto.
Qed.

(** C2. Whatever sends raise, a run with a batch returns normally, has
    attempted every send of the batch (each question of the batch to each
    recipient), has logged one error record for each send that raised,
    naming its recipient and its question, and has written the end index
    [min (cursor+20) total] of the batch to the cursor file. *)
Theorem send_failures_are_contained :
  forall api tok w content,
    truthy tok = true ->
    files w !! QUESTIONS_FILE = Some content ->
    persisted_cursor w < len (parse_text content) ->
    let qs := parse_text content in
    let c := persisted_cursor w in
    let batch := py_slice qs c (Z.min (c + 20) (len qs)) in
    exists w',
      main api (Some tok) w = (Ok tt, w')
      /\ List.filter is_api (new_events w w')
         = List.map (fun s => quiz_event c (len qs) (fst s) (snd s))
                    (sends batch)
      /\ List.filter is_error (new_events w w')
         = failures api (api_calls w) (sends batch)
      /\ files w' = <[PROGRESS_FILE := py_str (Z.min (c + 20) (len qs))]> (files w).
Proof.
  intros api tok w content Htok Hq Hc qs c batch.
  destruct (main_batch_run api tok w content Htok Hq Hc)
    as (evs & Hrun & Hapi & Herr & _).
  eexists. split; [exact Hrun|].
  rewrite (new_events_app _ _ evs) by reflexivity.
  split; [exact Hapi|]. split; [exact Herr | reflexivity].
Qed.

(** C4. A run that starts from a cursor at or beyond the number of
    questions sends no quiz, sends the completion text once to each
    recipient, and writes no file: the files are as they were. *)
Theorem completed_run_leaves_cursor :
  forall api tok w content,
    truthy tok = true ->
    files w !! QUESTIONS_FILE = Some content ->
    len (parse_text content) <= persisted_cursor w ->
    exists w',
      main api (Some tok) w = (Ok tt, w')
      /\ List.filter is_poll (new_events w w') = []
      /\ List.filter is_api (new_events w w')
         = List.map (fun chat_id => SendMessage chat_id COMPLETION_TEXT) CHAT_IDS
      /\ List.filter is_write (new_events w w') = []
      /\ files w' = files w.
Proof.
  intros api tok w content Htok Hq Hc.
  destruct (main_done_run api tok w content Htok Hq Hc)
    as (evs & Hrun & Hapi & Hwr).
  eexists. split; [exact Hrun|].
  rewrite (new_events_app _ _ evs) by reflexivity.
  split; [|split; [exact Hapi | split; [exact Hwr | reflexivity]]].
  assert (Hpoll : List.filter is_poll evs
                  = List.filter is_poll (List.filter is_api evs)).
  { clear. induction evs as [|e t IH]; [reflexivity|].
    destruct e; cbn [List.filter is_api is_poll]; rewrite IH; reflexivity. }
  rewrite Hpoll, Hapi. reflexivity.
Qed.

(** C7. Without a token (the variable unset or empty) a run logs one
    error record and returns: it reads no file, writes no file and makes
    no API call. *)
Theorem missing_token_aborts :
  forall api w,
    main api None w
    = (Ok tt,
       World (files w)
             (events w
              ++ [Log ERROR
                    (lit "TELEGRAM_BOT_TOKEN environment variable not set!")])
             (api_calls w))
    /\ main api (Some []) w = main api None w.
Proof. intros api w. split; reflexivity. Qed.

Lemma run_keeps_range api tok w content :
  truthy tok = true ->
  files w !! QUESTIONS_FILE = Some content ->
  0 <= persisted_cursor w <= len (parse_text content) ->
  let w' := snd (main api (Some tok) w) in
  files w' !! QUESTIONS_FILE = Some content
  /\ 0 <= persisted_cursor w' <= len (parse_text content).
Proof.
  intros Htok Hq Hc.
  destruct (Z.lt_ge_cases (persisted_cursor w) (len (parse_text content)))
    as [Hlt|Hge].
  - destruct (main_batch_run api tok w content Htok Hq Hlt)
      as (evs & Hrun & _).
    rewrite Hrun. cbn [snd]. unfold persisted_cursor at 1 2. cbn [files].
    rewrite lookup_insert_ne by exact progress_not_questions.
    rewrite lookup_insert_eq. split; [exact Hq|].
    fold (persisted_cursor w).
    destruct (cursor_of_py_str_cases
                (batch_end (persisted_cursor w) (len (parse_text content))))
      as [-> | ->]; unfold batch_end, QUESTIONS_PER_DAY; lia.
  - destruct (main_done_run api tok w content Htok Hq Hge)
      as (evs & Hrun & _).
    rewrite Hrun. cbn [snd]. unfold persisted_cursor at 1 2. cbn [after files].
    fold (persisted_cursor w). auto.
Qed.

(** C3, as the code has it. Over an unchanged question file, runs that
    start from a persisted cursor within [0, total] (a missing cursor file
    counts as 0) keep it within [0, total], whatever the sends do. *)
Theorem cursor_stays_in_range :
  forall apis tok w content,
    truthy tok = true ->
    files w !! QUESTIONS_FILE = Some content ->
    0 <= persisted_cursor w <= len (parse_text content) ->
    files (runs apis tok w) !! QUESTIONS_FILE = Some content
    /\ 0 <= persisted_cursor (runs apis tok w) <= len (parse_text content).
Proof.
  intros apis tok w content Htok. revert w.
  induction apis as [|api t IH]; intros w Hq Hc; [auto|].
  destruct (run_keeps_range api tok w content Htok Hq Hc) as [Hq' Hc'].
  exact (IH _ Hq' Hc').
Qed.

(** ** Blocks with six lines *)

Lemma parse_block_six parsed block w prompt o1 o2 o3 o4 answer_line j n c :
  block_lines block = [prompt; o1; o2; o3; o4; answer_line] ->
  Re.search true ANSWER answer_line = Some (j, (n, Some [c])) ->
  exists w',
    parse_block parsed block w
    = (Ok (parsed
           ++ [Question prompt (List.map strip_label [o1; o2; o3; o4])
                        (letter_index c)]), w').
Proof.
  intros Hl Hs. destruct (parse_block_run parsed block w) as (evs & Hrun & _).
  exists (add_events w evs). rewrite Hrun. unfold block_record.
  rewrite Hl, Hs. cbn [record_list List.map].
  rewrite !LabelFacts.sub_label. reflexivity.
Qed.

Lemma answer_token_unique line i c c' :
  answer_token line i c -> answer_token line i c' -> c = c'.
Proof.
  intros (pre & s & Hline & Hlen & Hs) (pre' & s' & Hline' & Hlen' & Hs').
  rewrite Hline in Hline'.
  destruct (app_inj_1 pre pre' s s') as [_ <-]; [congruence | exact Hline' |].
  exact (AnswerFacts.answer_token_here_unique _ _ _ Hs Hs').
Qed.

(** The first token of a line is the one [re.search] returns. *)
Lemma first_token_search line i c :
  answer_token line i c ->
  (forall j c', answer_token line j c' -> (i <= j)%nat) ->
  exists n, Re.search true ANSWER line = Some (i, (n, Some [c])).
Proof.
  intros Ht Hmin.
  destruct (AnswerFacts.search_answer_token _ _ _ Ht) as (p & n & c' & Hs & Hle & Hp).
  assert (p = i) by (specialize (Hmin p c' Hp); lia). subst p.
  rewrite (answer_token_unique _ _ _ _ Ht Hp). exists n. exact Hs.
Qed.

Lemma answer_token_literal (c : char) (pre post : str) :
  ReAux.letter c = true ->
  answer_token (pre ++ lit "Answer: " ++ c :: post) (length pre) c.
Proof.
  intros Hc. exists pre, (lit "Answer: " ++ c :: post).
  split; [reflexivity|]. split; [reflexivity|].
  exists (lit "Answer:"), [0x20%N], post. split; [reflexivity|].
  split; [|split; [reflexivity | exact Hc]].
  unfold ci_word. repeat constructor.
Qed.

(** C5. A block whose lines are a prompt, four options and an answer line
    with the token [Answer: <letter>] yields a record whose correct index
    is the position of the letter in [abcd] (in either case) and whose
    options are the option lines without their labels [a) ] to [d) ]; for
    [Answer: c] the correct index is 2. *)
Theorem well_formed_block :
  (forall parsed block w prompt o1 o2 o3 o4 answer_line i c k,
      block_lines block = [prompt; o1; o2; o3; o4; answer_line] ->
      answer_token answer_line i c ->
      (forall j c', answer_token answer_line j c' -> (i <= j)%nat) ->
      nth_error (lit "abcd") k = Some c \/ nth_error (lit "ABCD") k = Some c ->
      exists w',
        parse_block parsed block w
        = (Ok (parsed
               ++ [Question prompt (List.map strip_label [o1; o2; o3; o4])
                            (Z.of_nat k)]), w'))
  /\ (forall parsed block w prompt o1 o2 o3 o4,
         block_lines block = [prompt; o1; o2; o3; o4; lit "Answer: c"] ->
         exists w',
           parse_block parsed block w
           = (Ok (parsed
                  ++ [Question prompt (List.map strip_label [o1; o2; o3; o4])
                               2]), w'))
  /\ (forall l text,
         In l (lit "abcd") ->
         strip_label (l :: lit ") " ++ text) = lstrip text).
Proof.
  split; [|split].
  - intros parsed block w prompt o1 o2 o3 o4 answer_line i c k Hl Ht Hmin Hk.
    destruct (first_token_search _ _ _ Ht Hmin) as [n Hs].
    destruct (parse_block_six parsed block w _ _ _ _ _ _ _ _ _ Hl Hs)
      as [w' Hrun].
    exists w'. rewrite Hrun.
    assert (Hidx : letter_index c = Z.of_nat k).
    { destruct Hk as [Hk|Hk];
        do 4 (destruct k as [|k]; [injection Hk as <-; reflexivity|]);
        destruct k; discriminate. }
    rewrite Hidx. reflexivity.
  - intros parsed block w prompt o1 o2 o3 o4 Hl.
    exact (parse_block_six parsed block w _ _ _ _ _ _ O 9%nat 0x63%N Hl eq_refl).
  - intros l text Hl. cbn in Hl.
    destruct Hl as [<-|[<-|[<-|[<-|[]]]]]; reflexivity.
Qed.

(** C10. The answer token may stand anywhere in the last line: a line
    with a token at some position is accepted, and the record takes its
    correct index from the first token of the line. *)
Theorem answer_token_anywhere :
  (forall parsed block w prompt o1 o2 o3 o4 answer_line i c,
      block_lines block = [prompt; o1; o2; o3; o4; answer_line] ->
      answer_token answer_line i c ->
      exists j c' w',
        (j <= i)%nat /\ answer_token answer_line j c'
        /\ (forall k c'', answer_token answer_line k c'' ->
                          (j <= k)%nat /\ (k = j -> c'' = c'))
        /\ parse_block parsed block w
           = (Ok (parsed
                  ++ [Question prompt (List.map strip_label [o1; o2; o3; o4])
                               (letter_index c')]), w'))
  /\ (forall pre post c,
         ReAux.letter c = true ->
         answer_token (pre ++ lit "Answer: " ++ c :: post) (length pre) c)
  /\ (forall parsed block w prompt o1 o2 o3 o4,
         block_lines block
         = [prompt; o1; o2; o3; o4; lit "The Answer: b is correct"] ->
         exists w',
           parse_block parsed block w
           = (Ok (parsed
                  ++ [Question prompt (List.map strip_label [o1; o2; o3; o4])
                               1]), w')).
Proof.
  split; [|split].
  - intros parsed block w prompt o1 o2 o3 o4 answer_line i c Hl Ht.
    destruct (AnswerFacts.search_answer_token _ _ _ Ht)
      as (j & n & c' & Hs & Hle & Hj).
    destruct (AnswerFacts.search_answer_first _ _ _ _ Hs)
      as (c1 & Hc1 & _ & _ & Hmin).
    destruct (parse_block_six parsed block w _ _ _ _ _ _ _ _ _ Hl Hs)
      as [w' Hrun].
    exists j, c', w'. split; [exact Hle|]. split; [exact Hj|].
    split; [|exact Hrun].
    intros k c'' Hk. split; [exact (Hmin k c'' Hk)|].
    intros ->. exact (answer_token_unique _ _ _ _ Hk Hj).
  - intros pre post c Hc. apply answer_token_literal. exact Hc.
  - intros parsed block w prompt o1 o2 o3 o4 Hl.
    exact (parse_block_six parsed block w _ _ _ _ _ _ 4%nat 9%nat 0x62%N
                           Hl eq_refl).
Qed.

(** ** Rejected blocks *)




(** C8. On any text the parser returns a list of records: no block makes
    it raise. *)
Theorem parser_never_raises :
  forall path content w,
    files w !! path = Some content ->
    (exists w', parse_mcqs path w = (Ok (parse_text content), w')
                /\ files w' = files w)
    /\ (forall parsed block w0,
           exists parsed' w', parse_block parsed block w0 = (Ok parsed', w')).
Proof.
  intros path content w Hf. split.
  - destruct (parse_mcqs_run path content w Hf) as (evs & Hrun & _).
    eexists. split; [exact Hrun | reflexivity].
  - intros parsed block w0.
    destruct (parse_block_run parsed block w0) as (evs & Hrun & _).
    eauto.
Qed.

(** C9. The cursor read is 0 when the cursor file is missing, blank, or
    a text that [int] refuses, and otherwise the integer [int] gives, of
    either sign. [int] refuses what is not a numeral and a numeral of more
    than 4300 digits, so that the cursor read is always, in absolute value,
    below [10 ^ 4300]. From a negative cursor [n] the batch is the slice
    [all_questions[n : min (n+20) total]]: counted from the end of the
    list, it holds the questions from index [max 0 (total+n)] up to
    [max 0 (total+n+20)] when [n+20 < 0] and up to [min (n+20) total]
    otherwise; the cursor written is [min (n+20) total]. *)
Theorem negative_cursor_slices :
  (forall w,
      exists w',
        read_progress w = (Ok (persisted_cursor w), w')
        /\ files w' = files w)
  /\ (forall w, files w !! PROGRESS_FILE = None -> persisted_cursor w = 0)
  /\ (forall w content,
         files w !! PROGRESS_FILE = Some content ->
         strip content = [] \/ py_int (strip content) = None ->
         persisted_cursor w = 0)
  /\ (forall w content n,
         files w !! PROGRESS_FILE = Some content ->
         py_int (strip content) = Some n ->
         persisted_cursor w = n)
  /\ py_int (strip (lit "-5")) = Some (-5)
  /\ (forall w digits content,
         forallb digit_char digits = true ->
         (INT_MAX_STR_DIGITS < N.of_nat (length digits))%N ->
         content = digits \/ content = 0x2D%N :: digits ->
         files w !! PROGRESS_FILE = Some content ->
         py_int (strip content) = None /\ persisted_cursor w = 0)
  /\ (forall w, - int_bound < persisted_cursor w < int_bound)
  /\ (forall api tok w content,
         truthy tok = true ->
         files w !! QUESTIONS_FILE = Some content ->
         persisted_cursor w < 0 ->
         let qs := parse_text content in
         let n := persisted_cursor w in
         let lo := Z.max 0 (len qs + n) in
         let hi := if n + 20 <? 0 then Z.max 0 (len qs + n + 20)
                   else Z.min (n + 20) (len qs) in
         exists w',
           main api (Some tok) w = (Ok tt, w')
           /\ List.filter is_api (new_events w w')
              = flat_map
                  (fun chat_id =>
                     List.map (quiz_event n (len qs) chat_id)
                       (enumerate (firstn (Z.to_nat (hi - lo))
                                          (skipn (Z.to_nat lo) qs))))
                  CHAT_IDS
           /\ files w' !! PROGRESS_FILE
              = Some (py_str (Z.min (n + 20) (len qs)))).
Proof.
  split; [|split; [|split; [|split; [|split; [|split; [|split]]]]]].
  - intros w. destruct (read_progress_run w) as (evs & Hrun & _).
    eexists. split; [exact Hrun | reflexivity].
  - intros w Hf. unfold persisted_cursor. rewrite Hf. reflexivity.
  - intros w content Hf H. unfold persisted_cursor, cursor_of. rewrite Hf.
    destruct H as [-> | ->]; reflexivity.
  - intros w content n Hf Hn. unfold persisted_cursor, cursor_of.
    rewrite Hf, Hn. reflexivity.
  - reflexivity.
  - intros w digits content Hd Hlen Hc Hf.
    assert (Hnone : py_int (strip content) = None).
    { destruct (py_int_long digits Hd Hlen) as [Hp Hm].
      assert (Hns : forallb (fun c => negb (isspace c)) digits = true).
      { apply forallb_forall. intros c Hin.
        pose proof (proj1 (forallb_forall _ _) Hd c Hin) as Hdc.
        destruct (digit_char_facts c Hdc) as (_ & _ & -> & _). reflexivity. }
      destruct Hc as [-> | ->].
      - rewrite (strip_id _ Hns). exact Hp.
      - rewrite strip_id; [exact Hm|]. cbn [forallb]. rewrite Hns. reflexivity. }
    split; [exact Hnone|].
    unfold persisted_cursor, cursor_of. rewrite Hf, Hnone. reflexivity.
  - intros w. apply cursor_of_bound.
  - intros api tok w content Htok Hq Hneg qs n lo hi.
    assert (Hlen : 0 <= len qs) by (unfold len; lia).
    assert (Hlt : persisted_cursor w < len (parse_text content))
      by (fold qs; lia).
    destruct (main_batch_run api tok w content Htok Hq Hlt)
      as (evs & Hrun & Hapi & _ & _).
    eexists. split; [exact Hrun|].
    rewrite (new_events_app _ _ evs) by reflexivity.
    split; [|cbn [files]; apply lookup_insert_eq].
    rewrite Hapi. unfold sends. rewrite map_pairs.
    fold qs. fold (persisted_cursor w). fold n.
    assert (Hslice : py_slice qs n (batch_end n (len qs))
                     = firstn (Z.to_nat (hi - lo)) (skipn (Z.to_nat lo) qs)).
    { unfold py_slice, slice_bound, batch_end, QUESTIONS_PER_DAY.
      subst lo hi. fold n in Hneg.
      destruct (Z.ltb_spec n 0); [|lia].
      destruct (Z.ltb_spec (n + 20) 0).
      - rewrite (Z.min_l (n + 20)) by lia.
        destruct (Z.ltb_spec (n + 20) 0); [|lia].
        replace (n + 20 + len qs) with (len qs + n + 20) by lia.
        replace (n + len qs) with (len qs + n) by lia. reflexivity.
      - destruct (Z.ltb_spec (Z.min (n + 20) (len qs)) 0); [lia|].
        rewrite (Z.min_l (Z.min (n + 20) (len qs))) by lia.
        replace (n + len qs) with (len qs + n) by lia. reflexivity. }
    rewrite Hslice. reflexivity.
Qed.

(** * Concrete runs *)

Example parse_sample_text :
  parse_text sample_text
  = [ Question (lit "Who was the first Prime Minister of India?")
               [lit "Jawaharlal Nehru"; lit "Vallabhbhai Patel";
                lit "Rajendra Prasad"; lit "B. R. Ambedkar"] 0;
      Question (lit "When did the Constitution of India come into force?")
               [lit "1947"; lit "1949"; lit "1950"; lit "1952"] 2;
      Question (lit "Which plan launched the Green Revolution?")
               [lit "A) First"; lit "Second"; lit "Third"; lit "Fourth"] 2 ].
Proof. vm_compute. reflexivity. Qed.

Example parse_ninety_text : len (parse_text ninety_text) = 90.
Proof. vm_compute. reflexivity. Qed.

Lemma batch_window_witness :
  (exists w',
      main api_ok (Some TOKEN) (sample_world (Some (lit "1")) sample_text)
      = (Ok tt, w')
      /\ List.filter is_api
           (new_events (sample_world (Some (lit "1")) sample_text) w')
         = flat_map
             (fun chat_id =>
                List.map (quiz_of (parse_text sample_text) chat_id) [1; 2])
             CHAT_IDS
      /\ files w' !! PROGRESS_FILE = Some (lit "3"))
  /\ (exists w',
         main api_ok (Some TOKEN) (sample_world (Some (lit "40")) ninety_text)
         = (Ok tt, w')
         /\ List.filter is_api
              (new_events (sample_world (Some (lit "40")) ninety_text) w')
            = flat_map
                (fun chat_id =>
                   List.map (quiz_of (parse_text ninety_text) chat_id)
                            (indices 40 60))
                CHAT_IDS
         /\ files w' !! PROGRESS_FILE = Some (lit "60")).
Proof.
  split.
  - apply (proj1 batch_window api_ok TOKEN
             (sample_world (Some (lit "1")) sample_text) sample_text).
    + reflexivity.
    + vm_compute. reflexivity.
    + split; [apply Z.leb_le | apply Z.ltb_lt]; vm_compute; reflexivity.
  - apply (proj2 batch_window api_ok TOKEN
             (sample_world (Some (lit "40")) ninety_text) ninety_text).
    + reflexivity.
    + vm_compute. reflexivity.
    + vm_compute. reflexivity.
    + vm_compute. reflexivity.
Defined.

Lemma send_failures_are_contained_witness :
  exists w',
    main api_second_fails (Some TOKEN) (sample_world None sample_text)
    = (Ok tt, w')
    /\ length (List.filter is_api
                 (new_events (sample_world None sample_text) w')) = 6%nat
    /\ List.filter is_error (new_events (sample_world None sample_text) w')
       = [Log ERROR
            (lit "Failed to send poll to 7695772994: When did the Constitution of India come into force?. Error: Timed out")]
    /\ files w' !! PROGRESS_FILE = Some (lit "3").
Proof.
  destruct (send_failures_are_contained api_second_fails TOKEN
              (sample_world None sample_text) sample_text)
    as (w' & Hrun & Hapi & Herr & Hfiles).
  - reflexivity.
  - vm_compute. reflexivity.
  - vm_compute. reflexivity.
  - exists w'. split; [exact Hrun|]. split; [|split].
    + rewrite Hapi. vm_compute. reflexivity.
    + rewrite Herr. vm_compute. reflexivity.
    + rewrite Hfiles. vm_compute. reflexivity.
Defined.

(** C3, as stated, fails: a cursor file holding 7 next to three questions
    makes a run that starts with cursor >= total, and the persisted cursor
    is still 7 after it. *)
Lemma stale_cursor_exceeds_total :
  let w := sample_world (Some (lit "7")) sample_text in
  let w' := snd (main api_ok (Some TOKEN) w) in
  len (parse_text sample_text) = 3
  /\ persisted_cursor w = 7
  /\ fst (main api_ok (Some TOKEN) w) = Ok tt
  /\ persisted_cursor w' = 7
  /\ ~ (0 <= persisted_cursor w' <= len (parse_text sample_text)).
Proof.
  cbv zeta. repeat split; try (vm_compute; reflexivity).
  vm_compute. intros [_ H]. apply H. reflexivity.
Qed.

Lemma cursor_stays_in_range_witness :
  files (runs [api_ok; api_second_fails; api_ok] TOKEN
              (sample_world None sample_text)) !! QUESTIONS_FILE
  = Some sample_text
  /\ 0 <= persisted_cursor
            (runs [api_ok; api_second_fails; api_ok] TOKEN
                  (sample_world None sample_text))
     <= len (parse_text sample_text).
Proof.
  apply (cursor_stays_in_range [api_ok; api_second_fails; api_ok] TOKEN
           (sample_world None sample_text) sample_text).
  - reflexivity.
  - vm_compute. reflexivity.
  - split; apply Z.leb_le; vm_compute; reflexivity.
Defined.

Lemma completed_run_leaves_cursor_witness :
  exists w',
    main api_second_fails (Some TOKEN)
         (sample_world (Some (lit "3")) sample_text)
    = (Ok tt, w')
    /\ List.filter is_poll
         (new_events (sample_world (Some (lit "3")) sample_text) w') = []
    /\ List.filter is_api
         (new_events (sample_world (Some (lit "3")) sample_text) w')
       = [SendMessage (lit "7695772994") COMPLETION_TEXT;
          SendMessage (lit "8070930921") COMPLETION_TEXT]
    /\ List.filter is_write
         (new_events (sample_world (Some (lit "3")) sample_text) w') = []
    /\ files w' = files (sample_world (Some (lit "3")) sample_text).
Proof.
  apply (completed_run_leaves_cursor api_second_fails TOKEN
           (sample_world (Some (lit "3")) sample_text) sample_text).
  - reflexivity.
  - vm_compute. reflexivity.
  - apply Z.leb_le. vm_compute. reflexivity.
Defined.

Lemma well_formed_block_witness :
  (exists w',
      parse_block [] sample_block (sample_world None sample_text)
      = (Ok [Question (lit "Who chaired the Drafting Committee?")
                      [lit "Nehru"; lit "Ambedkar"; lit "C) Patel"; lit "Prasad"]
                      1], w'))
  /\ (exists w',
         parse_block [] (block_text ["Q"; "a) w"; "b) x"; "c) y"; "d) z";
                                     "Answer: c"]%string)
                     (sample_world None sample_text)
         = (Ok [Question (lit "Q") [lit "w"; lit "x"; lit "y"; lit "z"] 2], w'))
  /\ strip_label (lit "d)   text") = lit "text".
Proof.
  split; [|split].
  - apply (proj1 well_formed_block [] sample_block
             (sample_world None sample_text)
             (lit "Who chaired the Drafting Committee?")
             (lit "a) Nehru") (lit "b)   Ambedkar") (lit "C) Patel")
             (lit "d)Prasad") (lit "Answer: b") O 0x62%N 1%nat).
    + vm_compute. reflexivity.
    + exact (answer_token_literal 0x62%N [] [] eq_refl).
    + intros j c' _. apply Nat.le_0_l.
    + left. reflexivity.
  - apply (proj1 (proj2 well_formed_block) []
             (block_text ["Q"; "a) w"; "b) x"; "c) y"; "d) z";
                          "Answer: c"]%string)
             (sample_world None sample_text)
             (lit "Q") (lit "a) w") (lit "b) x") (lit "c) y") (lit "d) z")).
    vm_compute. reflexivity.
  - apply (proj2 (proj2 well_formed_block) 0x64%N (lit "  text")).
    right. right. right. left. reflexivity.
Defined.

Lemma answer_token_anywhere_witness :
  (exists j c' w',
      (j <= 4)%nat
      /\ answer_token (lit "The Answer: b is correct") j c'
      /\ (forall k c'',
             answer_token (lit "The Answer: b is correct") k c'' ->
             (j <= k)%nat /\ (k = j -> c'' = c'))
      /\ parse_block []
           (block_text ["Q"; "a) w"; "b) x"; "c) y"; "d) z";
                        "The Answer: b is correct"]%string)
           (sample_world None sample_text)
         = (Ok [Question (lit "Q") [lit "w"; lit "x"; lit "y"; lit "z"]
                         (letter_index c')], w'))
  /\ answer_token (lit "so the Answer: D") 7 0x44%N
  /\ (exists w',
         parse_block []
           (block_text ["Q"; "a) w"; "b) x"; "c) y"; "d) z";
                        "The Answer: b is correct"]%string)
           (sample_world None sample_text)
         = (Ok [Question (lit "Q") [lit "w"; lit "x"; lit "y"; lit "z"] 1],
            w')).
Proof.
  split; [|split].
  - apply (proj1 answer_token_anywhere []
             (block_text ["Q"; "a) w"; "b) x"; "c) y"; "d) z";
                          "The Answer: b is correct"]%string)
             (sample_world None sample_text)
             (lit "Q") (lit "a) w") (lit "b) x") (lit "c) y") (lit "d) z")
             (lit "The Answer: b is correct") 4%nat 0x62%N).
    + vm_compute. reflexivity.
    + exact (answer_token_literal 0x62%N (lit "The ") (lit " is correct")
               eq_refl).
  - exact (proj1 (proj2 answer_token_anywhere) (lit "so the ") [] 0x44%N
                 eq_refl).
  - apply (proj2 (proj2 answer_token_anywhere) []
             (block_text ["Q"; "a) w"; "b) x"; "c) y"; "d) z";
                          "The Answer: b is correct"]%string)
             (sample_world None sample_text)
             (lit "Q") (lit "a) w") (lit "b) x") (lit "c) y") (lit "d) z")).
    vm_compute. reflexivity.
Defined.


Lemma parser_never_raises_witness :
  (exists w',
      parse_mcqs QUESTIONS_FILE (sample_world None sample_text)
      = (Ok (parse_text sample_text), w')
      /\ files w' = files (sample_world None sample_text))
  /\ (forall parsed block w0,
         exists parsed' w', parse_block parsed block w0 = (Ok parsed', w')).
Proof.
  apply (parser_never_raises QUESTIONS_FILE sample_text
           (sample_world None sample_text)).
  vm_compute. reflexivity.
Defined.

Lemma negative_cursor_slices_witness :
  persisted_cursor (sample_world None sample_text) = 0
  /\ persisted_cursor (sample_world (Some (lit "  ")) sample_text) = 0
  /\ persisted_cursor (sample_world (Some (lit "4.5")) sample_text) = 0
  /\ persisted_cursor (sample_world (Some (lit " -5 ")) sample_text) = -5
  /\ persisted_cursor
       (sample_world (Some (repeat 0x30%N 4299 ++ lit "5")) sample_text)
     = 5
  /\ (py_int (strip (repeat 0x30%N 4300 ++ lit "5")) = None
      /\ persisted_cursor
           (sample_world (Some (repeat 0x30%N 4300 ++ lit "5")) sample_text)
         = 0)
  /\ (exists w',
         main api_ok (Some TOKEN) (sample_world (Some (lit "-2")) sample_text)
         = (Ok tt, w')
         /\ List.filter is_api
              (new_events (sample_world (Some (lit "-2")) sample_text) w')
            = flat_map
                (fun chat_id =>
                   List.map (quiz_event (-2) 3 chat_id)
                     (enumerate (skipn 1 (parse_text sample_text))))
                CHAT_IDS
         /\ files w' !! PROGRESS_FILE = Some (lit "3")).
Proof.
  pose proof negative_cursor_slices
    as (_ & Hmissing & Hbad & Hint & _ & Hlong & _ & Hneg).
  split; [|split; [|split; [|split; [|split; [|split]]]]].
  - apply Hmissing. vm_compute. reflexivity.
  - apply (Hbad _ (lit "  ")); [vm_compute; reflexivity | left; reflexivity].
  - apply (Hbad _ (lit "4.5")); [vm_compute; reflexivity | right; reflexivity].
  - apply (Hint _ (lit " -5 ")); [vm_compute; reflexivity | reflexivity].
  - apply (Hint _ (repeat 0x30%N 4299 ++ lit "5")); vm_compute; reflexivity.
  - apply (Hlong _ (repeat 0x30%N 4300 ++ lit "5")).
    + vm_compute. reflexivity.
    + vm_compute. reflexivity.
    + left. reflexivity.
    + vm_compute. reflexivity.
  - apply (Hneg api_ok TOKEN (sample_world (Some (lit "-2")) sample_text)
             sample_text).
    + reflexivity.
    + vm_compute. reflexivity.
    + vm_compute. reflexivity.
Defined.

(** From the cursor [-5] and three questions, the slice [[-5:3]] is the
    whole list: the run sends the three questions, numbered -4 to -2, and
    writes the cursor 3. *)
Example negative_cursor_run :
  let w := sample_world (Some (lit "-5")) sample_text in
  List.filter is_api (events (snd (main api_ok (Some TOKEN) w)))
  = flat_map
      (fun chat_id =>
         [SendPoll chat_id
            (lit "(-4/3) Who was the first Prime Minister of India?")
            [lit "Jawaharlal Nehru"; lit "Vallabhbhai Patel";
             lit "Rajendra Prasad"; lit "B. R. Ambedkar"] 0;
          SendPoll chat_id
            (lit "(-3/3) When did the Constitution of India come into force?")
            [lit "1947"; lit "1949"; lit "1950"; lit "1952"] 2;
          SendPoll chat_id
            (lit "(-2/3) Which plan launched the Green Revolution?")
            [lit "A) First"; lit "Second"; lit "Third"; lit "Fourth"] 2])
      CHAT_IDS
  /\ files (snd (main api_ok (Some TOKEN) w)) !! PROGRESS_FILE
     = Some (lit "3").
Proof. vm_compute. split; reflexivity. Qed.

(** * Further properties of [main] *)

Lemma main_missing_run api tok w :
  truthy tok = true ->
  files w !! QUESTIONS_FILE = None ->
  exists evs,
    main api (Some tok) w = (Raise FileNotFoundError, add_events w evs)
    /\ forallb benign evs = true.
Proof.
  intros Htok Hq. unfold main. rewrite Htok. cbn [negb].
  rewrite bind_log. unfold bind at 1.
  destruct (parse_mcqs_missing QUESTIONS_FILE
              (add_events w [Log INFO (lit "Bot initialized.")]) Hq)
    as (e1 & H1 & B1).
  rewrite H1. eexists. split.
  - rewrite add_events_app. reflexivity.
  - exact B1.
Qed.

Lemma main_shape api tok w :
  exists evs,
    run_shape api w (fst (main api tok w)) (snd (main api tok w)) evs.
Proof.
  destruct (token_set tok) eqn:Ht.
  - destruct tok as [t|]; [|discriminate]. cbn [token_set] in Ht.
    destruct (files w !! QUESTIONS_FILE) as [content|] eqn:Hq.
    + destruct (Z.lt_ge_cases (persisted_cursor w) (len (parse_text content)))
        as [Hlt|Hge].
      * destruct (main_batch_run api t w content Ht Hq Hlt)
          as (evs & Hrun & Hapi & _ & Hwr).
        exists evs. rewrite Hrun. cbn [fst snd].
        exact (Batch api w content evs Hq Hlt Hapi Hwr).
      * destruct (main_done_run api t w content Ht Hq Hge)
          as (evs & Hrun & Hapi & Hwr).
        exists evs. rewrite Hrun. cbn [fst snd].
        exact (Done api w content evs Hq Hge Hapi Hwr).
    + destruct (main_missing_run api t w Ht Hq) as (evs & Hrun & Hb).
      exists evs. rewrite Hrun. cbn [fst snd].
      exact (NoQuestions api w evs Hq Hb).
  - eexists.
    replace (main api tok w)
      with (Ok tt,
            add_events w
              [Log ERROR
                 (lit "TELEGRAM_BOT_TOKEN environment variable not set!")]).
    + cbn [fst snd]. apply NoToken.
    + unfold main. fold (token_set tok). rewrite Ht. reflexivity.
Qed.

Lemma run_shape_events api w r w' evs :
  run_shape api w r w' evs -> events w' = events w ++ evs.
Proof. intros H. destruct H; reflexivity. Qed.

(** X1. With a token but no question file, a run stops with
    [FileNotFoundError] before it reads the cursor file: it makes no API
    call and writes nothing. *)
Theorem missing_question_file_aborts :
  forall api tok w,
    truthy tok = true ->
    files w !! QUESTIONS_FILE = None ->
    exists w',
      main api (Some tok) w = (Raise FileNotFoundError, w')
      /\ files w' = files w
      /\ api_calls w' = api_calls w
      /\ List.filter is_api (new_events w w') = []
      /\ List.filter is_write (new_events w w') = []
      /\ ~ In (FileRead PROGRESS_FILE) (new_events w w').
Proof.
  intros api tok w Htok Hq.
  assert (Hrun : main api (Some tok) w
                 = (Raise FileNotFoundError,
                    add_events w
                      [Log INFO (lit "Bot initialized.");
                       Log INFO (lit "Parsing questions from " ++ QUESTIONS_FILE);
                       FileRead QUESTIONS_FILE])).
  { unfold main. rewrite Htok. cbn [negb].
    rewrite bind_log. unfold bind at 1. unfold parse_mcqs.
    rewrite bind_log. unfold bind at 1.
    rewrite read_file_run. cbn [add_events files]. rewrite Hq.
    cbv beta iota zeta. rewrite !add_events_app. reflexivity. }
  eexists. split; [exact Hrun|]. cbn [files api_calls add_events].
  split; [reflexivity|]. split; [reflexivity|].
  rewrite (new_events_app w (add_events w _) _ eq_refl).
  split; [reflexivity|]. split; [reflexivity|].
  intros [H|[H|[H|[]]]]; discriminate.
Qed.

(** X3. Whatever happens in a run, the only file it can change is the
    cursor file: every other path, the question file among them, holds
    after the run what it held before. *)
Theorem only_cursor_file_changes :
  forall api tok w path,
    path <> PROGRESS_FILE ->
    files (snd (main api tok w)) !! path = files w !! path.
Proof.
  intros api tok w path Hp. destruct (main_shape api tok w) as (evs & H).
  destruct H; cbn [files add_events after]; try reflexivity.
  apply lookup_insert_ne. congruence.
Qed.

Lemma batch_length_bound {A} (qs : list A) (c : Z) :
  (length (py_slice qs c (batch_end c (len qs))) <= 20)%nat.
Proof.
  unfold py_slice, slice_bound, batch_end, QUESTIONS_PER_DAY.
  rewrite length_firstn. unfold len.
  destruct (Z.ltb_spec c 0);
    destruct (Z.ltb_spec (Z.min (c + 20) (Z.of_nat (length qs))) 0); lia.
Qed.

Lemma filter_sent_to_api chat_id evs :
  List.filter (sent_to chat_id) evs
  = List.filter (sent_to chat_id) (List.filter is_api evs).
Proof.
  induction evs as [|e t IH]; [reflexivity|].
  destruct e; cbn [List.filter is_api sent_to]; try exact IH.
  - destruct (bool_decide (chat_id0 = chat_id)); rewrite IH; reflexivity.
  - destruct (bool_decide (chat_id0 = chat_id)); rewrite IH; reflexivity.
Qed.

Lemma chat_ids_distinct : List.NoDup CHAT_IDS.
Proof.
  unfold CHAT_IDS. constructor.
  - intros [H|[]]. vm_compute in H. discriminate.
  - constructor; [intros [] | constructor].
Qed.

(** Of calls made chat by chat, one for each element of [l], those
    addressed to one chat are at most as many as [l] has elements. *)
Lemma sent_to_chats {A} (call : str -> A -> event) chat_id
      (chats : list str) (l : list A) :
  (forall c a, sent_to chat_id (call c a) = bool_decide (c = chat_id)) ->
  List.NoDup chats ->
  (length (List.filter (sent_to chat_id)
             (flat_map (fun c => List.map (call c) l) chats))
   <= length l)%nat.
Proof.
  intros Hcall.
  assert (Hone : forall c,
             List.filter (sent_to chat_id) (List.map (call c) l)
             = if bool_decide (c = chat_id) then List.map (call c) l else []).
  { intros c. induction l as [|a t IH]; cbn [List.map List.filter].
    - destruct (bool_decide (c = chat_id)); reflexivity.
    - rewrite Hcall, IH. destruct (bool_decide (c = chat_id)); reflexivity. }
  assert (Hnone : forall cs,
             ~ In chat_id cs ->
             List.filter (sent_to chat_id)
               (flat_map (fun c => List.map (call c) l) cs) = []).
  { induction cs as [|c cs IH]; intros Hin; [reflexivity|].
    cbn [flat_map]. rewrite List.filter_app, Hone.
    rewrite bool_decide_eq_false_2
      by (intros ->; apply Hin; left; reflexivity).
    apply IH. intros H. apply Hin. right. exact H. }
  intros Hnd. induction Hnd as [|c cs Hc Hnd IH]; [cbn; lia|].
  cbn [flat_map]. rewrite List.filter_app, length_app, Hone.
  destruct (bool_decide_reflect (c = chat_id)) as [->|Hne].
  - rewrite (Hnone cs Hc), length_map. cbn [length]. lia.
  - cbn [length]. exact IH.
Qed.

(** X4. No run sends more than twenty quizzes to a recipient, whatever the
    cursor file holds (negative numbers included) and whatever the sends
    do: the API calls of a run that are addressed to one chat, quizzes and
    messages together, are at most 20, and those of the run at most 40. *)
Theorem at_most_twenty_quizzes_per_chat :
  forall api tok w chat_id,
    (length (List.filter (sent_to chat_id)
               (new_events w (snd (main api tok w)))) <= 20)%nat
    /\ (length (List.filter is_api (new_events w (snd (main api tok w))))
        <= length CHAT_IDS * 20)%nat.
Proof.
  intros api tok w chat_id. destruct (main_shape api tok w) as (evs & H).
  rewrite (new_events_app _ _ evs) by exact (run_shape_events _ _ _ _ _ H).
  rewrite filter_sent_to_api.
  assert (Hen : forall (l : list question_record) j,
             length (enumerate_from j l) = length l).
  { induction l as [|x t IH]; intros j; cbn; [reflexivity|].
    rewrite IH. reflexivity. }
  destruct H as [|evs Hq Hb|content evs Hq Hlt Hapi Hwr|content evs Hq Hge Hapi Hwr].
  - cbn. lia.
  - destruct (benign_filters _ Hb) as (-> & _). cbn. lia.
  - rewrite Hapi.
    pose proof (batch_length_bound (parse_text content) (persisted_cursor w))
      as Hbatch.
    split.
    + unfold sends. rewrite map_pairs. cbn [fst snd].
      etransitivity.
      * apply (sent_to_chats
                 (fun c => quiz_event (persisted_cursor w)
                                      (len (parse_text content)) c));
          [reflexivity | exact chat_ids_distinct].
      * unfold enumerate. rewrite Hen. exact Hbatch.
    + rewrite length_map. unfold sends. rewrite length_pairs.
      unfold enumerate. rewrite Hen.
      apply Nat.mul_le_mono_l. exact Hbatch.
  - rewrite Hapi. split.
    + etransitivity; [apply List.filter_length_le|].
      rewrite length_map. cbn. lia.
    + rewrite length_map. lia.
Qed.

(** ** Several runs *)

Lemma run_cursor api tok w content :
  truthy tok = true ->
  files w !! QUESTIONS_FILE = Some content ->
  len (parse_text content) < int_bound ->
  files (snd (main api (Some tok) w)) !! QUESTIONS_FILE = Some content
  /\ persisted_cursor (snd (main api (Some tok) w))
     = cursor_after (persisted_cursor w) (len (parse_text content)) 1.
Proof.
  intros Htok Hq Hbound. unfold cursor_after, QUESTIONS_PER_DAY.
  destruct (Z.leb_spec (len (parse_text content)) (persisted_cursor w))
    as [Hge|Hlt].
  - destruct (main_done_run api tok w content Htok Hq Hge) as (evs & -> & _).
    cbn [snd]. unfold persisted_cursor at 1. cbn [after files]. auto.
  - destruct (main_batch_run api tok w content Htok Hq Hlt) as (evs & -> & _).
    cbn [snd]. unfold persisted_cursor at 1. cbn [files].
    rewrite lookup_insert_ne by exact progress_not_questions.
    rewrite lookup_insert_eq, cursor_of_py_str.
    + split; [exact Hq | reflexivity].
    + pose proof (cursor_of_bound (files w !! PROGRESS_FILE)) as Hc.
      pose proof int_bound_pos.
      assert (0 <= len (parse_text content)) by (unfold len; lia).
      unfold batch_end, QUESTIONS_PER_DAY, persisted_cursor in *. lia.
Qed.

Lemma cursor_after_step c total n :
  cursor_after (cursor_after c total 1) total n = cursor_after c total (S n).
Proof.
  unfold cursor_after, QUESTIONS_PER_DAY.
  destruct (Z.leb_spec total c) as [H|H].
  - destruct (Z.leb_spec total c); [reflexivity | lia].
  - destruct (Z.leb_spec total (Z.min (c + 20 * Z.of_nat 1) total)); lia.
Qed.

(** X5. Over an unchanged question file, the cursor after [n] runs is
    determined by the cursor [c] before them, whatever the sends do: [c]
    itself if [c >= total], and [min (c + 20 n) total] otherwise. So a
    cursor below [total] reaches [total] after finitely many runs and
    stays there. The number of questions is one that [int] reads back,
    below [10 ^ 4300]. *)
Theorem cursor_after_runs :
  forall apis tok w content,
    truthy tok = true ->
    files w !! QUESTIONS_FILE = Some content ->
    len (parse_text content) < int_bound ->
    persisted_cursor (runs apis tok w)
    = cursor_after (persisted_cursor w) (len (parse_text content))
                   (length apis)
    /\ (persisted_cursor w < len (parse_text content) ->
        len (parse_text content) - persisted_cursor w
        <= 20 * Z.of_nat (length apis) ->
        persisted_cursor (runs apis tok w) = len (parse_text content)).
Proof.
  intros apis tok w content Htok Hq Hbound.
  assert (Hmain : persisted_cursor (runs apis tok w)
                  = cursor_after (persisted_cursor w)
                                 (len (parse_text content)) (length apis)).
  { revert w Hq. induction apis as [|api t IH]; intros w Hq.
    - cbn [runs fold_left length]. unfold cursor_after, QUESTIONS_PER_DAY.
      destruct (Z.leb_spec (len (parse_text content)) (persisted_cursor w));
        lia.
    - destruct (run_cursor api tok w content Htok Hq Hbound) as [Hq' Hc'].
      change (runs (api :: t) tok w)
        with (runs t tok (snd (main api (Some tok) w))).
      rewrite (IH _ Hq'), Hc'. cbn [length]. apply cursor_after_step. }
  split; [exact Hmain|].
  intros Hlt Hn. rewrite Hmain. unfold cursor_after, QUESTIONS_PER_DAY.
  destruct (Z.leb_spec (len (parse_text content)) (persisted_cursor w)); lia.
Qed.

Lemma cursor_after_runs_witness :
  persisted_cursor
    (runs [api_ok; api_down; api_second_fails; api_ok; api_ok] TOKEN
          (sample_world None ninety_text)) = 90.
Proof.
  apply (proj2 (cursor_after_runs
                  [api_ok; api_down; api_second_fails; api_ok; api_ok] TOKEN
                  (sample_world None ninety_text) ninety_text
                  eq_refl ltac:(vm_compute; reflexivity)
                  ltac:(rewrite parse_ninety_text; vm_compute; reflexivity))).
  - apply Z.ltb_lt. vm_compute. reflexivity.
  - apply Z.leb_le. vm_compute. reflexivity.
Defined.

Lemma map_seq_add {A} (f : nat -> A) (n s m : nat) :
  List.map f (seq (n + s) m) = List.map (fun k => f (n + k)%nat) (seq s m).
Proof.
  revert s. induction m as [|m IH]; intros s; [reflexivity|].
  cbn [seq List.map]. f_equal.
  rewrite <- IH. f_equal. f_equal. lia.
Qed.

Lemma indices_app (a b c : Z) :
  a <= b <= c -> indices a b ++ indices b c = indices a c.
Proof.
  intros H. unfold indices.
  replace (Z.to_nat (c - a)) with (Z.to_nat (b - a) + Z.to_nat (c - b))%nat
    by lia.
  rewrite seq_app, List.map_app. f_equal. cbn [Nat.add].
  replace (seq (Z.to_nat (b - a)) (Z.to_nat (c - b)))
    with (seq (Z.to_nat (b - a) + 0) (Z.to_nat (c - b)))
    by (f_equal; lia).
  rewrite map_seq_add. apply map_ext. intros k. lia.
Qed.

Lemma filter_poll_to_api chat_id evs :
  List.filter (poll_to chat_id) evs
  = List.filter (poll_to chat_id) (List.filter is_api evs).
Proof.
  induction evs as [|e t IH]; [reflexivity|].
  destruct e; cbn [List.filter is_api poll_to]; try exact IH.
  destruct (bool_decide (chat_id0 = chat_id)); rewrite IH; reflexivity.
Qed.

Lemma filter_poll_to_quizzes qs chat_id chat' (l : list Z) :
  List.filter (poll_to chat_id) (List.map (quiz_of qs chat') l)
  = if bool_decide (chat' = chat_id) then List.map (quiz_of qs chat') l else [].
Proof.
  induction l as [|i t IH]; cbn [List.map List.filter].
  - destruct (bool_decide (chat' = chat_id)); reflexivity.
  - unfold quiz_of at 1. cbn [poll_to]. rewrite IH.
    destruct (bool_decide (chat' = chat_id)); reflexivity.
Qed.

Lemma filter_poll_to_chats qs chat_id (chats : list str) (l : list Z) :
  List.NoDup chats -> In chat_id chats ->
  List.filter (poll_to chat_id)
    (flat_map (fun chat' => List.map (quiz_of qs chat') l) chats)
  = List.map (quiz_of qs chat_id) l.
Proof.
  intros Hnd. induction Hnd as [|x t Hx Hnd IH]; intros Hin; [destruct Hin|].
  cbn [flat_map]. rewrite List.filter_app, filter_poll_to_quizzes.
  destruct Hin as [->|Hin].
  - rewrite bool_decide_eq_true_2 by reflexivity.
    assert (Hrest : List.filter (poll_to chat_id)
                      (flat_map (fun chat' => List.map (quiz_of qs chat') l) t)
                    = []).
    { clear IH Hnd. induction t as [|y t IH]; [reflexivity|].
      cbn [flat_map]. rewrite List.filter_app, filter_poll_to_quizzes.
      rewrite bool_decide_eq_false_2
        by (intros ->; apply Hx; left; reflexivity).
      apply IH. intros H. apply Hx. right. exact H. }
    rewrite Hrest. apply app_nil_r.
  - rewrite bool_decide_eq_false_2 by (intros ->; exact (Hx Hin)).
    exact (IH Hin).
Qed.

Lemma run_polls api tok w content chat_id :
  truthy tok = true ->
  files w !! QUESTIONS_FILE = Some content ->
  0 <= persisted_cursor w <= len (parse_text content) ->
  In chat_id CHAT_IDS ->
  exists evs,
    events (snd (main api (Some tok) w)) = events w ++ evs
    /\ List.filter (poll_to chat_id) evs
       = List.map (quiz_of (parse_text content) chat_id)
           (indices (persisted_cursor w)
              (cursor_after (persisted_cursor w)
                            (len (parse_text content)) 1)).
Proof.
  intros Htok Hq Hc Hin. unfold cursor_after, QUESTIONS_PER_DAY.
  destruct (Z.leb_spec (len (parse_text content)) (persisted_cursor w))
    as [Hge|Hlt].
  - destruct (main_done_run api tok w content Htok Hq Hge)
      as (evs & -> & Hapi & _).
    exists evs. split; [reflexivity|].
    rewrite filter_poll_to_api, Hapi. unfold indices.
    rewrite Z.sub_diag. cbn [Z.to_nat seq List.map].
    clear. induction CHAT_IDS as [|x t IH]; [reflexivity | exact IH].
  - destruct (main_batch_run api tok w content Htok Hq Hlt)
      as (evs & -> & Hapi & _).
    exists evs. split; [reflexivity|].
    rewrite filter_poll_to_api, Hapi. unfold sends. rewrite map_pairs.
    cbn [fst snd].
    rewrite (flat_map_ext _
               (fun chat' =>
                  List.map (quiz_of (parse_text content) chat')
                    (indices (persisted_cursor w)
                       (batch_end (persisted_cursor w)
                                  (len (parse_text content))))))
      by (intros chat'; apply batch_quizzes; lia).
    rewrite (filter_poll_to_chats _ _ _ _ chat_ids_distinct Hin).
    reflexivity.
Qed.

(** X6. Over an unchanged question file and from a cursor [c] within
    [0, total], the quizzes that [n] runs send to a recipient are, in
    order, those of the questions of indices [c] up to the cursor after
    the runs: no question is skipped and none is sent twice, whatever
    sends fail. The number of questions is one that [int] reads back,
    below [10 ^ 4300]. *)
Theorem questions_sent_once_in_order :
  forall apis tok w content chat_id,
    truthy tok = true ->
    files w !! QUESTIONS_FILE = Some content ->
    len (parse_text content) < int_bound ->
    0 <= persisted_cursor w <= len (parse_text content) ->
    In chat_id CHAT_IDS ->
    List.filter (poll_to chat_id) (new_events w (runs apis tok w))
    = List.map (quiz_of (parse_text content) chat_id)
        (indices (persisted_cursor w)
           (cursor_after (persisted_cursor w) (len (parse_text content))
                         (length apis))).
Proof.
  intros apis tok w content chat_id Htok Hq Hbound Hc Hin.
  assert (H : exists evs,
             events (runs apis tok w) = events w ++ evs
             /\ List.filter (poll_to chat_id) evs
                = List.map (quiz_of (parse_text content) chat_id)
                    (indices (persisted_cursor w)
                       (cursor_after (persisted_cursor w)
                          (len (parse_text content)) (length apis)))).
  { revert w Hq Hc. induction apis as [|api t IH]; intros w Hq Hc.
    - exists []. rewrite app_nil_r. split; [reflexivity|].
      cbn [length]. unfold cursor_after, QUESTIONS_PER_DAY, indices.
      destruct (Z.leb_spec (len (parse_text content)) (persisted_cursor w)).
      + rewrite Z.sub_diag. reflexivity.
      + replace (Z.min (persisted_cursor w + 20 * Z.of_nat 0)
                       (len (parse_text content)) - persisted_cursor w)
          with 0 by lia.
        reflexivity.
    - destruct (run_polls api tok w content chat_id Htok Hq Hc Hin)
        as (e1 & He1 & Hp1).
      destruct (run_cursor api tok w content Htok Hq Hbound) as [Hq' Hc'].
      assert (Hr : 0 <= cursor_after (persisted_cursor w)
                          (len (parse_text content)) 1
                   <= len (parse_text content)).
      { unfold cursor_after, QUESTIONS_PER_DAY.
        destruct (Z.leb_spec (len (parse_text content)) (persisted_cursor w));
          lia. }
      rewrite <- Hc' in Hr.
      destruct (IH _ Hq' Hr) as (e2 & He2 & Hp2).
      exists (e1 ++ e2).
      change (runs (api :: t) tok w)
        with (runs t tok (snd (main api (Some tok) w))).
      rewrite He2, He1, <- app_assoc. split; [reflexivity|].
      rewrite List.filter_app, Hp1, Hp2, Hc', cursor_after_step.
      rewrite <- List.map_app. f_equal. cbn [length].
      apply indices_app. rewrite <- cursor_after_step.
      unfold cursor_after, QUESTIONS_PER_DAY.
      repeat match goal with
        | |- context [Z.leb ?a ?b] => destruct (Z.leb_spec a b)
        end; lia. }
  destruct H as (evs & Hev & Hp).
  rewrite (new_events_app _ _ evs Hev). exact Hp.
Qed.

Lemma questions_sent_once_in_order_witness :
  List.filter (poll_to (lit "8070930921"))
    (new_events (sample_world None ninety_text)
       (runs [api_ok; api_down; api_second_fails] TOKEN
             (sample_world None ninety_text)))
  = List.map (quiz_of (parse_text ninety_text) (lit "8070930921"))
      (indices (persisted_cursor (sample_world None ninety_text))
         (cursor_after (persisted_cursor (sample_world None ninety_text))
                       (len (parse_text ninety_text)) 3)).
Proof.
  apply (questions_sent_once_in_order [api_ok; api_down; api_second_fails]
           TOKEN (sample_world None ninety_text) ninety_text
           (lit "8070930921")).
  - reflexivity.
  - vm_compute. reflexivity.
  - rewrite parse_ninety_text. vm_compute. reflexivity.
  - split; apply Z.leb_le; vm_compute; reflexivity.
  - right. left. reflexivity.
Defined.

(** X7. The cursor file that a batch run writes is read back by
    [read_progress] as the end index of the batch: [int] undoes [str] on
    the integers of at most 4300 digits, of either sign, and the end index
    is one of them when the number of questions is. *)
Theorem written_cursor_is_read_back :
  (forall n,
      - int_bound < n < int_bound -> py_int (strip (py_str n)) = Some n)
  /\ (forall api tok w content,
         truthy tok = true ->
         files w !! QUESTIONS_FILE = Some content ->
         persisted_cursor w < len (parse_text content) ->
         len (parse_text content) < int_bound ->
         exists w1 w2,
           main api (Some tok) w = (Ok tt, w1)
           /\ read_progress w1
              = (Ok (Z.min (persisted_cursor w + 20) (len (parse_text content))),
                 w2)).
Proof.
  split.
  - intros n Hn. rewrite (strip_id _ (py_str_no_space n)).
    apply py_int_py_str. exact Hn.
  - intros api tok w content Htok Hq Hlt Hbound.
    destruct (main_batch_run api tok w content Htok Hq Hlt)
      as (evs & Hrun & _).
    match type of Hrun with
    | _ = (_, ?w1) =>
        destruct (read_progress_run w1) as (e2 & Hread & _);
        exists w1, (add_events w1 e2)
    end.
    split; [exact Hrun|]. rewrite Hread. cbn [files].
    rewrite lookup_insert_eq, cursor_of_py_str; [reflexivity|].
    pose proof (cursor_of_bound (files w !! PROGRESS_FILE)) as Hc.
    pose proof int_bound_pos.
    assert (0 <= len (parse_text content)) by (unfold len; lia).
    unfold batch_end, QUESTIONS_PER_DAY, persisted_cursor in *. lia.
Qed.

Lemma written_cursor_is_read_back_witness :
  exists w1 w2,
    main api_down (Some TOKEN) (sample_world (Some (lit "-30")) sample_text)
    = (Ok tt, w1)
    /\ read_progress w1 = (Ok (-10), w2).
Proof.
  apply (proj2 written_cursor_is_read_back api_down TOKEN
           (sample_world (Some (lit "-30")) sample_text) sample_text).
  - reflexivity.
  - vm_compute. reflexivity.
  - apply Z.ltb_lt. vm_compute. reflexivity.
  - vm_compute. reflexivity.
Defined.

Lemma send_completion_trace api chat_id w :
  send_completion api chat_id w
  = (Ok tt,
     after w (SendMessage chat_id COMPLETION_TEXT
              :: match api (api_calls w) with
                 | Some msg => [completion_failure chat_id msg]
                 | None => []
                 end) 1).
Proof.
  unfold send_completion, try_except, api_call, after.
  destruct (api (api_calls w)) as [msg|].
  - unfold log, emit. cbn [files events api_calls exn_str].
    rewrite <- app_assoc. reflexivity.
  - reflexivity.
Qed.

Lemma completion_loop_trace api chats w :
  exists evs,
    for_each chats (send_completion api) w = (Ok tt, after w evs (length chats))
    /\ List.filter is_api evs
       = List.map (fun chat_id => SendMessage chat_id COMPLETION_TEXT) chats
    /\ List.filter is_error evs = completion_failures api (api_calls w) chats.
Proof.
  revert w. induction chats as [|chat t IH]; intros w.
  - exists []. unfold after. cbn. rewrite app_nil_r. destruct w. auto.
  - cbn [for_each]. unfold bind. rewrite send_completion_trace.
    match goal with
    | |- context [after w ?e 1] =>
        destruct (IH (after w e 1)) as (e2 & Hrun & Hapi & Herr);
        exists (e ++ e2)
    end.
    rewrite Hrun, after_after, Nat.add_1_r. split; [reflexivity|].
    rewrite !List.filter_app, Hapi, Herr.
    cbn [api_calls after Nat.add List.map completion_failures].
    destruct (api (api_calls w)); cbn; auto.
Qed.

(** X8. In a run that finds every question sent, a completion message
    that raises is logged as one error record naming its recipient, the
    other recipient is still tried, and the run returns normally with the
    files as they were. *)
Theorem completion_failures_are_logged :
  forall api tok w content,
    truthy tok = true ->
    files w !! QUESTIONS_FILE = Some content ->
    len (parse_text content) <= persisted_cursor w ->
    exists w',
      main api (Some tok) w = (Ok tt, w')
      /\ List.filter is_api (new_events w w')
         = List.map (fun chat_id => SendMessage chat_id COMPLETION_TEXT)
                    CHAT_IDS
      /\ List.filter is_error (new_events w w')
         = completion_failures api (api_calls w) CHAT_IDS
      /\ files w' = files w.
Proof.
  intros api tok w content Htok Hq Hc. unfold main. rewrite Htok. cbn [negb].
  rewrite bind_log. unfold bind at 1.
  destruct (parse_mcqs_run QUESTIONS_FILE content
              (add_events w [Log INFO (lit "Bot initialized.")]) Hq)
    as (e1 & H1 & B1).
  rewrite H1. unfold bind at 1.
  match goal with
  | |- context [read_progress ?w1] =>
      destruct (read_progress_run w1) as (e2 & H2 & B2)
  end.
  cbn [add_events files] in H2. rewrite H2.
  fold (persisted_cursor w). apply Z.leb_le in Hc. rewrite Hc.
  rewrite bind_log.
  match goal with
  | |- context [for_each CHAT_IDS _ ?w2] =>
      destruct (completion_loop_trace api CHAT_IDS w2) as (e3 & H3 & A3 & E3)
  end.
  rewrite H3.
  destruct (benign_filters _ B1) as (A1 & E1 & _).
  destruct (benign_filters _ B2) as (A2 & E2 & _).
  eexists. split; [reflexivity|].
  erewrite new_events_app
    by (unfold after, add_events; cbn [files events api_calls];
        rewrite <- !app_assoc; reflexivity).
  cbn [api_calls add_events after Nat.add] in E3.
  repeat first [ rewrite List.filter_app
               | progress cbn [List.filter is_api is_error app] ].
  rewrite A1, A2, A3, E1, E2, E3. cbn [app].
  split; [reflexivity|]. split; reflexivity.
Qed.

Lemma completion_failures_are_logged_witness :
  exists w',
    main api_second_fails (Some TOKEN)
         (sample_world (Some (lit "3")) sample_text) = (Ok tt, w')
    /\ List.filter is_error
         (new_events (sample_world (Some (lit "3")) sample_text) w')
       = [Log ERROR
            (lit "Failed to send completion message to 8070930921: Timed out")]
    /\ files w' = files (sample_world (Some (lit "3")) sample_text).
Proof.
  destruct (completion_failures_are_logged api_second_fails TOKEN
              (sample_world (Some (lit "3")) sample_text) sample_text)
    as (w' & Hrun & _ & Herr & Hfiles).
  - reflexivity.
  - vm_compute. reflexivity.
  - apply Z.leb_le. vm_compute. reflexivity.
  - exists w'. split; [exact Hrun|]. split; [|exact Hfiles].
    rewrite Herr. vm_compute. reflexivity.
Defined.

Lemma missing_question_file_aborts_witness :
  exists w',
    main api_ok (Some TOKEN) no_questions_world = (Raise FileNotFoundError, w')
    /\ files w' = files no_questions_world
    /\ api_calls w' = api_calls no_questions_world
    /\ List.filter is_api (new_events no_questions_world w') = []
    /\ List.filter is_write (new_events no_questions_world w') = []
    /\ ~ In (FileRead PROGRESS_FILE) (new_events no_questions_world w').
Proof.
  apply (missing_question_file_aborts api_ok TOKEN no_questions_world).
  - reflexivity.
  - vm_compute. reflexivity.
Defined.

Lemma only_cursor_file_changes_witness :
  files (snd (main api_second_fails (Some TOKEN)
                   (sample_world None sample_text))) !! QUESTIONS_FILE
  = files (sample_world None sample_text) !! QUESTIONS_FILE.
Proof.
  apply (only_cursor_file_changes api_second_fails (Some TOKEN)
           (sample_world None sample_text) QUESTIONS_FILE).
  intros H. vm_compute in H. discriminate.
Defined.

(** * Further properties of [parse_mcqs] *)

Lemma parse_block_report parsed block w :
  parse_block parsed block w
  = (Ok (parsed ++ record_list (block_record block)),
     add_events w (block_report block)).
Proof.
  unfold parse_block, block_record, block_report, drop_reason, block_record.
  destruct (strip block) as [|b0 bt] eqn:Eb.
  { rewrite (block_lines_blank _ Eb). cbn [truthy negb record_list].
    rewrite add_events_nil, app_nil_r. reflexivity. }
  cbn [truthy negb].
  destruct (block_lines block) as [|l0 [|l1 [|l2 [|l3 rest]]]] eqn:El;
    try (cbn [record_list]; rewrite app_nil_r; reflexivity).
  assert (Hlen : (len (l0 :: l1 :: l2 :: l3 :: rest) <? 4) = false)
    by (apply Z.ltb_ge; unfold len; cbn [length]; lia).
  rewrite Hlen. rewrite py_index_first, bind_ret.
  rewrite py_index_last, bind_ret.
  set (lines := l0 :: l1 :: l2 :: l3 :: rest) in *.
  assert (Hlast : List.last lines [] = List.last lines l0)
    by (apply last_cons_default).
  rewrite Hlast.
  set (answer_line := List.last lines l0).
  assert (Hopts : forall f : str -> str,
             (len (List.map f (py_slice lines 1 (-1))) =? 4)
             = Nat.eqb (length rest) 2).
  { intros f. unfold len. rewrite length_map, py_slice_inner_length.
    subst lines. cbn [length].
    destruct (Nat.eqb_spec (length rest) 2);
      [apply Z.eqb_eq | apply Z.eqb_neq]; lia. }
  destruct (Re.search true ANSWER answer_line) as [[p [n g]]|] eqn:Es.
  - destruct (AnswerFacts.search_answer_first _ _ _ _ Es) as (c & -> & Hc & _).
    unfold group1_lower. cbn [snd]. rewrite bind_ret, Hopts.
    destruct rest as [|l4 [|l5 [|l6 rest]]]; cbn [length Nat.eqb negb];
      try (cbn [record_list]; rewrite app_nil_r; reflexivity).
    subst answer_line lines. cbn [List.last] in Es. rewrite Es.
    rewrite add_events_nil.
    cbn [str_lower List.map ord record_list]. rewrite bind_ret.
    change (ord (lit "a")) with (@ret Z 97). rewrite bind_ret.
    unfold ret. reflexivity.
  - destruct rest as [|l4 [|l5 [|l6 rest]]];
      try (subst answer_line lines; cbn [List.last] in Es; try rewrite Es);
      cbn [record_list]; rewrite app_nil_r; reflexivity.
Qed.

Lemma for_fold_parse_report blocks parsed w :
  for_fold blocks parsed parse_block w
  = (Ok (parsed
         ++ flat_map (fun block => record_list (block_record block)) blocks),
     add_events w (flat_map block_report blocks)).
Proof.
  revert parsed w. induction blocks as [|b bs IH]; intros parsed w.
  - cbn. rewrite add_events_nil, app_nil_r. reflexivity.
  - cbn [for_fold flat_map]. unfold bind at 1.
    rewrite parse_block_report, IH, add_events_app, <- app_assoc.
    reflexivity.
Qed.

Lemma block_report_count block :
  (length (List.filter is_warning (block_report block))
   + length (record_list (block_record block))
   = if truthy (strip block) then 1 else 0)%nat.
Proof.
  unfold block_report. destruct (truthy (strip block)) eqn:Et.
  - destruct (block_record block); reflexivity.
  - destruct (strip block) eqn:Es; [|discriminate].
    unfold block_record. rewrite (block_lines_blank _ Es). reflexivity.
Qed.

(** X9. Every non-blank block of the text is accounted for once: it
    either yields a record or is reported in one warning that quotes the
    block after the reason of the first check it fails; nothing else is
    warned, and a blank text yields neither record nor warning. *)
Theorem blocks_parsed_or_reported :
  forall path content w,
    files w !! path = Some content ->
    exists w',
      parse_mcqs path w = (Ok (parse_text content), w')
      /\ List.filter is_warning (new_events w w')
         = flat_map (fun block => List.filter is_warning (block_report block))
                    (Re.split BLOCK_SEP (strip content))
      /\ (length (List.filter is_warning (new_events w w'))
          + length (parse_text content)
          = length (List.filter (fun block => truthy (strip block))
                                (Re.split BLOCK_SEP (strip content))))%nat
      /\ (strip content = [] ->
          parse_text content = []
          /\ List.filter is_warning (new_events w w') = []).
Proof.
  intros path content w Hf. unfold parse_mcqs. rewrite bind_log.
  unfold bind at 1. rewrite read_file_run. cbn [add_events files].
  rewrite Hf. cbv beta iota zeta. unfold bind at 1.
  rewrite for_fold_parse_report. cbn [app]. fold (parse_text content).
  rewrite bind_log. unfold ret.
  eexists. split; [reflexivity|].
  erewrite new_events_app
    by (unfold add_events; cbn [files events api_calls];
        rewrite <- !app_assoc; reflexivity).
  assert (Hw : List.filter is_warning
                 ([Log INFO (lit "Parsing questions from " ++ path)]
                  ++ [FileRead path]
                  ++ flat_map block_report (Re.split BLOCK_SEP (strip content))
                  ++ [Log INFO
                        (lit "Successfully parsed "
                         ++ py_str (len (parse_text content))
                         ++ lit " questions.")])
               = flat_map
                   (fun block => List.filter is_warning (block_report block))
                   (Re.split BLOCK_SEP (strip content))).
  { cbn [app List.filter is_warning]. rewrite List.filter_app.
    cbn [List.filter is_warning]. rewrite app_nil_r.
    induction (Re.split BLOCK_SEP (strip content)) as [|b t IH];
      [reflexivity|].
    cbn [flat_map]. rewrite List.filter_app, IH. reflexivity. }
  rewrite Hw. clear Hw. split; [reflexivity|]. split.
  - unfold parse_text.
    induction (Re.split BLOCK_SEP (strip content)) as [|b t IH];
      [reflexivity|].
    cbn [flat_map List.filter]. rewrite !length_app.
    pose proof (block_report_count b) as Hb.
    destruct (truthy (strip b)); cbn [length]; lia.
  - intros Hs. unfold parse_text. rewrite Hs. split; reflexivity.
Qed.

Lemma blocks_parsed_or_reported_witness :
  exists w',
    parse_mcqs QUESTIONS_FILE (sample_world None sample_text)
    = (Ok (parse_text sample_text), w')
    /\ List.filter is_warning (new_events (sample_world None sample_text) w')
       = [Log WARNING
            (lit "Block does not have 4 options: "
             ++ block_text ["Three options only"; "a) x"; "b) y"; "c) z";
                            "Answer: a"]%string);
          Log WARNING
            (lit "Could not find answer in block: "
             ++ block_text ["Letter out of range"; "a) w"; "b) x"; "c) y";
                            "d) z"; "Answer: e"]%string);
          Log WARNING
            (lit "Could not find answer in block: "
             ++ block_text ["No token"; "a) w"; "b) x"; "c) y"; "d) z";
                            "It is b"]%string)].
Proof.
  destruct (blocks_parsed_or_reported QUESTIONS_FILE sample_text
              (sample_world None sample_text))
    as (w' & Hrun & Hwarn & _).
  - vm_compute. reflexivity.
  - exists w'. split; [exact Hrun|]. rewrite Hwarn. vm_compute. reflexivity.
Defined.

(** ** Stripped lines *)

Lemma lstrip_length s : (length (lstrip s) <= length s)%nat.
Proof.
  induction s as [|c t IH]; cbn [lstrip]; [reflexivity|].
  destruct (isspace c); cbn [length]; lia.
Qed.

Lemma lstrip_length_eq s : length (lstrip s) = length s -> lstrip s = s.
Proof.
  destruct s as [|c t]; [reflexivity|]. cbn [lstrip].
  destruct (isspace c); [|reflexivity].
  pose proof (lstrip_length t). cbn [length]. lia.
Qed.

Lemma lstrip_lstrip s : lstrip (lstrip s) = lstrip s.
Proof.
  induction s as [|c t IH]; [reflexivity|]. cbn [lstrip].
  destruct (isspace c) eqn:E; [exact IH|]. cbn [lstrip]. rewrite E. reflexivity.
Qed.

Lemma lstrip_fixed_head c t : lstrip (c :: t) = c :: t -> isspace c = false.
Proof.
  cbn [lstrip]. destruct (isspace c); [|reflexivity].
  intros H. pose proof (lstrip_length t) as Hl. rewrite H in Hl.
  cbn [length] in Hl. lia.
Qed.

Lemma in_lstrip c s : In c (lstrip s) -> In c s.
Proof.
  induction s as [|x t IH]; [exact id|]. cbn [lstrip].
  destruct (isspace x); [|exact id]. intros H. right. exact (IH H).
Qed.

Lemma in_strip c s : In c (strip s) -> In c s.
Proof.
  unfold strip, rstrip. intros H. apply in_rev in H.
  apply in_lstrip in H. apply in_rev in H. apply in_lstrip. exact H.
Qed.

(** A stripped text has no white space at its head, nor at the head of
    its reverse. *)
Lemma stripped_ends s :
  strip s = s -> lstrip s = s /\ lstrip (rev s) = rev s.
Proof.
  unfold strip, rstrip. intros H.
  assert (Hl : lstrip s = s).
  { apply lstrip_length_eq. apply (f_equal (@length N)) in H.
    rewrite length_rev in H.
    pose proof (lstrip_length (rev (lstrip s))) as H1.
    rewrite length_rev in H1. pose proof (lstrip_length s). lia. }
  split; [exact Hl|]. rewrite Hl in H.
  apply (f_equal (@rev N)) in H. rewrite rev_involutive in H. exact H.
Qed.

Lemma ends_stripped s :
  lstrip s = s -> lstrip (rev s) = rev s -> strip s = s.
Proof.
  intros Hl Hr. unfold strip, rstrip. rewrite Hl, Hr. apply rev_involutive.
Qed.

Lemma strip_strip s : strip (strip s) = strip s.
Proof.
  apply ends_stripped.
  - unfold strip, rstrip.
    set (y := lstrip s).
    assert (Hy : lstrip y = y) by apply lstrip_lstrip.
    pose proof (lstrip_skipn (rev y)) as Hk.
    pose proof (firstn_skipn (ws_len (rev y)) (rev y)) as Hsplit.
    rewrite <- Hk in Hsplit.
    apply (f_equal (@rev N)) in Hsplit.
    rewrite rev_app_distr, rev_involutive in Hsplit.
    destruct (rev (lstrip (rev y))) as [|c z] eqn:Ez; [reflexivity|].
    rewrite <- Hsplit in Hy. cbn [app] in Hy.
    cbn [lstrip]. cbn [lstrip] in Hy.
    destruct (isspace c); [|reflexivity].
    pose proof (lstrip_length (z ++ rev (firstn (ws_len (rev y)) (rev y))))
      as Hlen.
    rewrite Hy in Hlen. cbn [length] in Hlen. lia.
  - unfold strip, rstrip. rewrite rev_involutive. apply lstrip_lstrip.
Qed.

(** A suffix of a stripped text that starts without white space is
    stripped. *)
Lemma stripped_suffix pre u :
  strip (pre ++ u) = pre ++ u -> lstrip u = u -> strip u = u.
Proof.
  intros Hs Hu. apply ends_stripped; [exact Hu|].
  destruct (stripped_ends _ Hs) as [_ Hr].
  rewrite rev_app_distr in Hr.
  destruct (rev u) as [|x r] eqn:Er; [reflexivity|].
  cbn [app] in Hr. apply lstrip_fixed_head in Hr.
  cbn [lstrip]. rewrite Hr. reflexivity.
Qed.

Lemma str_split_no_sep sep s p :
  In p (str_split sep s) -> ~ In sep p.
Proof.
  revert p. induction s as [|c t IH]; intros p; cbn [str_split].
  - intros [<-|[]] [].
  - destruct (N.eqb_spec c sep) as [->|Hne].
    + intros [<-|H]; [intros [] | exact (IH p H)].
    + destruct (str_split sep t) as [|p0 ps] eqn:Et; cbn [cons_head].
      * intros [<-|[]] [H|[]]. congruence.
      * intros [<-|H].
        -- intros [H|H]; [congruence|]. apply (IH p0); [left; reflexivity|].
           exact H.
        -- apply IH. right. exact H.
Qed.

Lemma block_lines_tidy block l :
  In l (block_lines block) -> l <> [] /\ tidy l.
Proof.
  unfold block_lines. intros H. apply in_map_iff in H as (x & <- & Hx).
  apply filter_In in Hx as [Hx Ht]. split; [|split].
  - destruct (strip x); [discriminate | discriminate].
  - apply strip_strip.
  - intros Hin. apply in_strip in Hin.
    exact (str_split_no_sep _ _ _ Hx Hin).
Qed.

Lemma strip_label_tidy l : tidy l -> tidy (strip_label l).
Proof.
  intros [Hs Hn]. unfold strip_label.
  destruct l as [|a [|p rest]]; try (split; assumption).
  destruct ((0x61 <=? a)%N && (a <=? 0x64)%N && (p =? 0x29)%N)%bool;
    [|split; assumption].
  split.
  - pose proof (lstrip_skipn rest) as Hk.
    pose proof (firstn_skipn (ws_len rest) rest) as Hsplit.
    rewrite <- Hk in Hsplit.
    apply (stripped_suffix (a :: p :: firstn (ws_len rest) rest)).
    + cbn [app]. rewrite Hsplit. exact Hs.
    + apply lstrip_lstrip.
  - intros Hin. apply in_lstrip in Hin. apply Hn. right. right. exact Hin.
Qed.

(** X10. Every record the parser returns has a prompt that is not empty,
    and its prompt and each of its options have no white space at either
    end and no newline. *)
Theorem records_are_tidy :
  forall content,
    List.Forall
      (fun r => question r <> [] /\ tidy (question r)
                /\ List.Forall tidy (options r))
      (parse_text content).
Proof.
  intros content. apply List.Forall_forall. intros r Hr.
  unfold parse_text in Hr. apply in_flat_map in Hr as (b & _ & Hb).
  destruct (block_record b) as [r'|] eqn:Er; cbn in Hb; [|tauto].
  destruct Hb as [<-|[]]. unfold block_record in Er.
  destruct (block_lines b) as [|p [|o1 [|o2 [|o3 [|o4 [|a [|x rest]]]]]]] eqn:El;
    try discriminate.
  assert (Hin : forall l, In l [p; o1; o2; o3; o4; a] -> l <> [] /\ tidy l).
  { intros l Hl. apply (block_lines_tidy b). rewrite El. exact Hl. }
  destruct (Re.search true ANSWER a) as [[j [n [[|c [|c' g]]|]]]|];
    try discriminate.
  injection Er as <-. cbn [question options List.map].
  rewrite !LabelFacts.sub_label.
  split; [apply Hin; left; reflexivity|].
  split; [apply Hin; left; reflexivity|].
  repeat constructor; apply strip_label_tidy; apply Hin; cbn; tauto.
Qed.

(** ** Blocks of a text and of its parts *)

Module SplitFacts.
Import Re ReFacts LabelFacts.

Lemma isspace_LF : isspace LF = true.
Proof. reflexivity. Qed.

Lemma match_here_sep_rest bol t :
  match_here false [Star Space; One (Chr LF)] bol t
  = match sep_rest t with Some k => Some (k, None) | None => None end.
Proof.
  revert bol. induction t as [|c t IH]; intros bol; [reflexivity|].
  rewrite match_here_star_cons. cbn [cset_in sep_rest].
  destruct (isspace c) eqn:Ec.
  - rewrite IH, advance_None.
    destruct (sep_rest t) as [k|]; [reflexivity|].
    rewrite match_here_One. cbn [cset_in chr_eq].
    destruct (c =? LF)%N; reflexivity.
  - rewrite match_here_One. cbn [cset_in chr_eq].
    destruct (N.eqb_spec c LF) as [->|_]; [|reflexivity].
    rewrite isspace_LF in Ec. discriminate.
Qed.

Lemma match_here_block_sep bol c t :
  match_here false BLOCK_SEP bol (c :: t)
  = if (c =? LF)%N
    then match sep_rest t with Some k => Some (S k, None) | None => None end
    else None.
Proof.
  unfold BLOCK_SEP. rewrite match_here_One. cbn [cset_in chr_eq].
  destruct (c =? LF)%N; [|reflexivity].
  rewrite match_here_sep_rest, advance_None.
  destruct (sep_rest t); reflexivity.
Qed.

Lemma sep_rest_positive t k : sep_rest t = Some k -> exists k', k = S k'.
Proof.
  destruct t as [|c t]; [discriminate|]. cbn [sep_rest].
  destruct (isspace c); [|discriminate].
  destruct (sep_rest t) as [j|].
  - intros [= <-]. eauto.
  - destruct (c =? LF)%N; [|discriminate]. intros [= <-]. eauto.
Qed.

Lemma pieces_bol bol s :
  pieces false BLOCK_SEP bol O s = pieces false BLOCK_SEP false O s.
Proof.
  destruct s as [|c t]; [reflexivity|]. cbn [pieces].
  rewrite !match_here_block_sep. reflexivity.
Qed.

Lemma split_nonempty s : split BLOCK_SEP s <> [].
Proof.
  unfold split. generalize true, O.
  induction s as [|c t IH]; intros bol skip; cbn [pieces]; [discriminate|].
  destruct skip; [|apply IH].
  destruct (match_here false BLOCK_SEP bol (c :: t)) as [[[|n] g]|];
    try discriminate.
  - specialize (IH false O).
    destruct (pieces false BLOCK_SEP false 0 t); [congruence | discriminate].
  - specialize (IH false O).
    destruct (pieces false BLOCK_SEP false 0 t); [congruence | discriminate].
Qed.

(** One step of the splitter. *)
Lemma split_cons c t :
  split BLOCK_SEP (c :: t)
  = match (if (c =? LF)%N then sep_rest t else None) with
    | Some k => [] :: split BLOCK_SEP (skipn k t)
    | None => cons_head c (split BLOCK_SEP t)
    end.
Proof.
  unfold split. cbn [pieces]. rewrite match_here_block_sep.
  destruct (c =? LF)%N; [|rewrite (pieces_bol true t); reflexivity].
  destruct (sep_rest t) as [k|] eqn:Ek;
    [|rewrite (pieces_bol true t); reflexivity].
  destruct (sep_rest_positive _ _ Ek) as [k' ->].
  rewrite pieces_skip, (pieces_bol true). reflexivity.
Qed.

Lemma blocks_after_nil s : blocks_after [] s = split BLOCK_SEP s.
Proof.
  unfold blocks_after. pose proof (split_nonempty s).
  destruct (split BLOCK_SEP s); [congruence | reflexivity].
Qed.

Lemma blocks_after_cons acc c t :
  blocks_after acc (c :: t)
  = match (if (c =? LF)%N then sep_rest t else None) with
    | Some k => acc :: split BLOCK_SEP (skipn k t)
    | None => blocks_after (acc ++ [c]) t
    end.
Proof.
  unfold blocks_after. rewrite split_cons.
  destruct (if (c =? LF)%N then sep_rest t else None).
  - rewrite app_nil_r. reflexivity.
  - pose proof (split_nonempty t).
    destruct (split BLOCK_SEP t); [congruence|]. cbn [cons_head].
    rewrite <- app_assoc. reflexivity.
Qed.

Lemma sep_rest_spaces t k :
  sep_rest t = Some k ->
  (k <= length t)%nat /\ forallb isspace (firstn k t) = true.
Proof.
  revert k. induction t as [|c t IH]; intros k; [discriminate|].
  cbn [sep_rest]. destruct (isspace c) eqn:Ec; [|discriminate].
  destruct (sep_rest t) as [j|].
  - intros [= <-]. destruct (IH j eq_refl) as [Hl Hs].
    cbn [length firstn forallb]. rewrite Ec, Hs. split; [lia | reflexivity].
  - destruct (c =? LF)%N; [|discriminate]. intros [= <-].
    cbn [length firstn forallb]. rewrite Ec. split; [lia | reflexivity].
Qed.

(** The separator is decided by the run of white space: what follows a
    character that is not white space does not matter. *)
Lemma sep_rest_local t z :
  forallb isspace t = false -> sep_rest (t ++ z) = sep_rest t.
Proof.
  induction t as [|c t IH]; [discriminate|].
  cbn [forallb app sep_rest]. destruct (isspace c); [|reflexivity].
  cbn [andb]. intros H. rewrite (IH H). reflexivity.
Qed.

Lemma sep_rest_none_no_lf w z :
  forallb isspace w = true -> sep_rest (w ++ z) = None -> lf_count w = O.
Proof.
  induction w as [|c w IH]; [reflexivity|].
  cbn [forallb app sep_rest]. intros H.
  apply andb_true_iff in H as [Hc Hw]. rewrite Hc.
  destruct (sep_rest (w ++ z)) as [k|] eqn:Ek; [discriminate|].
  unfold lf_count. cbn [List.filter]. rewrite (N.eqb_sym LF c).
  destruct (c =? LF)%N; [discriminate|]. intros _. exact (IH Hw eq_refl).
Qed.

Lemma forallb_rev {A} (f : A -> bool) (s : list A) :
  forallb f (rev s) = forallb f s.
Proof.
  induction s as [|c t IH]; [reflexivity|].
  cbn [rev forallb]. rewrite forallb_app, IH. cbn [forallb].
  rewrite andb_true_r. apply andb_comm.
Qed.

Lemma forallb_skipn {A} (f : A -> bool) k (s : list A) :
  forallb f s = true -> forallb f (skipn k s) = true.
Proof.
  revert k. induction s as [|c t IH]; intros [|k] H; try exact H.
  cbn [skipn]. cbn [forallb] in H. apply andb_true_iff in H as [_ H].
  exact (IH k H).
Qed.

Lemma lstrip_all_spaces w : forallb isspace w = true -> lstrip w = [].
Proof.
  intros H. rewrite <- (app_nil_r w), (lstrip_app_spaces _ _ H). reflexivity.
Qed.

Lemma lstrip_app x y :
  lstrip (x ++ y) = if forallb isspace x then lstrip y else lstrip x ++ y.
Proof.
  induction x as [|c t IH]; [reflexivity|].
  cbn [app lstrip forallb]. destruct (isspace c); [exact IH | reflexivity].
Qed.

Lemma strip_app_spaces_l w s :
  forallb isspace w = true -> strip (w ++ s) = strip s.
Proof. intros H. unfold strip. rewrite (lstrip_app_spaces _ _ H). reflexivity. Qed.

Lemma strip_app_spaces_r s w :
  forallb isspace w = true -> strip (s ++ w) = strip s.
Proof.
  intros H. unfold strip. rewrite lstrip_app.
  destruct (forallb isspace s) eqn:Es.
  - rewrite (lstrip_all_spaces _ H), (lstrip_all_spaces _ Es). reflexivity.
  - unfold rstrip. rewrite rev_app_distr, lstrip_app_spaces; [reflexivity|].
    rewrite forallb_rev. exact H.
Qed.

Lemma block_record_strip b1 b2 :
  strip b1 = strip b2 -> block_record b1 = block_record b2.
Proof. intros H. unfold block_record, block_lines. rewrite H. reflexivity. Qed.

Lemma records_after_spaces acc s :
  forallb isspace acc = true ->
  records_of (blocks_after acc s) = records_of (split BLOCK_SEP s).
Proof.
  intros H. unfold blocks_after. pose proof (split_nonempty s).
  destruct (split BLOCK_SEP s) as [|hd tl]; [congruence|].
  unfold records_of. cbn [flat_map].
  rewrite (block_record_strip (acc ++ hd) hd (strip_app_spaces_l _ _ H)).
  reflexivity.
Qed.

Lemma record_app_spaces acc w :
  forallb isspace w = true ->
  record_list (block_record (acc ++ w)) = record_list (block_record acc).
Proof.
  intros H.
  rewrite (block_record_strip (acc ++ w) acc (strip_app_spaces_r _ _ H)).
  reflexivity.
Qed.

(** White space before a text does not change its records. *)
Lemma records_lstrip_fuel n s :
  (length s <= n)%nat ->
  records_of (split BLOCK_SEP s) = records_of (split BLOCK_SEP (lstrip s)).
Proof.
  revert s. induction n as [|n IH]; intros s Hn.
  - destruct s; [reflexivity | cbn [length] in Hn; lia].
  - destruct s as [|c t]; [reflexivity|]. cbn [lstrip].
    destruct (isspace c) eqn:Ec; [|reflexivity].
    cbn [length] in Hn. rewrite split_cons.
    destruct (if (c =? LF)%N then sep_rest t else None) as [k|] eqn:Ek.
    + destruct (c =? LF)%N; [|discriminate].
      destruct (sep_rest_spaces _ _ Ek) as [Hk Hs].
      change (records_of ([] :: split BLOCK_SEP (skipn k t)))
        with (records_of (split BLOCK_SEP (skipn k t))).
      rewrite (IH (skipn k t)) by (rewrite length_skipn; lia).
      rewrite <- (firstn_skipn k t) at 2.
      rewrite (lstrip_app_spaces _ _ Hs). reflexivity.
    + assert (Hb : cons_head c (split BLOCK_SEP t) = blocks_after [c] t).
      { unfold blocks_after. pose proof (split_nonempty t).
        destruct (split BLOCK_SEP t); [congruence | reflexivity]. }
      rewrite Hb, records_after_spaces
        by (cbn [forallb]; rewrite Ec; reflexivity).
      apply IH. lia.
Qed.

Lemma records_lstrip s :
  records_of (split BLOCK_SEP s) = records_of (split BLOCK_SEP (lstrip s)).
Proof. exact (records_lstrip_fuel (length s) s (Nat.le_refl _)). Qed.

Lemma records_spaces w :
  forallb isspace w = true -> records_of (split BLOCK_SEP w) = [].
Proof.
  intros H. rewrite records_lstrip, (lstrip_all_spaces _ H). reflexivity.
Qed.

(** White space alone adds no record to the block before it. *)
Lemma records_after_only_spaces w acc :
  forallb isspace w = true ->
  records_of (blocks_after acc w) = record_list (block_record acc).
Proof.
  revert acc. induction w as [|c w IH]; intros acc H.
  - unfold blocks_after, records_of. cbn [split pieces flat_map].
    rewrite !app_nil_r. reflexivity.
  - cbn [forallb] in H. apply andb_true_iff in H as [Hc Hw].
    rewrite blocks_after_cons.
    destruct (if (c =? LF)%N then sep_rest w else None) as [k|].
    + change (records_of (acc :: split BLOCK_SEP (skipn k w)))
        with (record_list (block_record acc)
              ++ records_of (split BLOCK_SEP (skipn k w))).
      rewrite (records_spaces _ (forallb_skipn _ k _ Hw)). apply app_nil_r.
    + rewrite (IH _ Hw). apply record_app_spaces.
      cbn [forallb]. rewrite Hc. reflexivity.
Qed.

Lemma lf_count_app x y : lf_count (x ++ y) = (lf_count x + lf_count y)%nat.
Proof. unfold lf_count. rewrite List.filter_app, length_app. reflexivity. Qed.

(** A run of white space with a blank line in it, or at the end of the
    text, closes the block before it. *)
Lemma records_after_separator m acc b :
  forallb isspace m = true ->
  (2 <= lf_count m)%nat \/ b = [] ->
  records_of (blocks_after acc (m ++ b))
  = record_list (block_record acc) ++ records_of (split BLOCK_SEP b).
Proof.
  revert acc. induction m as [|c m IH]; intros acc Hm Hb.
  - destruct Hb as [Hb | ->]; [cbn in Hb; lia|].
    cbn [app]. rewrite (records_after_only_spaces [] acc eq_refl).
    symmetry. apply app_nil_r.
  - cbn [forallb] in Hm. apply andb_true_iff in Hm as [Hc Hm].
    cbn [app]. rewrite blocks_after_cons.
    destruct (if (c =? LF)%N then sep_rest (m ++ b) else None) as [k|] eqn:Ek.
    + destruct (c =? LF)%N; [|discriminate].
      destruct (sep_rest_spaces _ _ Ek) as [Hk Hs].
      change (records_of (acc :: split BLOCK_SEP (skipn k (m ++ b))))
        with (record_list (block_record acc)
              ++ records_of (split BLOCK_SEP (skipn k (m ++ b)))).
      f_equal. rewrite records_lstrip, (records_lstrip b).
      f_equal. f_equal.
      rewrite <- (lstrip_app_spaces _ b Hm).
      rewrite <- (firstn_skipn k (m ++ b)) at 2.
      rewrite (lstrip_app_spaces _ _ Hs). reflexivity.
    + rewrite IH; [|exact Hm|].
      * f_equal. apply record_app_spaces. cbn [forallb]. rewrite Hc.
        reflexivity.
      * destruct Hb as [Hb|Hb]; [|right; exact Hb].
        unfold lf_count in Hb. cbn [List.filter] in Hb.
        rewrite (N.eqb_sym LF c) in Hb.
        destruct (c =? LF)%N.
        -- pose proof (sep_rest_none_no_lf _ _ Hm Ek) as H0.
           unfold lf_count in H0. cbn [length] in Hb. lia.
        -- left. exact Hb.
Qed.

Lemma records_append_fuel n a m b acc :
  (length a <= n)%nat ->
  forallb isspace m = true ->
  (2 <= lf_count m)%nat \/ b = [] ->
  records_of (blocks_after acc (a ++ m ++ b))
  = records_of (blocks_after acc a) ++ records_of (split BLOCK_SEP b).
Proof.
  revert a acc. induction n as [|n IH]; intros a acc Hn Hm Hb.
  - destruct a; [|cbn [length] in Hn; lia]. cbn [app].
    rewrite (records_after_separator m acc b Hm Hb).
    rewrite (records_after_only_spaces [] acc eq_refl). reflexivity.
  - destruct (forallb isspace a) eqn:Ea.
    + rewrite app_assoc, records_after_separator.
      * rewrite (records_after_only_spaces a acc Ea). reflexivity.
      * rewrite forallb_app, Ea, Hm. reflexivity.
      * destruct Hb as [Hb|Hb]; [left | right; exact Hb].
        rewrite lf_count_app. lia.
    + destruct a as [|c t]; [discriminate|].
      cbn [length] in Hn. cbn [app]. rewrite !blocks_after_cons.
      destruct (N.eqb_spec c LF) as [->|Hne].
      * cbn [forallb] in Ea. rewrite isspace_LF in Ea. cbn [andb] in Ea.
        rewrite (sep_rest_local t (m ++ b) Ea).
        destruct (sep_rest t) as [k|] eqn:Ek.
        -- destruct (sep_rest_spaces _ _ Ek) as [Hk _].
           rewrite skipn_app.
           replace (k - length t)%nat with O by lia. rewrite skipn_O.
           change (records_of (acc :: ?l))
             with (record_list (block_record acc) ++ records_of l).
           rewrite <- (blocks_after_nil (skipn k t ++ m ++ b)).
           rewrite (IH (skipn k t) [])
             by (try rewrite length_skipn; try lia; assumption).
           rewrite blocks_after_nil. apply app_assoc.
        -- apply IH; [lia | exact Hm | exact Hb].
      * apply IH; [lia | exact Hm | exact Hb].
Qed.

(** Stripping a text does not change its records. *)
Lemma records_strip s :
  records_of (split BLOCK_SEP (strip s)) = records_of (split BLOCK_SEP s).
Proof.
  rewrite (records_lstrip s). unfold strip, rstrip.
  set (y := lstrip s).
  pose proof (lstrip_skipn (rev y)) as Hk.
  pose proof (firstn_skipn (ws_len (rev y)) (rev y)) as Hsplit.
  rewrite <- Hk in Hsplit.
  apply (f_equal (@rev N)) in Hsplit.
  rewrite rev_app_distr, rev_involutive in Hsplit.
  rewrite <- Hsplit at 2.
  rewrite <- (blocks_after_nil (rev (lstrip (rev y)) ++ _)).
  rewrite <- (app_nil_r (rev (firstn (ws_len (rev y)) (rev y)))).
  rewrite (records_append_fuel _ _ _ [] [] (Nat.le_refl _)).
  - rewrite blocks_after_nil. symmetry. apply app_nil_r.
  - rewrite forallb_rev. apply ws_len_spaces.
  - right. reflexivity.
Qed.

Lemma parse_text_append a m b :
  forallb isspace m = true ->
  (2 <= lf_count m)%nat ->
  parse_text (a ++ m ++ b) = parse_text a ++ parse_text b.
Proof.
  intros Hm Hc. unfold parse_text. fold (records_of).
  change (flat_map (fun block => record_list (block_record block)) ?l)
    with (records_of l).
  rewrite !records_strip.
  rewrite <- (blocks_after_nil (a ++ m ++ b)), <- (blocks_after_nil a).
  apply (records_append_fuel _ _ _ _ _ (Nat.le_refl _) Hm). left. exact Hc.
Qed.

End SplitFacts.

(** X11. Records compose over a blank line: the records of two texts
    joined by white space that holds at least two newlines are the
    records of the first followed by those of the second. So text added
    after the last question leaves every earlier question at its index,
    and the cursor keeps its meaning. *)
Theorem appended_text_appends_records :
  forall a m b,
    forallb isspace m = true ->
    (2 <= lf_count m)%nat ->
    parse_text (a ++ m ++ b) = parse_text a ++ parse_text b
    /\ (forall i q,
           nth_error (parse_text a) i = Some q ->
           nth_error (parse_text (a ++ m ++ b)) i = Some q).
Proof.
  intros a m b Hm Hc.
  pose proof (SplitFacts.parse_text_append a m b Hm Hc) as H.
  split; [exact H|]. intros i q Hq. rewrite H.
  rewrite nth_error_app1; [exact Hq|].
  apply nth_error_Some. congruence.
Qed.

Lemma appended_text_appends_records_witness :
  parse_text (sample_text ++ [LF; 32%N; 9%N; LF; LF] ++ sample_block)
  = parse_text sample_text ++ parse_text sample_block
  /\ (forall i q,
         nth_error (parse_text sample_text) i = Some q ->
         nth_error
           (parse_text (sample_text ++ [LF; 32%N; 9%N; LF; LF] ++ sample_block))
           i = Some q).
Proof.
  apply (appended_text_appends_records sample_text [LF; 32%N; 9%N; LF; LF]
           sample_block).
  - reflexivity.
  - vm_compute. lia.
Defined.

(** X12. In a run with a batch the cursor file is written once, and only
    after every send of the batch has been attempted: the events of the
    run end with the record that announces the update, the write, and the
    record that the task is finished, and nothing before them is a
    write. *)
Theorem cursor_written_after_sends :
  forall api tok w content,
    truthy tok = true ->
    files w !! QUESTIONS_FILE = Some content ->
    persisted_cursor w < len (parse_text content) ->
    exists w' before,
      main api (Some tok) w = (Ok tt, w')
      /\ new_events w w'
         = before
           ++ [Log INFO
                 (lit "Updating progress file to index "
                  ++ py_str (Z.min (persisted_cursor w + 20)
                                   (len (parse_text content))));
               FileWrite PROGRESS_FILE
                 (py_str (Z.min (persisted_cursor w + 20)
                                (len (parse_text content))));
               Log INFO (lit "Daily task finished successfully.")]
      /\ List.filter is_write before = []
      /\ List.filter is_api before
         = List.filter is_api (new_events w w').
Proof.
  intros api tok w content Htok Hq Hc. unfold main. rewrite Htok. cbn [negb].
  rewrite bind_log. unfold bind at 1.
  destruct (parse_mcqs_run QUESTIONS_FILE content
              (add_events w [Log INFO (lit "Bot initialized.")]) Hq)
    as (e1 & H1 & B1).
  rewrite H1. unfold bind at 1.
  match goal with
  | |- context [read_progress ?w1] =>
      destruct (read_progress_run w1) as (e2 & H2 & B2)
  end.
  cbn [add_events files] in H2. rewrite H2. fold (persisted_cursor w).
  assert (Hge : (len (parse_text content) <=? persisted_cursor w) = false)
    by (apply Z.leb_gt; exact Hc).
  rewrite Hge. rewrite bind_log. unfold bind at 1.
  match goal with
  | |- context [for_each CHAT_IDS ?body ?w2] =>
      match body with
      | (fun chat_id => bind (log INFO (@?msg chat_id)) _) =>
          match goal with
          | |- context [send_quiz api ?c ?total] =>
              match goal with
              | |- context [enumerate ?batch] =>
                  destruct (chat_loop_run api c total msg CHAT_IDS
                              (enumerate batch) w2)
                    as (e3 & H3 & A3 & E3 & W3)
              end
          end
      end
  end.
  rewrite H3. rewrite bind_log. unfold bind at 1, write_file, log, emit.
  destruct (benign_filters _ B1) as (A1 & _ & W1).
  destruct (benign_filters _ B2) as (A2 & _ & W2).
  eexists. exists ([Log INFO (lit "Bot initialized.")] ++ e1 ++ e2
                   ++ [Log INFO
                         (lit "Sending questions from index "
                          ++ py_str (persisted_cursor w) ++ lit " to "
                          ++ py_str (Z.min (persisted_cursor w
                                            + QUESTIONS_PER_DAY)
                                           (len (parse_text content)) - 1)
                          ++ lit ".")]
                   ++ e3).
  split; [reflexivity|].
  erewrite new_events_app
    by (unfold after, add_events; cbn [files events api_calls];
        rewrite <- !app_assoc; reflexivity).
  split; [cbn [app]; rewrite <- !app_assoc; reflexivity|].
  repeat first [ rewrite List.filter_app
               | progress cbn [List.filter is_api is_write app] ].
  rewrite A1, A2, W1, W2, W3. cbn [app]. rewrite ?app_nil_r.
  split; reflexivity.
Qed.

Lemma cursor_written_after_sends_witness :
  exists w' before,
    main api_down (Some TOKEN) (sample_world None sample_text) = (Ok tt, w')
    /\ new_events (sample_world None sample_text) w'
       = before
         ++ [Log INFO (lit "Updating progress file to index 3");
             FileWrite PROGRESS_FILE (lit "3");
             Log INFO (lit "Daily task finished successfully.")]
    /\ List.filter is_write before = []
    /\ List.filter is_api before
       = List.filter is_api (new_events (sample_world None sample_text) w').
Proof.
  apply (cursor_written_after_sends api_down TOKEN
           (sample_world None sample_text) sample_text).
  - reflexivity.
  - vm_compute. reflexivity.
  - apply Z.ltb_lt. vm_compute. reflexivity.
Defined.

(** ** Blocks have no blank line *)

Module BlockFacts.
Import Re ReFacts LabelFacts SplitFacts.

Lemma sep_rest_extend u z k :
  sep_rest u = Some k -> exists k', sep_rest (u ++ z) = Some k'.
Proof.
  revert k. induction u as [|c u IH]; intros k; [discriminate|].
  cbn [app sep_rest]. destruct (isspace c); [|discriminate].
  destruct (sep_rest u) as [j|].
  - intros _. destruct (IH j eq_refl) as [k' ->]. eauto.
  - destruct (c =? LF)%N; [|discriminate]. intros _.
    destruct (sep_rest (u ++ z)); eauto.
Qed.

Lemma sep_at_shrink c u z : sep_at c (u ++ z) = None -> sep_at c u = None.
Proof.
  unfold sep_at. destruct (c =? LF)%N; [|reflexivity].
  intros H. destruct (sep_rest u) as [k|] eqn:Ek; [|reflexivity].
  destruct (sep_rest_extend u z k Ek) as [k' Hk']. congruence.
Qed.

Lemma clean_snoc acc c t :
  clean acc (c :: t) -> sep_at c t = None -> clean (acc ++ [c]) t.
Proof.
  intros Hc Hs pre c' u Heq.
  induction u as [|x u' _] using rev_ind.
  - apply app_inj_tail in Heq as [_ <-]. exact Hs.
  - change (pre ++ c' :: u' ++ [x]) with (pre ++ (c' :: u') ++ [x]) in Heq.
    rewrite app_assoc in Heq. apply app_inj_tail in Heq as [-> <-].
    rewrite <- app_assoc. exact (Hc pre c' u' eq_refl).
Qed.

Lemma blocks_after_no_blank_line n s acc block :
  (length s <= n)%nat ->
  clean acc s ->
  In block (blocks_after acc s) -> no_blank_line block.
Proof.
  revert s acc. induction n as [|n IH]; intros s acc Hn Hc Hin.
  - destruct s; [|cbn [length] in Hn; lia].
    unfold blocks_after in Hin. cbn in Hin. destruct Hin as [<-|[]].
    rewrite app_nil_r. intros pre c u Heq.
    specialize (Hc pre c u Heq). rewrite app_nil_r in Hc. exact Hc.
  - destruct s as [|c t].
    + unfold blocks_after in Hin. cbn in Hin. destruct Hin as [<-|[]].
      rewrite app_nil_r. intros pre c u Heq.
      specialize (Hc pre c u Heq). rewrite app_nil_r in Hc. exact Hc.
    + cbn [length] in Hn. rewrite blocks_after_cons in Hin.
      fold (sep_at c t) in Hin.
      destruct (sep_at c t) as [k|] eqn:Ek.
      * destruct Hin as [<-|Hin].
        -- intros pre c' u Heq. exact (sep_at_shrink _ _ _ (Hc pre c' u Heq)).
        -- rewrite <- blocks_after_nil in Hin.
           apply (IH (skipn k t) []); [rewrite length_skipn; lia | | exact Hin].
           intros pre c' u Heq. destruct pre; discriminate.
      * apply (IH t (acc ++ [c])); [lia | | exact Hin].
        exact (clean_snoc _ _ _ Hc Ek).
Qed.

Lemma search_from_none bol pos s :
  no_blank_line s -> search_from false BLOCK_SEP bol pos s = None.
Proof.
  revert bol pos. induction s as [|c t IH]; intros bol pos H.
  - reflexivity.
  - cbn [search_from]. rewrite match_here_block_sep.
    pose proof (H [] c t eq_refl) as Hc. unfold sep_at in Hc.
    destruct (c =? LF)%N.
    + rewrite Hc. apply IH. intros pre c' u Heq.
      apply (H (c :: pre) c' u). rewrite Heq. reflexivity.
    + apply IH. intros pre c' u Heq.
      apply (H (c :: pre) c' u). rewrite Heq. reflexivity.
Qed.

Lemma split_single s : no_blank_line s -> split BLOCK_SEP s = [s].
Proof.
  induction s as [|c t IH]; intros H; [reflexivity|].
  rewrite split_cons. fold (sep_at c t). rewrite (H [] c t eq_refl).
  rewrite IH; [reflexivity|]. intros pre c' u Heq.
  apply (H (c :: pre) c' u). rewrite Heq. reflexivity.
Qed.

End BlockFacts.

(** X13. The blocks the parser works on are cut at blank lines and at
    nothing else: no block contains a blank line (a newline, white space,
    a newline), so [re.search] finds no separator in it, and a text
    without a blank line is one block. *)
Theorem blocks_have_no_blank_line :
  (forall s block,
      In block (Re.split BLOCK_SEP s) ->
      no_blank_line block /\ Re.search false BLOCK_SEP block = None)
  /\ (forall s, no_blank_line s -> Re.split BLOCK_SEP s = [s]).
Proof.
  split.
  - intros s block Hin.
    assert (H : no_blank_line block).
    { rewrite <- SplitFacts.blocks_after_nil in Hin.
      apply (BlockFacts.blocks_after_no_blank_line
               (length s) s [] block (Nat.le_refl _)); [|exact Hin].
      intros pre c u Heq. destruct pre; discriminate. }
    split; [exact H|]. apply BlockFacts.search_from_none. exact H.
  - exact BlockFacts.split_single.
Qed.

Lemma blocks_have_no_blank_line_witness :
  (no_blank_line sample_block
   /\ Re.search false BLOCK_SEP sample_block = None)
  /\ Re.split BLOCK_SEP sample_block = [sample_block].
Proof.
  assert (H : no_blank_line sample_block
              /\ Re.search false BLOCK_SEP sample_block = None).
  { apply (proj1 blocks_have_no_blank_line
             (sample_block ++ [LF; LF] ++ sample_block) sample_block).
    vm_compute. left. reflexivity. }
  split; [exact H|].
  exact (proj2 blocks_have_no_blank_line sample_block (proj1 H)).
Defined.

(** X14. White space around the number in the cursor file, such as the
    newline an editor leaves at the end, does not change the cursor that
    is read: a file that holds, between white space, the numeral of an
    integer [n] of at most 4300 digits gives the cursor [n]. *)
Theorem cursor_file_tolerates_white_space :
  forall w before after_ n,
    forallb isspace before = true ->
    forallb isspace after_ = true ->
    - int_bound < n < int_bound ->
    files w !! PROGRESS_FILE = Some (before ++ py_str n ++ after_) ->
    exists w',
      read_progress w = (Ok n, w') /\ files w' = files w.
Proof.
  intros w before after_ n Hb Ha Hn Hf.
  destruct (read_progress_run w) as (evs & Hrun & _).
  exists (add_events w evs). split; [|reflexivity].
  rewrite Hrun, Hf. unfold cursor_of.
  rewrite (SplitFacts.strip_app_spaces_l _ _ Hb).
  rewrite (SplitFacts.strip_app_spaces_r _ _ Ha).
  rewrite (strip_id _ (py_str_no_space n)), (py_int_py_str n Hn).
  reflexivity.
Qed.

Lemma cursor_file_tolerates_white_space_witness :
  exists w',
    read_progress
      (sample_world (Some ([9%N; 32%N] ++ py_str 40 ++ [13%N; LF]))
                    sample_text)
    = (Ok 40, w')
    /\ files w'
       = files (sample_world (Some ([9%N; 32%N] ++ py_str 40 ++ [13%N; LF]))
                             sample_text).
Proof.
  apply (cursor_file_tolerates_white_space
           (sample_world (Some ([9%N; 32%N] ++ py_str 40 ++ [13%N; LF]))
                         sample_text)
           [9%N; 32%N] [13%N; LF] 40).
  - reflexivity.
  - reflexivity.
  - split; vm_compute; reflexivity.
  - vm_compute. reflexivity.
Defined.
